(** * LeapOCR Python SDK: job lifecycle orchestration

    A shallow embedding of the orchestration layer of the SDK
    ([src/leapocr/exceptions.py], [src/leapocr/types.py],
    [src/leapocr/client.py], [src/leapocr/services/ocr.py]) and the
    properties of its error taxonomy, status coercion, status poller and
    batch orchestrator.

    Conventions of the embedding:
    - a Python call either returns a value or raises: [outcome A];
    - code with effects (transport calls, clock, sleeping) threads a
      [World] explicitly and returns the outcome together with the new
      world;
    - [while True] loops take a fuel argument and return [None] when the
      fuel runs out, so that "the loop returns" is a statement about some
      amount of fuel being enough;
    - clock readings are integers, a number of seconds; a length of time
      that a caller passes ([float | None] in the signatures) is a whole
      number of seconds or one of the floats that are no number of seconds
      (inf, -inf, nan), see [duration]; the rounding of float arithmetic is
      not modelled;
    - strings are sequences of code points below 256;
    - the behaviour of the interpreter and of its library is that of
      CPython 3.11. *)

From Stdlib Require Import ZArith List String Ascii Bool Lia DecimalString.
From stdpp Require Import base list.
Import ListNotations.
Local Open Scope string_scope.
Local Open Scope Z_scope.
#[local] Set Warnings "-register-all".

(* ===================================================================== *)
(** ** Python values and exceptions *)
(* ===================================================================== *)

(** JSON-like values carried in payloads and response bodies. *)
Inductive pyval : Type :=
| PyNone
| PyBool (b : bool)
| PyInt (z : Z)
| PyStr (s : string)
| PyList (l : list pyval)
| PyDict (d : list (string * pyval)).

(** Python truthiness. *)
Definition truthy (v : pyval) : bool :=
  match v with
  | PyNone => false
  | PyBool b => b
  | PyInt z => negb (z =? 0)
  | PyStr s => negb (s =? "")%string
  | PyList l => match l with [] => false | _ => true end
  | PyDict d => match d with [] => false | _ => true end
  end.

Definition str_truthy (s : option string) : bool :=
  match s with Some t => negb (t =? "")%string | None => false end.

Definition int_truthy (z : option Z) : bool :=
  match z with Some n => negb (n =? 0) | None => false end.

Definition dict_truthy (d : option (list (string * pyval))) : bool :=
  match d with Some (_ :: _) => true | _ => false end.

Definition list_truthy (l : option (list pyval)) : bool :=
  match l with Some (_ :: _) => true | _ => false end.

(** [str(n)] for integers. *)
Definition str_of_Z (z : Z) : string := NilZero.string_of_int (Z.to_int z).
Definition str_of_nat (n : nat) : string := NilZero.string_of_uint (Nat.to_uint n).

(** [str.lower()] on code points below 256: the letters A to Z and the
    capital letters of the upper half (192 to 222, the multiplication sign
    215 apart) move up by 32; every other code point is left as it is. *)
Definition lower_ascii (c : ascii) : ascii :=
  let n := N_of_ascii c in
  if ((65 <=? n) && (n <=? 90) ||
      (192 <=? n) && (n <=? 222) && negb (n =? 215))%N
  then ascii_of_N (n + 32) else c.

Fixpoint lower (s : string) : string :=
  match s with
  | EmptyString => EmptyString
  | String c r => String (lower_ascii c) (lower r)
  end.

(** [needle in haystack] for strings. *)
Fixpoint contains (needle haystack : string) : bool :=
  if String.prefix needle haystack then true
  else match haystack with
       | EmptyString => false
       | String _ r => contains needle r
       end.

(** [repr(s)] of a string: single quotes unless the string holds a single
    quote and no double quote; the quote in use and the backslash are
    escaped, tab, newline and carriage return are written with their
    letters, and any other code point that is not printable as [\xNN]. *)
Definition dquote : ascii := ascii_of_N 34.
Definition squote : ascii := ascii_of_N 39.
Definition backslash : ascii := ascii_of_N 92.

Fixpoint has_char (c : ascii) (s : string) : bool :=
  match s with
  | EmptyString => false
  | String c' r => Ascii.eqb c c' || has_char c r
  end.

Definition printable (c : ascii) : bool :=
  let n := N_of_ascii c in
  ((32 <=? n) && (n <=? 126) || (161 <=? n) && negb (n =? 173))%N.

Definition hex_digit (n : N) : ascii :=
  ascii_of_N (if (n <? 10)%N then 48 + n else 87 + n).

Definition repr_char (quote c : ascii) : string :=
  let n := N_of_ascii c in
  if Ascii.eqb c quote || Ascii.eqb c backslash
  then String backslash (String c EmptyString)
  else if (n =? 9)%N then String backslash "t"
  else if (n =? 10)%N then String backslash "n"
  else if (n =? 13)%N then String backslash "r"
  else if printable c then String c EmptyString
  else String backslash
         (String "x" (String (hex_digit (n / 16))
                        (String (hex_digit (n mod 16)) EmptyString))).

Fixpoint repr_chars (quote : ascii) (s : string) : string :=
  match s with
  | EmptyString => EmptyString
  | String c r => repr_char quote c ++ repr_chars quote r
  end.

Definition str_repr (s : string) : string :=
  let quote := if has_char squote s && negb (has_char dquote s)
               then dquote else squote in
  String quote (repr_chars quote s ++ String quote EmptyString).

(** [", ".join(parts)]. *)
Fixpoint join_comma (parts : list string) : string :=
  match parts with
  | [] => EmptyString
  | [p] => p
  | p :: rest => p ++ ", " ++ join_comma rest
  end.

(** [repr(v)]. *)
Fixpoint py_repr (v : pyval) : string :=
  match v with
  | PyNone => "None"
  | PyBool true => "True"
  | PyBool false => "False"
  | PyInt z => str_of_Z z
  | PyStr s => str_repr s
  | PyList l => "[" ++ join_comma (map py_repr l) ++ "]"
  | PyDict d =>
      "{" ++ join_comma (map (fun kv => match kv with
                                        | (k, x) => str_repr k ++ ": " ++ py_repr x
                                        end) d) ++ "}"
  end.

(** A length of time as a caller passes it: a whole number of seconds, or
    one of the three floats that are no number of seconds. *)
Inductive duration : Type :=
| Seconds (n : Z)
| Inf
| NegInf
| NaN.

(** Truth value of a duration: only zero is false. *)
Definition duration_truthy (d : duration) : bool :=
  match d with
  | Seconds n => negb (n =? 0)
  | _ => true
  end.

(** [elapsed > d] for a clock difference [elapsed]: every comparison with
    nan is false. *)
Definition exceeds (elapsed : Z) (d : duration) : bool :=
  match d with
  | Seconds n => n <? elapsed
  | Inf => false
  | NegInf => true
  | NaN => false
  end.

(** [str(d)], as an f-string renders it. *)
Definition duration_str (d : duration) : string :=
  match d with
  | Seconds n => str_of_Z n
  | Inf => "inf"
  | NegInf => "-inf"
  | NaN => "nan"
  end.

(* ===================================================================== *)
(** ** exceptions.py *)
(* ===================================================================== *)

(** The exception classes: [ClientError] is [LeapOCRClientError] itself, the
    others are its subclasses. *)
Inductive error_kind : Type :=
| ClientError
| ServerError
| AuthenticationError
| ValidationError
| RateLimitError
| TimeoutError
| NotFoundError
| UploadError
| JobError
| ConfigurationError.

Record LeapOCRError : Type := mkLeapOCRError {
  kind : error_kind;
  message : string;
  error_type : string;
  status_code : option Z;
  response_body : pyval;
  timeout_seconds : option Z;
  file_name : option string;
  err_job_id : option string;
  err_job_status : option string;
  config_key : option string
}.

(** [x or default] on an optional string. *)
Definition str_or (x : option string) (default : string) : string :=
  match x with
  | Some s => if (s =? "")%string then default else s
  | None => default
  end.

(** [response_body or {}]. *)
Definition body_or_empty (b : pyval) : pyval :=
  if truthy b then b else PyDict [].

(** [LeapOCRClientError.__init__], run by every subclass through
    [super().__init__]. *)
Definition base_init (k : error_kind) (msg : string) (etype : option string)
    (code : option Z) (body : pyval) : LeapOCRError :=
  {| kind := k; message := msg; error_type := str_or etype "client_error";
     status_code := code; response_body := body_or_empty body;
     timeout_seconds := None; file_name := None; err_job_id := None;
     err_job_status := None; config_key := None |}.

Definition set_error_type (t : string) (e : LeapOCRError) : LeapOCRError :=
  {| kind := kind e; message := message e; error_type := t;
     status_code := status_code e; response_body := response_body e;
     timeout_seconds := timeout_seconds e; file_name := file_name e;
     err_job_id := err_job_id e; err_job_status := err_job_status e;
     config_key := config_key e |}.

Definition LeapOCRClientError (msg : string) (etype : option string)
    (code : option Z) (body : pyval) : LeapOCRError :=
  base_init ClientError msg etype code body.

Definition LeapOCRServerError (msg : string) (code : option Z) (body : pyval)
    : LeapOCRError :=
  set_error_type "server_error"
    (base_init ServerError msg (Some "server_error") code body).

Definition LeapOCRAuthenticationError (msg : string) (code : option Z)
    (body : pyval) : LeapOCRError :=
  set_error_type "authentication_error"
    (base_init AuthenticationError msg (Some "authentication_error") code body).

Definition LeapOCRValidationError (msg : string) (code : option Z)
    (body : pyval) : LeapOCRError :=
  set_error_type "validation_error"
    (base_init ValidationError msg (Some "validation_error") code body).

Definition LeapOCRRateLimitError (msg : string) (code : option Z)
    (body : pyval) : LeapOCRError :=
  set_error_type "rate_limit_error"
    (base_init RateLimitError msg (Some "rate_limit_error") code body).

Definition LeapOCRTimeoutError (msg : string) (seconds : option Z)
    : LeapOCRError :=
  let e := base_init TimeoutError msg (Some "timeout_error") None PyNone in
  {| kind := kind e; message := message e; error_type := "timeout_error";
     status_code := status_code e; response_body := response_body e;
     timeout_seconds := seconds; file_name := file_name e;
     err_job_id := err_job_id e; err_job_status := err_job_status e;
     config_key := config_key e |}.

Definition LeapOCRNotFoundError (msg : string) (code : option Z) (body : pyval)
    : LeapOCRError :=
  set_error_type "not_found_error"
    (base_init NotFoundError msg (Some "not_found_error") code body).

Definition LeapOCRUploadError (msg : string) (fname : option string)
    : LeapOCRError :=
  let e := base_init UploadError msg (Some "upload_error") None PyNone in
  {| kind := kind e; message := message e; error_type := "upload_error";
     status_code := status_code e; response_body := response_body e;
     timeout_seconds := timeout_seconds e; file_name := fname;
     err_job_id := err_job_id e; err_job_status := err_job_status e;
     config_key := config_key e |}.

Definition LeapOCRJobError (msg : string) (jid jstatus : option string)
    : LeapOCRError :=
  let e := base_init JobError msg (Some "job_error") None PyNone in
  {| kind := kind e; message := message e; error_type := "job_error";
     status_code := status_code e; response_body := response_body e;
     timeout_seconds := timeout_seconds e; file_name := file_name e;
     err_job_id := jid; err_job_status := jstatus;
     config_key := config_key e |}.

Definition LeapOCRConfigurationError (msg : string) (key : option string)
    : LeapOCRError :=
  let e := base_init ConfigurationError msg (Some "configuration_error") None PyNone in
  {| kind := kind e; message := message e; error_type := "configuration_error";
     status_code := status_code e; response_body := response_body e;
     timeout_seconds := timeout_seconds e; file_name := file_name e;
     err_job_id := err_job_id e; err_job_status := err_job_status e;
     config_key := key |}.

(** [is_retryable()]: each class overrides the method with a constant. *)
Definition is_retryable (e : LeapOCRError) : bool :=
  match kind e with
  | ClientError => false
  | ServerError => true
  | AuthenticationError => false
  | ValidationError => false
  | RateLimitError => true
  | TimeoutError => true
  | NotFoundError => false
  | UploadError => true
  | JobError => false
  | ConfigurationError => false
  end.

(** The transport's exception.  The class belongs to the generated client;
    [api_str] is what its [__str__] renders. *)
Record ApiException : Type := mkApiException {
  status : option Z;
  reason : option string;
  body : pyval;
  api_str : string
}.

(** Exceptions that can travel through the SDK: its own errors, the
    transport's [ApiException], and any other [Exception] (class name and
    text). *)
Inductive exn : Type :=
| Leap (e : LeapOCRError)
| Api (e : ApiException)
| Builtin (cls : string) (msg : string).

(** [str(e)].  [LeapOCRClientError.__str__] is inherited by every subclass. *)
Definition exn_str (e : exn) : string :=
  match e with
  | Leap l => "LeapOCRClientError: " ++ message l
  | Api a => api_str a
  | Builtin _ msg => msg
  end.

(** [str(v)] of a response body inside an f-string: a string is itself,
    anything else is written as [repr] writes it. *)
Definition body_str (v : pyval) : string :=
  match v with
  | PyStr s => s
  | _ => py_repr v
  end.

(** What leaves a coroutine: a [StopIteration] that escapes the body of an
    [async def] is replaced by a [RuntimeError]; any other exception, and a
    returned value, pass. *)
Definition coroutine_exn (e : exn) : exn :=
  match e with
  | Builtin cls _ =>
      if (cls =? "StopIteration")%string
      then Builtin "RuntimeError" "coroutine raised StopIteration"
      else e
  | _ => e
  end.

(** A call returns or raises. *)
Inductive outcome (A : Type) : Type :=
| Returned (a : A)
| Raised (e : exn).
Arguments Returned {A} a.
Arguments Raised {A} e.

Definition coroutine {A : Type} (r : outcome A) : outcome A :=
  match r with
  | Returned a => Returned a
  | Raised e => Raised (coroutine_exn e)
  end.

(** [getattr(error, "status", None)]: only the transport's exception has
    the attribute. *)
Definition getattr_status_code (error : exn) : option Z :=
  match error with
  | Api a => status a
  | _ => None
  end.

(** [LeapOCRExceptionMapper.map_exception]. *)
Definition map_exception (error : exn) : LeapOCRError :=
  let status_code := getattr_status_code error in
  let body := match error with Api a => body a | _ => PyDict [] end in
  if int_truthy status_code then
    match status_code with
    | Some c =>
      if c =? 401 then
        LeapOCRAuthenticationError "Invalid API key or authentication failed"
          status_code body
      else if c =? 403 then
        LeapOCRAuthenticationError "Access forbidden - check API key permissions"
          status_code body
      else if c =? 404 then
        LeapOCRNotFoundError "Resource not found" status_code body
      else if c =? 422 then
        LeapOCRValidationError ("Validation error: " ++ body_str body)
          status_code body
      else if c =? 429 then
        LeapOCRRateLimitError "Rate limit exceeded" status_code body
      else if (500 <=? c) && (c <? 600) then
        LeapOCRServerError ("Server error: " ++ body_str body) status_code body
      else LeapOCRClientError (exn_str error) None None PyNone
    | None => LeapOCRClientError (exn_str error) None None PyNone
    end
  else LeapOCRClientError (exn_str error) None None PyNone.

(** The classification in the words of the specification. *)
Definition spec_kind (code : option Z) : error_kind :=
  match code with
  | Some c =>
      if (c =? 401) || (c =? 403) then AuthenticationError
      else if c =? 404 then NotFoundError
      else if c =? 422 then ValidationError
      else if c =? 429 then RateLimitError
      else if (500 <=? c) && (c <=? 599) then ServerError
      else ClientError
  | None => ClientError
  end.

(* ===================================================================== *)
(** ** types.py *)
(* ===================================================================== *)

Inductive JobStatus : Type := PENDING | PROCESSING | COMPLETED | FAILED | CANCELLED.

Definition JobStatus_value (m : JobStatus) : string :=
  match m with
  | PENDING => "pending"
  | PROCESSING => "processing"
  | COMPLETED => "completed"
  | FAILED => "failed"
  | CANCELLED => "cancelled"
  end.

(** [JobStatus(value)]: look a member up by its value, [ValueError] when
    there is none. *)
Definition JobStatus_of_value (value : string) : outcome JobStatus :=
  if (value =? "pending")%string then Returned PENDING
  else if (value =? "processing")%string then Returned PROCESSING
  else if (value =? "completed")%string then Returned COMPLETED
  else if (value =? "failed")%string then Returned FAILED
  else if (value =? "cancelled")%string then Returned CANCELLED
  else Raised (Builtin "ValueError" (str_repr value ++ " is not a valid JobStatus")).

(** A field annotated [JobStatus | str]. *)
Inductive status_field : Type :=
| Enum (m : JobStatus)
| Str (s : string).

(** The string a status field compares as: [JobStatus] derives from [str],
    a member equals its value. *)
Definition status_str (st : status_field) : string :=
  match st with
  | Enum m => JobStatus_value m
  | Str s => s
  end.

Definition status_eq (a b : status_field) : bool :=
  (status_str a =? status_str b)%string.

Definition is_class (cls : string) (e : exn) : bool :=
  match e with
  | Builtin c _ => (c =? cls)%string
  | _ => false
  end.

(** The body shared by [Job.__post_init__], [JobStatusInfo.__post_init__]
    and [JobResult.__post_init__].  [isinstance(self.status, str)] holds for
    plain strings and for members alike. *)
Definition post_init_status (st : status_field) : outcome status_field :=
  match JobStatus_of_value (lower (status_str st)) with
  | Returned m => Returned (Enum m)
  | Raised e =>
      if is_class "ValueError" e then Returned st (* pass *) else Raised e
  end.

Definition datetime : Type := string.

Record Job : Type := mkJob {
  id : string;
  job_status : status_field;
  job_created_at : option datetime
}.

Record JobStatusInfo : Type := mkJobStatusInfo {
  jsi_job_id : string;
  jsi_status : status_field;
  jsi_progress : option Z;
  jsi_error_message : option string;
  jsi_created_at : option datetime;
  jsi_updated_at : option datetime
}.

Record JobResult : Type := mkJobResult {
  job_id : string;
  result_status : status_field;
  data : option (list (string * pyval));
  pages : option (list pyval);
  credits_used : option Z;
  processing_time : option Z;
  error_message : option string;
  created_at : option datetime;
  completed_at : option datetime
}.

(** Dataclass construction: assign the fields, then run [__post_init__]. *)
Definition Job_new (i : string) (st : status_field) (c : option datetime)
    : outcome Job :=
  match post_init_status st with
  | Returned st' => Returned (mkJob i st' c)
  | Raised e => Raised e
  end.

Definition JobStatusInfo_new (j : string) (st : status_field)
    (progress : option Z) (err : option string) (c u : option datetime)
    : outcome JobStatusInfo :=
  match post_init_status st with
  | Returned st' => Returned (mkJobStatusInfo j st' progress err c u)
  | Raised e => Raised e
  end.

Definition JobResult_new (j : string) (st : status_field)
    (d : option (list (string * pyval))) (p : option (list pyval))
    (credits ptime : option Z) (err : option string) (c f : option datetime)
    : outcome JobResult :=
  match post_init_status st with
  | Returned st' => Returned (mkJobResult j st' d p credits ptime err c f)
  | Raised e => Raised e
  end.

(** What a status query can hand back: an object with a [status] attribute,
    or a bare [JobStatus] member (the annotated return type of
    [get_job_status]). *)
Inductive status_object : Type :=
| StatusInfo (i : JobStatusInfo)
| Member (m : JobStatus).

(** [obj.status]. *)
Definition getattr_status (o : status_object) : outcome status_field :=
  match o with
  | StatusInfo i => Returned (jsi_status i)
  | Member _ =>
      Raised (Builtin "AttributeError" "'JobStatus' object has no attribute 'status'")
  end.

(** Calling the enumeration class.  [EnumType.__call__] takes [value] and,
    for the functional API, [names], [module], [qualname], [type], [start]
    and [boundary]; any other keyword fails the argument binding with a
    [TypeError], before a member is looked up.  With [names] given and not
    [None] the call is the functional API, which refuses to extend a class
    that has members; otherwise it looks [value] up. *)
Definition enum_call_params : list string :=
  ["value"; "names"; "module"; "qualname"; "type"; "start"; "boundary"].

Definition accepted_keyword (k : string) : bool :=
  existsb (String.eqb k) enum_call_params.

Fixpoint kw_lookup (k : string) (kwargs : list (string * pyval)) : option pyval :=
  match kwargs with
  | [] => None
  | (k', v) :: rest => if (k =? k')%string then Some v else kw_lookup k rest
  end.

Definition JobStatus_call (kwargs : list (string * pyval)) : outcome status_object :=
  match find (fun kv => negb (accepted_keyword (fst kv))) kwargs with
  | Some (k, _) =>
      Raised (Builtin "TypeError"
                ("EnumType.__call__() got an unexpected keyword argument '" ++ k ++ "'"))
  | None =>
      match kw_lookup "value" kwargs with
      | None =>
          Raised (Builtin "TypeError"
                    "EnumType.__call__() missing 1 required positional argument: 'value'")
      | Some value =>
          match kw_lookup "names" kwargs with
          | None | Some PyNone =>
              match value with
              | PyStr s =>
                  match JobStatus_of_value s with
                  | Returned m => Returned (Member m)
                  | Raised e => Raised e
                  end
              | _ =>
                  Raised (Builtin "ValueError"
                            (py_repr value ++ " is not a valid JobStatus"))
              end
          | Some _ =>
              Raised (Builtin "TypeError"
                        ("<enum " ++ py_repr value ++
                         "> cannot extend <enum 'JobStatus'>"))
          end
      end
  end.

(* ===================================================================== *)
(** ** client.py *)
(* ===================================================================== *)

(** Payloads of the generated client's responses ([response.data]). *)
Record StatusData : Type := mkStatusData {
  sd_job_id : string;
  sd_status : string;
  sd_progress : option Z;
  sd_error_message : option string;
  sd_created_at : option datetime;
  sd_updated_at : option datetime
}.

Record ResultData : Type := mkResultData {
  rd_job_id : string;
  rd_status : string;
  rd_data : option (list (string * pyval));
  rd_pages : option (list pyval);
  rd_credits_used : option Z;
  rd_processing_time : option Z;
  rd_error_message : option string;
  rd_created_at : option datetime;
  rd_completed_at : option datetime
}.

(** Effects the poller has on the outside: queries and sleeps, in order. *)
Inductive event : Type :=
| StatusQuery (job : string)
| ResultQuery (job : string)
| Slept (seconds : duration).

Record World : Type := mkWorld {
  real_time : Z;       (* time passed since the world began *)
  trace : list event
}.

Definition record_event (ev : event) (dt : Z) (w : World) : World :=
  {| real_time := real_time w + dt; trace := trace w ++ [ev] |}.

(** The generated client, an external collaborator: what each call answers
    in a given world, and how long the call takes. *)
Record Transport : Type := mkTransport {
  get_job_status_with_http_info : World -> string -> outcome StatusData * Z;
  get_job_result_with_http_info : World -> string -> outcome ResultData * Z
}.

(** Clocks and sleeping.  Both clocks follow the same real time from their
    own epoch; a sleep lasts the requested time plus whatever the scheduler
    adds.  What the event loop makes of a timer set to nan depends on the
    other timers it holds: [nan_sleep] tells after how long
    [asyncio.sleep(nan)] returns, or that it never does ([None]). *)
Record Runtime : Type := mkRuntime {
  wall_epoch : Z;
  loop_epoch : Z;
  oversleep : World -> Z;
  nan_sleep : World -> option Z
}.

(** The largest whole number of seconds that [time.sleep] takes: the time
    module counts nanoseconds in a signed 64-bit integer. *)
Definition sleep_max : Z := 9223372036.

(** The smallest integer that does not convert to a float. *)
Definition float_overflow : Z := 2 ^ 1024 - 2 ^ 970.

(** [time.time()]. *)
Definition time_time (rt : Runtime) (w : World) : Z := wall_epoch rt + real_time w.

(** [asyncio.get_event_loop().time()]. *)
Definition loop_time (rt : Runtime) (w : World) : Z := loop_epoch rt + real_time w.

(** [time.sleep(secs)]: the length is first converted to the nanoseconds
    of the time module, which fails for nan and for a length outside its
    range, and then rejected when negative.  The call always comes back
    ([Some]). *)
Definition time_sleep (rt : Runtime) (secs : duration) (w : World)
    : option (outcome unit * World) :=
  match secs with
  | NaN => Some (Raised (Builtin "ValueError" "Invalid value NaN (not a number)"), w)
  | Inf | NegInf =>
      Some (Raised (Builtin "OverflowError"
                      "timestamp too large to convert to C _PyTime_t"), w)
  | Seconds n =>
      if (n <? - sleep_max) || (sleep_max <? n) then
        Some (Raised (Builtin "OverflowError"
                        "timestamp too large to convert to C _PyTime_t"), w)
      else if n <? 0 then
        Some (Raised (Builtin "ValueError" "sleep length must be non-negative"), w)
      else Some (Returned tt, record_event (Slept secs) (n + oversleep rt w) w)
  end.

(** [await asyncio.sleep(delay)]: a delay that is not positive only yields
    to the event loop once; a positive one is added to the loop's clock, a
    float, to set a timer.  With an infinite delay the timer never fires and
    the call does not come back ([None]). *)
Definition asyncio_sleep (rt : Runtime) (delay : duration) (w : World)
    : option (outcome unit * World) :=
  match delay with
  | Seconds n =>
      if n <=? 0 then Some (Returned tt, record_event (Slept delay) (oversleep rt w) w)
      else if float_overflow <=? n then
        Some (Raised (Builtin "OverflowError" "int too large to convert to float"), w)
      else Some (Returned tt, record_event (Slept delay) (n + oversleep rt w) w)
  | NegInf => Some (Returned tt, record_event (Slept delay) (oversleep rt w) w)
  | Inf => None
  | NaN =>
      match nan_sleep rt w with
      | Some dt => Some (Returned tt, record_event (Slept delay) dt w)
      | None => None
      end
  end.

(** [LeapOCRClient._handle_api_error].  Every branch raises; the value is
    the exception raised. *)
Definition _handle_api_error (error : ApiException) : LeapOCRError :=
  let status_code := status error in
  match status_code with
  | Some c =>
    if c =? 401 then
      LeapOCRAuthenticationError "Invalid API key or authentication failed" None PyNone
    else if c =? 403 then
      LeapOCRAuthenticationError "Access forbidden - check API key permissions" None PyNone
    else if c =? 404 then
      LeapOCRNotFoundError "Resource not found" None PyNone
    else if c =? 422 then
      LeapOCRValidationError ("Validation error: " ++ body_str (body error)) None PyNone
    else if c =? 429 then
      LeapOCRRateLimitError "Rate limit exceeded" None PyNone
    else if int_truthy status_code && ((500 <=? c) && (c <? 600)) then
      LeapOCRServerError ("Server error: " ++ body_str (body error)) None PyNone
    else LeapOCRClientError ("API error: " ++ api_str error) None None PyNone
  | None => LeapOCRClientError ("API error: " ++ api_str error) None None PyNone
  end.

(** The [try ... except ApiException ... except Exception] frame around
    every client method. *)
Definition guarded {A : Type} (context : string) (r : outcome A) : outcome A :=
  match r with
  | Returned a => Returned a
  | Raised (Api e) => Raised (Leap (_handle_api_error e))
  | Raised e =>
      Raised (Leap (LeapOCRClientError (context ++ exn_str e) None None PyNone))
  end.

Definition opt_str (s : option string) : pyval :=
  match s with Some t => PyStr t | None => PyNone end.

Definition opt_int (z : option Z) : pyval :=
  match z with Some n => PyInt n | None => PyNone end.

(** [LeapOCRClient.get_job_status]. *)
Definition get_job_status (tr : Transport) (job : string) (w : World)
    : outcome status_object * World :=
  let '(response, dt) := get_job_status_with_http_info tr w job in
  let w' := record_event (StatusQuery job) dt w in
  (guarded "Unexpected error getting job status: "
     match response with
     | Returned status_data =>
         JobStatus_call
           [("job_id", PyStr (sd_job_id status_data));
            ("status", PyStr (sd_status status_data));
            ("progress", opt_int (sd_progress status_data));
            ("error_message", opt_str (sd_error_message status_data));
            ("created_at", opt_str (sd_created_at status_data));
            ("updated_at", opt_str (sd_updated_at status_data))]
     | Raised e => Raised e
     end, w').

(** [LeapOCRClient.get_job_result]. *)
Definition get_job_result (tr : Transport) (job : string) (w : World)
    : outcome JobResult * World :=
  let '(response, dt) := get_job_result_with_http_info tr w job in
  let w' := record_event (ResultQuery job) dt w in
  (guarded "Unexpected error getting job result: "
     match response with
     | Returned result_data =>
         JobResult_new (rd_job_id result_data) (Str (rd_status result_data))
           (rd_data result_data) (rd_pages result_data)
           (rd_credits_used result_data) (rd_processing_time result_data)
           (rd_error_message result_data) (rd_created_at result_data)
           (rd_completed_at result_data)
     | Raised e => Raised e
     end, w').

(** The two methods the poller reaches through [self]; tests replace them
    with mocks, so the poller is stated over the method table. *)
Record Client : Type := mkClient {
  self_get_job_status : string -> World -> outcome status_object * World;
  self_get_job_result : string -> World -> outcome JobResult * World
}.

(** An unpatched [LeapOCRClient] over a transport. *)
Definition LeapOCRClient (tr : Transport) : Client :=
  {| self_get_job_status := get_job_status tr;
     self_get_job_result := get_job_result tr |}.

(** [status.status in ["completed", "failed", "cancelled"]]. *)
Definition in_terminal_list (st : status_field) : bool :=
  existsb (String.eqb (status_str st)) ["completed"; "failed"; "cancelled"].

Definition timeout_message (job : string) (timeout : duration) : string :=
  "Job " ++ job ++ " did not complete within " ++ duration_str timeout ++ " seconds".

(** [timeout and elapsed > timeout]: the configured timeout when the
    deadline has passed.  A timeout of [None] or of zero is falsy and the
    comparison is not evaluated. *)
Definition timed_out (timeout : option duration) (elapsed : Z) : option duration :=
  match timeout with
  | Some t => if duration_truthy t && exceeds elapsed t then Some t else None
  | None => None
  end.

(** The body of [wait_for_result]'s [while True].  [None]: the loop has
    not ended within the fuel, or a call inside it never came back. *)
Fixpoint wait_loop (rt : Runtime) (self : Client) (fuel : nat) (job : string)
    (timeout : option duration) (poll_interval : duration) (start_time : Z) (w : World)
    : option (outcome JobResult * World) :=
  match fuel with
  | O => None
  | S fuel' =>
    match self_get_job_status self job w with
    | (Raised e, w1) => Some (Raised e, w1)
    | (Returned st_obj, w1) =>
      match getattr_status st_obj with
      | Raised e => Some (Raised e, w1)
      | Returned st =>
        if in_terminal_list st then Some (self_get_job_result self job w1)
        else
          match timed_out timeout (time_time rt w1 - start_time) with
          | Some t =>
              Some (Raised (Leap (LeapOCRTimeoutError (timeout_message job t) None)), w1)
          | None =>
          match time_sleep rt poll_interval w1 with
          | None => None
          | Some (Raised e, w2) => Some (Raised e, w2)
          | Some (Returned _, w2) =>
              wait_loop rt self fuel' job timeout poll_interval start_time w2
          end
          end
      end
    end
  end.

(** [LeapOCRClient.wait_for_result]. *)
Definition wait_for_result (rt : Runtime) (self : Client) (fuel : nat)
    (job : string) (timeout : option duration) (poll_interval : duration) (w : World)
    : option (outcome JobResult * World) :=
  let start_time := time_time rt w in
  wait_loop rt self fuel job timeout poll_interval start_time w.

(** The body of [wait_for_result_async]'s [while True]. *)
Fixpoint wait_loop_async (rt : Runtime) (self : Client) (fuel : nat) (job : string)
    (timeout : option duration) (poll_interval : duration) (start_time : Z) (w : World)
    : option (outcome JobResult * World) :=
  match fuel with
  | O => None
  | S fuel' =>
    match self_get_job_status self job w with
    | (Raised e, w1) => Some (Raised e, w1)
    | (Returned st_obj, w1) =>
      match getattr_status st_obj with
      | Raised e => Some (Raised e, w1)
      | Returned st =>
        if in_terminal_list st then Some (self_get_job_result self job w1)
        else
          match timed_out timeout (loop_time rt w1 - start_time) with
          | Some t =>
              Some (Raised (Leap (LeapOCRTimeoutError (timeout_message job t) None)), w1)
          | None =>
          match asyncio_sleep rt poll_interval w1 with
          | None => None
          | Some (Raised e, w2) => Some (Raised e, w2)
          | Some (Returned _, w2) =>
              wait_loop_async rt self fuel' job timeout poll_interval start_time w2
          end
          end
      end
    end
  end.

(** [LeapOCRClient.wait_for_result_async], a coroutine: what its body
    returns or raises leaves it through [coroutine]. *)
Definition wait_for_result_async (rt : Runtime) (self : Client) (fuel : nat)
    (job : string) (timeout : option duration) (poll_interval : duration) (w : World)
    : option (outcome JobResult * World) :=
  let start_time := loop_time rt w in
  match wait_loop_async rt self fuel job timeout poll_interval start_time w with
  | Some (r, w') => Some (coroutine r, w')
  | None => None
  end.

(* ===================================================================== *)
(** ** services/ocr.py *)
(* ===================================================================== *)

(** [OCRService.validate_job_result]. *)
Definition validate_job_result (job_result : JobResult) : bool :=
  if negb (status_eq (result_status job_result) (Enum COMPLETED)) then false
  else if str_truthy (error_message job_result) then false
  else if negb (dict_truthy (data job_result)) && negb (list_truthy (pages job_result))
  then false
  else true.

(** A document source: a URL or a file path. *)
Definition source : Type := string.

(** An element of a batch result list ([Job | JobResult], and, between
    [gather] and the clean-up loop of the async variant, an exception). *)
Inductive item : Type :=
| ItemJob (j : Job)
| ItemResult (r : JobResult)
| ItemException (e : exn).

(** What the batch orchestrator does to the outside, in order; the number
    is the rank of the call among the calls of its kind. *)
Inductive batch_event : Type :=
| Submitted (n : nat) (src : source)
| Awaited (n : nat) (job : string).

Record BatchWorld : Type := mkBatchWorld {
  submissions : nat;
  waits : nat;
  batch_log : list batch_event
}.

(** The methods the orchestrator reaches through [self] and [self.client]:
    the answer to the n-th submission, to the n-th wait, and to the call of
    [process_document_async] made by the i-th cooperative task. *)
Record Service : Type := mkService {
  self_process_document : nat -> source -> outcome Job;
  client_wait_for_result : nat -> string -> outcome JobResult;
  self_process_document_async : nat -> source -> bool -> outcome (Job + JobResult)
}.

Definition item_of (v : Job + JobResult) : item :=
  match v with
  | inl j => ItemJob j
  | inr r => ItemResult r
  end.

(** State and exceptions of the blocking batch loop. *)
Definition M (A : Type) : Type := BatchWorld -> outcome A * BatchWorld.

Definition ret {A : Type} (a : A) : M A := fun w => (Returned a, w).

Definition bind {A B : Type} (c : M A) (k : A -> M B) : M B :=
  fun w =>
    match c w with
    | (Returned a, w') => k a w'
    | (Raised e, w') => (Raised e, w')
    end.

Definition raise {A : Type} (e : exn) : M A := fun w => (Raised e, w).

Notation "x <- c ;; k" := (bind c (fun x => k))
  (at level 60, c at next level, right associativity).

(** [self.process_document(source, options, wait_for_result=False)]. *)
Definition process_document (svc : Service) (src : source) : M Job :=
  fun w =>
    (self_process_document svc (submissions w) src,
     {| submissions := S (submissions w); waits := waits w;
        batch_log := batch_log w ++ [Submitted (submissions w) src] |}).

(** [self.client.wait_for_result(job.id, ...)]. *)
Definition client_wait (svc : Service) (job : string) : M JobResult :=
  fun w =>
    (client_wait_for_result svc (waits w) job,
     {| submissions := submissions w; waits := S (waits w);
        batch_log := batch_log w ++ [Awaited (waits w) job] |}).

(** [range(0, stop, step)]. *)
Definition py_range (stop : nat) (step : Z) : outcome (list nat) :=
  if step =? 0 then Raised (Builtin "ValueError" "range() arg 3 must not be zero")
  else if step <? 0 then Returned []
  else
    let k := Z.to_nat step in
    Returned (map (fun q => (q * k)%nat) (seq 0 ((stop + k - 1) / k)%nat)).

(** [for source in batch: batch_jobs.append(self.process_document(...))]. *)
Fixpoint submit_batch (svc : Service) (batch : list source) (batch_jobs : list Job)
    : M (list Job) :=
  match batch with
  | [] => ret batch_jobs
  | src :: rest =>
      job <- process_document svc src ;;
      submit_batch svc rest (batch_jobs ++ [job])
  end.

(** [for job in batch_jobs: batch_results.append(wait_for_result(job.id))]. *)
Fixpoint wait_batch (svc : Service) (batch_jobs : list Job)
    (batch_results : list JobResult) : M (list JobResult) :=
  match batch_jobs with
  | [] => ret batch_results
  | job :: rest =>
      result <- client_wait svc (id job) ;;
      wait_batch svc rest (batch_results ++ [result])
  end.

(** The outer [for i in range(0, len(sources), max_concurrent)] loop. *)
Fixpoint batch_loop (svc : Service) (sources : list source) (max_concurrent : nat)
    (wait_for_all : bool) (starts : list nat) (results : list item)
    : M (list item) :=
  match starts with
  | [] => ret results
  | i :: rest =>
      let batch := take max_concurrent (drop i sources) in
      batch_jobs <- submit_batch svc batch [] ;;
      if wait_for_all then
        batch_results <- wait_batch svc batch_jobs [] ;;
        batch_loop svc sources max_concurrent wait_for_all rest
          (results ++ map ItemResult batch_results)
      else
        batch_loop svc sources max_concurrent wait_for_all rest
          (results ++ map ItemJob batch_jobs)
  end.

(** [OCRService.batch_process]. *)
Definition batch_process (svc : Service) (sources : list source)
    (max_concurrent : Z) (wait_for_all : bool) : M (list item) :=
  match py_range (length sources) max_concurrent with
  | Raised e => raise e
  | Returned starts =>
      batch_loop svc sources (Z.to_nat max_concurrent) wait_for_all starts []
  end.

(** [process_single(source)] of the i-th source, a coroutine, as [gather]
    sees it with [return_exceptions=True]: a value, or the exception as a
    value. *)
Definition process_single (svc : Service) (wait_for_all : bool) (i : nat)
    (src : source) : item :=
  match coroutine (self_process_document_async svc i src wait_for_all) with
  | Returned v => item_of v
  | Raised e => ItemException e
  end.

(** [asyncio.gather]: every task stores its result in the slot of its own
    index when it completes; [order] is the order of completion. *)
Fixpoint gather_slots (outcomes : list item) (order : list nat)
    (slots : list (option item)) : list (option item) :=
  match order with
  | [] => slots
  | i :: rest =>
      gather_slots outcomes rest
        match outcomes !! i with
        | Some r => <[i := Some r]> slots
        | None => slots
        end
  end.

Fixpoint all_done (slots : list (option item)) : option (list item) :=
  match slots with
  | [] => Some []
  | None :: _ => None
  | Some r :: rest =>
      match all_done rest with
      | Some l => Some (r :: l)
      | None => None
      end
  end.

(** [gather] returns once every task is done. *)
Definition gather (outcomes : list item) (order : list nat) : option (list item) :=
  all_done (gather_slots outcomes order (replicate (length outcomes) None)).

(** The [JobResult] that stands for a failed item. *)
Definition failed_result (i : nat) (e : exn) : outcome JobResult :=
  JobResult_new ("error_" ++ str_of_nat i) (Enum FAILED) None None None None
    (Some (exn_str e)) None None.

(** [for i, result in enumerate(results): if isinstance(result, Exception):
    results[i] = JobResult(...)]. *)
Fixpoint handle_exceptions (i : nat) (todo : list item) (results : list item)
    : outcome (list item) :=
  match todo with
  | [] => Returned results
  | ItemException e :: rest =>
      match failed_result i e with
      | Returned r => handle_exceptions (S i) rest (<[i := ItemResult r]> results)
      | Raised x => Raised x
      end
  | _ :: rest => handle_exceptions (S i) rest results
  end.

(** [OCRService.batch_process_async], a coroutine.  [None]: the call never
    returns (a task never completes).  A semaphore cannot be created with a
    negative value, and one created with zero never admits a task. *)
Definition batch_process_async (svc : Service) (sources : list source)
    (max_concurrent : Z) (wait_for_all : bool) (order : list nat)
    : option (outcome (list item)) :=
  if max_concurrent <? 0 then
    Some (coroutine
            (Raised (Builtin "ValueError" "Semaphore initial value must be >= 0")))
  else
    let tasks := imap (process_single svc wait_for_all) sources in
    let order := if max_concurrent =? 0 then [] else order in
    match gather tasks order with
    | None => None
    | Some results => Some (coroutine (handle_exceptions 0 results results))
    end.

(** The grouping in the words of the specification: consecutive groups no
    larger than the cap. *)
Fixpoint groups_upto {A : Type} (fuel cap : nat) (l : list A) : list (list A) :=
  match fuel with
  | O => []
  | S fuel' =>
      match l with
      | [] => []
      | _ => take cap l :: groups_upto fuel' cap (drop cap l)
      end
  end.

Definition consecutive_groups {A : Type} (cap : nat) (l : list A) : list (list A) :=
  groups_upto (length l) cap l.

(** What the clean-up loop leaves at position [i]: a failed [JobResult]
    with a made-up job id for an exception, the item itself otherwise. *)
Definition settled (i : nat) (r : item) : item :=
  match r with
  | ItemException e =>
      ItemResult (mkJobResult ("error_" ++ str_of_nat i) (Enum FAILED)
                    None None None None (Some (exn_str e)) None None)
  | _ => r
  end.

(** The log of one group, in the words of the specification: submit all
    its items, then, if [wait_for_all], wait for all of them. *)
Definition group_events (wait_for_all : bool) (group : list (nat * source * Job))
    : list batch_event :=
  (map (fun '(n, src, _) => Submitted n src) group ++
   if wait_for_all then map (fun '(n, _, job) => Awaited n (id job)) group else [])%list.

(** The sources with their position and the job each was given. *)
Definition indexed (sources : list source) (jobs : nat -> Job)
    : list (nat * source * Job) :=
  imap (fun i src => (i, src, jobs i)) sources.

Definition grouped_log (cap : nat) (wait_for_all : bool) (sources : list source)
    (jobs : nat -> Job) : list batch_event :=
  concat (map (group_events wait_for_all)
            (consecutive_groups cap (indexed sources jobs))).

(** The entry of the blocking batch's output for position [i]. *)
Definition entry (wait_for_all : bool) (jobs : nat -> Job)
    (results : nat -> JobResult) (i : nat) : item :=
  if wait_for_all then ItemResult (results i) else ItemJob (jobs i).

Definition fresh_batch : BatchWorld :=
  {| submissions := 0; waits := 0; batch_log := [] |}.

(* ===================================================================== *)
(** ** Mocks, as the test-suite builds them *)
(* ===================================================================== *)

Definition is_status_query (ev : event) : bool :=
  match ev with StatusQuery _ => true | _ => false end.

(** A client whose [get_job_status] is patched with
    [Mock(side_effect=statuses)] and whose [get_job_result] is patched with
    [Mock(return_value=...)]; every call takes [latency]. *)
Definition patched_client (statuses : list (outcome status_object))
    (result : outcome JobResult) (latency : Z) : Client :=
  {| self_get_job_status := fun job w =>
       (nth (length (filter is_status_query (trace w))) statuses
            (Raised (Builtin "StopIteration" "")),
        record_event (StatusQuery job) latency w);
     self_get_job_result := fun job w =>
       (result, record_event (ResultQuery job) latency w) |}.

(** A client whose patched [get_job_status] has a fixed [return_value]. *)
Definition constant_client (st : status_object) (result : outcome JobResult)
    (latency : Z) : Client :=
  {| self_get_job_status := fun job w =>
       (Returned st, record_event (StatusQuery job) latency w);
     self_get_job_result := fun job w =>
       (result, record_event (ResultQuery job) latency w) |}.

(** [Mock(status=s)]: an object whose [status] attribute is the string. *)
Definition mock_status (s : string) : status_object :=
  StatusInfo (mkJobStatusInfo "" (Str s) None None None None).

Definition fresh_world : World := {| real_time := 0; trace := [] |}.

Definition ideal_runtime : Runtime :=
  {| wall_epoch := 1700000000; loop_epoch := 5; oversleep := fun _ => 0;
     nan_sleep := fun _ => Some 0 |}.

(** [error_message] is absent: [None], or the empty string that Python
    also takes for false. *)
Definition absent (s : option string) : Prop := s = None \/ s = Some "".

(** A container field is populated: present and not empty. *)
Definition populated {A : Type} (l : option (list A)) : Prop :=
  exists x xs, l = Some (x :: xs).

(** An outcome that is a [LeapOCRTimeoutError]. *)
Definition raises_timeout {A : Type} (r : outcome A) : Prop :=
  exists e, r = Raised (Leap e) /\ kind e = TimeoutError.



(** One pass of a poller's loop that goes round: the status query answers
    a status outside the terminal list, the deadline has not passed and the
    sleep is done.  [None] when the pass leaves the loop instead.  The
    clock and the sleep are those of the discipline. *)
Definition poll_round (clock : World -> Z)
    (sleep : duration -> World -> option (outcome unit * World)) (self : Client)
    (job : string) (timeout : option duration) (poll_interval : duration)
    (start_time : Z) (w : World)
    : option World :=
  match self_get_job_status self job w with
  | (Returned st_obj, w1) =>
    match getattr_status st_obj with
    | Returned st =>
      if in_terminal_list st then None
      else
        match timed_out timeout (clock w1 - start_time) with
        | Some _ => None
        | None =>
          match sleep poll_interval w1 with
          | Some (Returned _, w2) => Some w2
          | _ => None
          end
        end
    | Raised _ => None
    end
  | (Raised _, _) => None
  end.

(** The world after [k] passes that all went round. *)
Fixpoint rounds (clock : World -> Z)
    (sleep : duration -> World -> option (outcome unit * World)) (self : Client)
    (job : string) (timeout : option duration) (poll_interval : duration)
    (start_time : Z) (k : nat) (w : World)
    : option World :=
  match k with
  | O => Some w
  | S k' =>
    match poll_round clock sleep self job timeout poll_interval start_time w with
    | Some w2 => rounds clock sleep self job timeout poll_interval start_time k' w2
    | None => None
    end
  end.

(** The events of polling a job: a status query on it, or a sleep. *)
Definition polling_event (job : string) (ev : event) : Prop :=
  ev = StatusQuery job \/ exists d, ev = Slept d.

Definition sample_result : JobResult :=
  mkJobResult "test_job_id" (Enum COMPLETED) (Some [("result", PyStr "success")])
    None None None None None None.

(** A service whose first cooperative task fails and whose other tasks get
    from the server a job that happens to be called "error_0". *)
Definition colliding_service : Service :=
  {| self_process_document := fun _ _ => Raised (Builtin "ConnectionError" "unreachable");
     client_wait_for_result := fun _ _ => Raised (Builtin "ConnectionError" "unreachable");
     self_process_document_async := fun i _ _ =>
       match i with
       | O => Raised (Leap (LeapOCRClientError "boom" None None PyNone))
       | _ => Returned (inl (mkJob "error_0" (Enum PENDING) None))
       end |}.

(** A service that answers every submission and every wait. *)
Definition steady_job (n : nat) : Job :=
  mkJob ("job_" ++ str_of_nat n) (Enum PENDING) None.

Definition steady_result (n : nat) : JobResult :=
  mkJobResult ("job_" ++ str_of_nat n) (Enum COMPLETED)
    (Some [("text", PyStr "ok")]) None None None None None None.

Definition steady_service : Service :=
  {| self_process_document := fun n _ => Returned (steady_job n);
     client_wait_for_result := fun n _ => Returned (steady_result n);
     self_process_document_async := fun i _ wait =>
       Returned (if wait then inr (steady_result i) else inl (steady_job i)) |}.

(** A service whose second item fails with a server error. *)
Definition flaky_service : Service :=
  {| self_process_document := fun n _ =>
       if (n =? 1)%nat
       then Raised (Leap (LeapOCRServerError "Server error: None" None PyNone))
       else Returned (steady_job n);
     client_wait_for_result := fun n _ => Returned (steady_result n);
     self_process_document_async := fun i _ wait =>
       if (i =? 1)%nat
       then Raised (Leap (LeapOCRServerError "Server error: None" None PyNone))
       else Returned (if wait then inr (steady_result i) else inl (steady_job i)) |}.

Definition three_urls : list source :=
  ["https://example.com/a.pdf"; "https://example.com/b.pdf";
   "https://example.com/c.pdf"].

(* ===================================================================== *)
(** ** types.py: formats, tiers and options *)
(* ===================================================================== *)

Inductive ProcessFormat : Type := STRUCTURED | TEXT | TABLES | FORMS.

Definition ProcessFormat_value (m : ProcessFormat) : string :=
  match m with
  | STRUCTURED => "structured"
  | TEXT => "text"
  | TABLES => "tables"
  | FORMS => "forms"
  end.

(** [ProcessFormat(value)]. *)
Definition ProcessFormat_of_value (value : string) : outcome ProcessFormat :=
  if (value =? "structured")%string then Returned STRUCTURED
  else if (value =? "text")%string then Returned TEXT
  else if (value =? "tables")%string then Returned TABLES
  else if (value =? "forms")%string then Returned FORMS
  else Raised (Builtin "ValueError" (str_repr value ++ " is not a valid ProcessFormat")).

Inductive ProcessTier : Type := CORE | PREMIUM | ENTERPRISE.

Definition ProcessTier_value (m : ProcessTier) : string :=
  match m with
  | CORE => "core"
  | PREMIUM => "premium"
  | ENTERPRISE => "enterprise"
  end.

(** [ProcessTier(value)]. *)
Definition ProcessTier_of_value (value : string) : outcome ProcessTier :=
  if (value =? "core")%string then Returned CORE
  else if (value =? "premium")%string then Returned PREMIUM
  else if (value =? "enterprise")%string then Returned ENTERPRISE
  else Raised (Builtin "ValueError" (str_repr value ++ " is not a valid ProcessTier")).

(** Fields annotated [ProcessFormat | str] and [ProcessTier | str]. *)
Inductive format_field : Type :=
| FormatMember (m : ProcessFormat)
| FormatStr (s : string).

Inductive tier_field : Type :=
| TierMember (m : ProcessTier)
| TierStr (s : string).

(** [format.value if isinstance(format, ProcessFormat) else str(format)]. *)
Definition format_text (f : format_field) : string :=
  match f with
  | FormatMember m => ProcessFormat_value m
  | FormatStr s => s
  end.

(** [tier.value if isinstance(tier, ProcessTier) else str(tier)]. *)
Definition tier_text (t : tier_field) : string :=
  match t with
  | TierMember m => ProcessTier_value m
  | TierStr s => s
  end.

(** The two halves of [ProcessOptions.__post_init__] (and of
    [UploadOptions.__post_init__], which has the same body). *)
Definition post_init_format (f : format_field) : outcome format_field :=
  match ProcessFormat_of_value (lower (format_text f)) with
  | Returned m => Returned (FormatMember m)
  | Raised e =>
      if is_class "ValueError" e then Returned f (* pass *) else Raised e
  end.

Definition post_init_tier (t : tier_field) : outcome tier_field :=
  match ProcessTier_of_value (lower (tier_text t)) with
  | Returned m => Returned (TierMember m)
  | Raised e =>
      if is_class "ValueError" e then Returned t (* pass *) else Raised e
  end.

Record ProcessOptions : Type := mkProcessOptions {
  po_format : format_field;
  po_tier : tier_field;
  po_project_id : option string;
  po_schema_id : option string;
  po_instruction_id : option string;
  po_category_id : option string;
  po_webhook_url : option string;
  po_timeout : option duration;
  po_poll_interval : duration
}.

(** Construction of a [ProcessOptions]: the fields, then [__post_init__]. *)
Definition ProcessOptions_new (f : format_field) (t : tier_field)
    (project schema instruction category webhook : option string)
    (timeout : option duration) (poll_interval : duration) : outcome ProcessOptions :=
  match post_init_format f with
  | Raised e => Raised e
  | Returned f' =>
      match post_init_tier t with
      | Raised e => Raised e
      | Returned t' =>
          Returned (mkProcessOptions f' t' project schema instruction category
                      webhook timeout poll_interval)
      end
  end.

(** [ProcessOptions(format=f)], the other fields at their defaults; the
    default poll interval is two seconds. *)
Definition ProcessOptions_with_format (f : format_field) : outcome ProcessOptions :=
  ProcessOptions_new f (TierMember CORE) None None None None None None (Seconds 2).

(** [ProcessOptions()]. *)
Definition ProcessOptions_default : outcome ProcessOptions :=
  ProcessOptions_with_format (FormatMember STRUCTURED).

Record FileUploadResult : Type := mkFileUploadResult {
  fu_job_id : string;
  fu_upload_url : string;
  fu_headers : list (string * string);
  fu_status : string;
  fu_file_name : option string;
  fu_file_size : option Z;
  fu_content_type : option string
}.

(** [RetryConfig.retryable_status_codes]. *)
Definition retryable_status_codes : list Z := [429; 500; 502; 503; 504].

Record PageResult : Type := mkPageResult {
  page_number : pyval;
  page_data : pyval;
  page_text : pyval;
  page_tables : pyval;
  page_confidence : pyval;
  page_processing_time : pyval
}.

(* ===================================================================== *)
(** ** __init__.py and client.py: construction and submission *)
(* ===================================================================== *)

(** [validate_api_key]. *)
Definition validate_api_key (api_key : string) : bool :=
  if (api_key =? "")%string then false
  else (String.prefix "pk_live_" api_key || String.prefix "pk_test_" api_key)
       && (40 <=? String.length api_key)%nat.

(** [s.rstrip("/")]. *)
Fixpoint rstrip_slash (s : string) : string :=
  match s with
  | EmptyString => EmptyString
  | String c r =>
      match rstrip_slash r with
      | EmptyString => if Ascii.eqb c "/" then EmptyString else String c EmptyString
      | r' => String c r'
      end
  end.

(** What [LeapOCRClient.__init__] stores: its own attributes, and the host
    and headers it hands to the generated client and to the HTTP clients. *)
Record ClientSettings : Type := mkClientSettings {
  cs_api_key : string;
  cs_base_url : string;
  cs_timeout : Z;
  cs_max_retries : Z;
  cs_user_agent : string;
  cs_host : string;
  cs_headers : list (string * string)
}.

(** [LeapOCRClient.__init__]. *)
Definition LeapOCRClient_init (api_key base_url : string) (timeout max_retries : Z)
    (user_agent : option string) : outcome ClientSettings :=
  if (api_key =? "")%string then
    Raised (Leap (LeapOCRClientError "API key is required" None None PyNone))
  else
    let base := rstrip_slash base_url in
    let agent := str_or user_agent "leapocr-python/0.1.0" in
    Returned {| cs_api_key := api_key; cs_base_url := base; cs_timeout := timeout;
                cs_max_retries := max_retries; cs_user_agent := agent;
                cs_host := base;
                cs_headers := [("User-Agent", agent);
                               ("Authorization", "Bearer " ++ api_key)] |}.

(** Request and response models of the generated client. *)
Record UploadURLUploadRequest : Type := mkUploadURLUploadRequest {
  rq_url : string;
  rq_format : string;
  rq_tier : string;
  rq_project_id : option string;
  rq_schema_id : option string;
  rq_instruction_id : option string;
  rq_category_id : option string;
  rq_webhook_url : option string
}.

Record UploadInitiateUploadRequest : Type := mkUploadInitiateUploadRequest {
  ir_format : string;
  ir_tier : string;
  ir_project_id : option string;
  ir_schema_id : option string;
  ir_instruction_id : option string;
  ir_category_id : option string;
  ir_webhook_url : option string
}.

Record UrlUploadData : Type := mkUrlUploadData {
  uu_job_id : string;
  uu_status : option string;
  uu_created_at : option datetime
}.

Record PresignedData : Type := mkPresignedData {
  pd_job_id : string;
  pd_upload_url : string;
  pd_headers : option (list (string * string))
}.

(** What a submission does to the outside, in order. *)
Inductive submit_event : Type :=
| UrlSubmitted (request : UploadURLUploadRequest)
| UploadInitiated (request : UploadInitiateUploadRequest)
| FileRead (path : string)
| ContentPut (url content : string) (headers : option (list (string * string))).

(** The collaborators of a submission: the generated client, the file
    system, and the HTTP client with its [raise_for_status]. *)
Record Backend : Type := mkBackend {
  upload_from_url_with_http_info : UploadURLUploadRequest -> outcome UrlUploadData;
  presigned_upload_with_http_info : UploadInitiateUploadRequest -> outcome PresignedData;
  open_read : string -> outcome string;
  http_put : string -> string -> option (list (string * string)) -> outcome Z;
  raise_for_status : Z -> outcome unit
}.

(** [LeapOCRClient.process_url]. *)
Definition process_url (be : Backend) (url : string)
    (format : format_field) (tier : tier_field)
    (project_id schema_id instruction_id category_id webhook_url : option string)
    (sent : list submit_event) : outcome Job * list submit_event :=
  let format_str := format_text format in
  let tier_str := tier_text tier in
  let request :=
    mkUploadURLUploadRequest url format_str tier_str project_id schema_id
      instruction_id category_id webhook_url in
  let response := upload_from_url_with_http_info be request in
  (guarded "Unexpected error processing URL: "
     match response with
     | Returned result_data =>
         Job_new (uu_job_id result_data)
           (Str (str_or (uu_status result_data) "pending"))
           (uu_created_at result_data)
     | Raised e => Raised e
     end,
   (sent ++ [UrlSubmitted request])%list).

(** [LeapOCRClient.process_url_async], a coroutine; the request goes
    through the same blocking call of the generated client. *)
Definition process_url_async (be : Backend) (url : string)
    (format : format_field) (tier : tier_field)
    (project_id schema_id instruction_id category_id webhook_url : option string)
    (sent : list submit_event) : outcome Job * list submit_event :=
  let format_str := format_text format in
  let tier_str := tier_text tier in
  let request :=
    mkUploadURLUploadRequest url format_str tier_str project_id schema_id
      instruction_id category_id webhook_url in
  let response := upload_from_url_with_http_info be request in
  (coroutine
     (guarded "Unexpected error processing URL async: "
        match response with
        | Returned result_data =>
            Job_new (uu_job_id result_data)
              (Str (str_or (uu_status result_data) "pending"))
              (uu_created_at result_data)
        | Raised e => Raised e
        end),
   (sent ++ [UrlSubmitted request])%list).

(** The [file] argument of [upload_file]: a path, or an open file-like
    object (what its [read()] gives). *)
Inductive file_arg : Type :=
| FilePath (path : string)
| FileObject (content : string).

(** [presigned_data.headers or {}]. *)
Definition headers_or_empty (h : option (list (string * string)))
    : list (string * string) :=
  match h with
  | Some l => l
  | None => []
  end.

(** [LeapOCRClient.upload_file]. *)
Definition upload_file (be : Backend) (file : file_arg)
    (format : format_field) (tier : tier_field)
    (project schema instruction category webhook : option string)
    (sent : list submit_event) : outcome FileUploadResult * list submit_event :=
  let context := "Unexpected error uploading file: " in
  let initiate_request :=
    mkUploadInitiateUploadRequest (format_text format) (tier_text tier) project
      schema instruction category webhook in
  let sent1 := (sent ++ [UploadInitiated initiate_request])%list in
  match presigned_upload_with_http_info be initiate_request with
  | Raised e => (guarded context (Raised e), sent1)
  | Returned presigned_data =>
    let '(read, sent2) :=
      match file with
      | FilePath path => (open_read be path, (sent1 ++ [FileRead path])%list)
      | FileObject content => (Returned content, sent1)
      end in
    match read with
    | Raised e => (guarded context (Raised e), sent2)
    | Returned file_content =>
      let sent3 :=
        (sent2 ++ [ContentPut (pd_upload_url presigned_data) file_content
                     (pd_headers presigned_data)])%list in
      match http_put be (pd_upload_url presigned_data) file_content
              (pd_headers presigned_data) with
      | Raised e => (guarded context (Raised e), sent3)
      | Returned upload_response =>
        match raise_for_status be upload_response with
        | Raised e => (guarded context (Raised e), sent3)
        | Returned _ =>
            (Returned (mkFileUploadResult (pd_job_id presigned_data)
                         (pd_upload_url presigned_data)
                         (headers_or_empty (pd_headers presigned_data))
                         "uploaded" None None None),
             sent3)
        end
      end
    end
  end.

(* ===================================================================== *)
(** ** services/ocr.py: single documents *)
(* ===================================================================== *)

(** The methods [OCRService] reaches through [self.client]; the world they
    act on is theirs.  A wait that never returns is [None]. *)
Record ClientMethods (W : Type) : Type := mkClientMethods {
  cm_process_url :
    string -> format_field -> tier_field -> option string -> option string ->
    option string -> option string -> option string -> W -> outcome Job * W;
  cm_upload_file :
    file_arg -> format_field -> tier_field -> option string -> option string ->
    option string -> option string -> option string -> W ->
    outcome FileUploadResult * W;
  cm_wait_for_result :
    string -> option duration -> duration -> W -> option (outcome JobResult * W)
}.
Arguments cm_process_url {W} _.
Arguments cm_upload_file {W} _.
Arguments cm_wait_for_result {W} _.

(** A document source: a string or path (as [str(source)] renders it), or a
    file-like object. *)
Inductive document : Type :=
| Named (s : string)
| Stream (content : string).

(** [timeout or options.timeout]. *)
Definition timeout_or (timeout fallback : option duration) : option duration :=
  match timeout with
  | Some t => if duration_truthy t then timeout else fallback
  | None => fallback
  end.

(** [OCRService._process_url]. *)
Definition _process_url {W : Type} (client : ClientMethods W) (url : string)
    (options : ProcessOptions) (wait_for_result : bool) (timeout : option duration)
    (w : W) : option (outcome (Job + JobResult) * W) :=
  match cm_process_url client url (po_format options) (po_tier options)
          (po_project_id options) (po_schema_id options)
          (po_instruction_id options) (po_category_id options)
          (po_webhook_url options) w with
  | (Raised e, w1) => Some (Raised e, w1)
  | (Returned job, w1) =>
    if wait_for_result then
      match cm_wait_for_result client (id job)
              (timeout_or timeout (po_timeout options))
              (po_poll_interval options) w1 with
      | None => None
      | Some (Returned r, w2) => Some (Returned (inr r), w2)
      | Some (Raised e, w2) => Some (Raised e, w2)
      end
    else Some (Returned (inl job), w1)
  end.

(** [OCRService._process_file]. *)
Definition _process_file {W : Type} (client : ClientMethods W) (file : file_arg)
    (options : ProcessOptions) (wait_for_result : bool) (timeout : option duration)
    (w : W) : option (outcome (Job + JobResult) * W) :=
  match cm_upload_file client file (po_format options) (po_tier options)
          (po_project_id options) (po_schema_id options)
          (po_instruction_id options) (po_category_id options)
          (po_webhook_url options) w with
  | (Raised e, w1) => Some (Raised e, w1)
  | (Returned upload_result, w1) =>
    if wait_for_result then
      match cm_wait_for_result client (fu_job_id upload_result)
              (timeout_or timeout (po_timeout options))
              (po_poll_interval options) w1 with
      | None => None
      | Some (Returned r, w2) => Some (Returned (inr r), w2)
      | Some (Raised e, w2) => Some (Raised e, w2)
      end
    else
      match Job_new (fu_job_id upload_result) (Enum PENDING) None with
      | Returned job => Some (Returned (inl job), w1)
      | Raised e => Some (Raised e, w1)
      end
  end.

(** [source_str.startswith(("http://", "https://"))]. *)
Definition is_url (source_str : string) : bool :=
  String.prefix "http://" source_str || String.prefix "https://" source_str.

(** [OCRService.process_document]. *)
Definition process_document_sync {W : Type} (client : ClientMethods W)
    (source : document) (options : option ProcessOptions)
    (wait_for_result : bool) (timeout : option duration) (w : W)
    : option (outcome (Job + JobResult) * W) :=
  match match options with
        | Some o => Returned o
        | None => ProcessOptions_default
        end with
  | Raised e => Some (Raised e, w)
  | Returned options =>
    match source with
    | Named source_str =>
        if is_url source_str
        then _process_url client source_str options wait_for_result timeout w
        else _process_file client (FilePath source_str) options wait_for_result
               timeout w
    | Stream content =>
        _process_file client (FileObject content) options wait_for_result timeout w
    end
  end.

(** [d.get(key, default)] on a dict held as an association list with
    distinct keys. *)
Definition dict_get (d : list (string * pyval)) (key : string) (default : pyval)
    : pyval :=
  match kw_lookup key d with
  | Some v => v
  | None => default
  end.

(** The tail shared by [extract_text] and [extract_structured_data]:
    [isinstance(result, JobResult) and result.data]. *)
Definition result_data_of (result : Job + JobResult)
    : option (list (string * pyval)) :=
  match result with
  | inr r => if dict_truthy (data r) then data r else None
  | inl _ => None
  end.

(** [OCRService.extract_text]. *)
Definition extract_text {W : Type} (client : ClientMethods W) (source : document)
    (timeout : option duration) (w : W) : option (outcome pyval * W) :=
  match ProcessOptions_with_format (FormatMember TEXT) with
  | Raised e => Some (Raised e, w)
  | Returned options =>
    match process_document_sync client source (Some options) true timeout w with
    | None => None
    | Some (Raised e, w') => Some (Raised e, w')
    | Some (Returned result, w') =>
      match result_data_of result with
      | Some d => Some (Returned (dict_get d "text" (PyStr "")), w')
      | None =>
          Some (Raised (Leap (LeapOCRClientError
                                "Failed to extract text from document"
                                None None PyNone)), w')
      end
    end
  end.

(** [OCRService.extract_structured_data]. *)
Definition extract_structured_data {W : Type} (client : ClientMethods W)
    (source : document) (schema_id : option string) (timeout : option duration)
    (w : W) : option (outcome (list (string * pyval)) * W) :=
  match ProcessOptions_new (FormatMember STRUCTURED) (TierMember CORE) None
          schema_id None None None None (Seconds 2) with
  | Raised e => Some (Raised e, w)
  | Returned options =>
    match process_document_sync client source (Some options) true timeout w with
    | None => None
    | Some (Raised e, w') => Some (Raised e, w')
    | Some (Returned result, w') =>
      match result_data_of result with
      | Some d => Some (Returned d, w')
      | None =>
          Some (Raised (Leap (LeapOCRClientError
                                "Failed to extract structured data from document"
                                None None PyNone)), w')
      end
    end
  end.

(** [type(v).__name__]. *)
Definition type_name (v : pyval) : string :=
  match v with
  | PyNone => "NoneType"
  | PyBool _ => "bool"
  | PyInt _ => "int"
  | PyStr _ => "str"
  | PyList _ => "list"
  | PyDict _ => "dict"
  end.

(** One step of the loop of [get_page_results]: [page_data.get] exists on a
    dict only. *)
Definition page_result_of (page : pyval) : outcome PageResult :=
  match page with
  | PyDict d =>
      Returned (mkPageResult (dict_get d "page_number" (PyInt 0))
                  (dict_get d "data" PyNone) (dict_get d "text" PyNone)
                  (dict_get d "tables" (PyList []))
                  (dict_get d "confidence" PyNone)
                  (dict_get d "processing_time" PyNone))
  | _ =>
      Raised (Builtin "AttributeError"
                ("'" ++ type_name page ++ "' object has no attribute 'get'"))
  end.

Fixpoint page_results_loop (pages : list pyval) (page_results : list PageResult)
    : outcome (list PageResult) :=
  match pages with
  | [] => Returned page_results
  | page :: rest =>
      match page_result_of page with
      | Returned r => page_results_loop rest (page_results ++ [r])
      | Raised e => Raised e
      end
  end.

(** [OCRService.get_page_results]. *)
Definition get_page_results (job_result : JobResult) : outcome (list PageResult) :=
  if negb (list_truthy (pages job_result)) then Returned []
  else
    match pages job_result with
    | Some l => page_results_loop l []
    | None => Returned []
    end.

(** The SDK put together: an [OCRService] over an unpatched client, whose
    world is what was submitted together with the poller's world. *)
Definition sdk_client (be : Backend) (tr : Transport) (rt : Runtime) (fuel : nat)
    : ClientMethods (list submit_event * World) :=
  {| cm_process_url := fun url f t p s i c h w =>
       let '(r, sent) := process_url be url f t p s i c h (fst w) in
       (r, (sent, snd w));
     cm_upload_file := fun file f t p s i c h w =>
       let '(r, sent) := upload_file be file f t p s i c h (fst w) in
       (r, (sent, snd w));
     cm_wait_for_result := fun job timeout poll_interval w =>
       match wait_for_result rt (LeapOCRClient tr) fuel job timeout poll_interval
               (snd w) with
       | Some (r, w') => Some (r, (fst w, w'))
       | None => None
       end |}.

(** A client that logs its queries: each status query and each result
    query adds its own event to the trace and nothing else. *)
Definition logs_queries (self : Client) : Prop :=
  (forall job w,
     trace (snd (self_get_job_status self job w)) =
     (trace w ++ [StatusQuery job])%list) /\
  (forall job w,
     trace (snd (self_get_job_result self job w)) =
     (trace w ++ [ResultQuery job])%list).

(** [k] passes of a poller on the trace: a status query, then a sleep of the
    poll interval. *)
Fixpoint poll_trace (job : string) (poll_interval : duration) (k : nat) : list event :=
  match k with
  | O => []
  | S k' => StatusQuery job :: Slept poll_interval :: poll_trace job poll_interval k'
  end.

Definition is_exception (r : item) : bool :=
  match r with
  | ItemException _ => true
  | _ => false
  end.

Definition sample_backend : Backend :=
  {| upload_from_url_with_http_info := fun request =>
       Returned (mkUrlUploadData "job_1" None None);
     presigned_upload_with_http_info := fun request =>
       Returned (mkPresignedData "job_2" "https://bucket.example.com/put"
                   (Some [("Content-Type", "application/pdf")]));
     open_read := fun path =>
       if (path =? "/missing.pdf")%string
       then Raised (Builtin "FileNotFoundError" "No such file or directory")
       else Returned "%PDF";
     http_put := fun url content headers => Returned 200;
     raise_for_status := fun code =>
       if (200 <=? code) && (code <? 300) then Returned tt
       else Raised (Builtin "HTTPStatusError" "Server error") |}.

Definition sample_transport : Transport :=
  {| get_job_status_with_http_info := fun w job =>
       (Returned (mkStatusData job "completed" None None None None), 1);
     get_job_result_with_http_info := fun w job =>
       (Returned (mkResultData job "COMPLETED" (Some [("text", PyStr "hello")])
                    None (Some 2) None None None None), 1) |}.

(** The [error_type] each exception class writes into its instances. *)
Definition kind_tag (k : error_kind) : string :=
  match k with
  | ClientError => "client_error"
  | ServerError => "server_error"
  | AuthenticationError => "authentication_error"
  | ValidationError => "validation_error"
  | RateLimitError => "rate_limit_error"
  | TimeoutError => "timeout_error"
  | NotFoundError => "not_found_error"
  | UploadError => "upload_error"
  | JobError => "job_error"
  | ConfigurationError => "configuration_error"
  end.

(** A run of [n] slashes. *)
Fixpoint slashes (n : nat) : string :=
  match n with
  | O => EmptyString
  | S n' => String "/" (slashes n')
  end.

(** The last character of a string, if any. *)
Fixpoint last_char (s : string) : option ascii :=
  match s with
  | EmptyString => None
  | String c EmptyString => Some c
  | String _ r => last_char r
  end.

(** A client mocked for the service's tests: every submission gives the
    job "job_1", every wait gives [r]; its world counts the calls. *)
Definition canned_client (r : outcome JobResult) : ClientMethods nat :=
  {| cm_process_url := fun _ _ _ _ _ _ _ _ n =>
       (Returned (mkJob "job_1" (Enum PENDING) None), S n);
     cm_upload_file := fun _ _ _ _ _ _ _ _ n =>
       (Returned (mkFileUploadResult "job_1" "https://bucket.example.com/put" []
                    "uploaded" None None None), S n);
     cm_wait_for_result := fun _ _ _ n => Some (r, S n) |}.

(** The options [extract_text] and [extract_structured_data] build. *)
Definition text_options : ProcessOptions :=
  mkProcessOptions (FormatMember TEXT) (TierMember CORE) None None None None None
    None (Seconds 2).

Definition structured_options (schema_id : option string) : ProcessOptions :=
  mkProcessOptions (FormatMember STRUCTURED) (TierMember CORE) None schema_id None
    None None None (Seconds 2).

(** The [PageResult] built from a page that is a dict. *)
Definition page_of_dict (d : list (string * pyval)) : PageResult :=
  mkPageResult (dict_get d "page_number" (PyInt 0)) (dict_get d "data" PyNone)
    (dict_get d "text" PyNone) (dict_get d "tables" (PyList []))
    (dict_get d "confidence" PyNone) (dict_get d "processing_time" PyNone).

Definition is_dict (v : pyval) : bool :=
  match v with
  | PyDict _ => true
  | _ => false
  end.

Definition is_url_submission (ev : submit_event) : bool :=
  match ev with
  | UrlSubmitted _ => true
  | _ => false
  end.

Definition is_file_read (ev : submit_event) : bool :=
  match ev with
  | FileRead _ => true
  | _ => false
  end.

(* ===================================================================== *)
(** * Properties *)
(* ===================================================================== *)

(** ** Error taxonomy *)

(** An exception other than a [StopIteration] passes the boundary of a
    coroutine unchanged. *)
Lemma coroutine_exn_passes (e : exn) :
  (forall msg, e <> Builtin "StopIteration" msg) -> coroutine_exn e = e.
Proof.
  intros H. destruct e as [l|a|cls msg]; cbn [coroutine_exn]; try reflexivity.
  destruct (String.eqb_spec cls "StopIteration") as [->|Hne]; [|reflexivity].
  exfalso. exact (H msg eq_refl).
Qed.

Lemma handle_api_error_kind (e : ApiException) :
  kind (_handle_api_error e) = spec_kind (status e).
Proof.
  unfold _handle_api_error, spec_kind.
  destruct (status e) as [c|]; [|reflexivity].
  destruct (Z.eqb_spec c 401); [reflexivity|].
  destruct (Z.eqb_spec c 403); [reflexivity|].
  destruct (Z.eqb_spec c 404); [reflexivity|].
  destruct (Z.eqb_spec c 422); [reflexivity|].
  destruct (Z.eqb_spec c 429); [reflexivity|].
  cbn [orb int_truthy].
  replace (c <=? 599) with (c <? 600) by lia.
  destruct (Z.eqb_spec c 0).
  - subst c. reflexivity.
  - cbn [negb andb]. destruct ((500 <=? c) && (c <? 600)); reflexivity.
Qed.

Lemma map_exception_kind (e : exn) :
  kind (map_exception e) = spec_kind (getattr_status_code e).
Proof.
  unfold map_exception, spec_kind.
  destruct (getattr_status_code e) as [c|]; [|reflexivity].
  cbn [int_truthy].
  destruct (Z.eqb_spec c 0).
  - subst c. reflexivity.
  - cbn [negb].
    destruct (Z.eqb_spec c 401); [reflexivity|].
    destruct (Z.eqb_spec c 403); [reflexivity|].
    destruct (Z.eqb_spec c 404); [reflexivity|].
    destruct (Z.eqb_spec c 422); [reflexivity|].
    destruct (Z.eqb_spec c 429); [reflexivity|].
    cbn [orb].
    replace (c <=? 599) with (c <? 600) by lia.
    destruct ((500 <=? c) && (c <? 600)); reflexivity.
Qed.

(** C2. The status-code classification is a total function and both mappers
    compute it: [_handle_api_error] (which raises) and [map_exception]
    (which returns) send 401 and 403 to AuthenticationError, 404 to
    NotFoundError, 422 to ValidationError, 429 to RateLimitError, 500..599
    to ServerError and every other or absent code to the generic
    ClientError; [is_retryable] is true exactly for ServerError,
    RateLimitError, TimeoutError and UploadError and false for the six
    other kinds. *)
Theorem status_code_mapping :
  (forall e : ApiException, kind (_handle_api_error e) = spec_kind (status e)) /\
  (forall e : exn, kind (map_exception e) = spec_kind (getattr_status_code e)) /\
  (spec_kind (Some 401) = AuthenticationError /\
   spec_kind (Some 403) = AuthenticationError /\
   spec_kind (Some 404) = NotFoundError /\
   spec_kind (Some 422) = ValidationError /\
   spec_kind (Some 429) = RateLimitError /\
   spec_kind None = ClientError) /\
  (forall c, (500 <= c <= 599 <-> spec_kind (Some c) = ServerError) /\
             (~ In c [401; 403; 404; 422; 429] /\ ~ 500 <= c <= 599 <->
              spec_kind (Some c) = ClientError)) /\
  (forall err : LeapOCRError,
     is_retryable err = true <->
     In (kind err) [ServerError; RateLimitError; TimeoutError; UploadError]) /\
  (forall err : LeapOCRError,
     is_retryable err = false <->
     In (kind err) [AuthenticationError; ValidationError; NotFoundError;
                    ConfigurationError; JobError; ClientError]) /\
  (forall msg etype code body seconds fname jid jstatus key,
     is_retryable (LeapOCRServerError msg code body) = true /\
     is_retryable (LeapOCRRateLimitError msg code body) = true /\
     is_retryable (LeapOCRTimeoutError msg seconds) = true /\
     is_retryable (LeapOCRUploadError msg fname) = true /\
     is_retryable (LeapOCRAuthenticationError msg code body) = false /\
     is_retryable (LeapOCRValidationError msg code body) = false /\
     is_retryable (LeapOCRNotFoundError msg code body) = false /\
     is_retryable (LeapOCRConfigurationError msg key) = false /\
     is_retryable (LeapOCRJobError msg jid jstatus) = false /\
     is_retryable (LeapOCRClientError msg etype code body) = false).
Proof.
  split; [exact handle_api_error_kind|].
  split; [exact map_exception_kind|].
  split; [repeat split; reflexivity|].
  split.
  - intros c. unfold spec_kind. cbn [In].
    destruct (Z.eqb_spec c 401); [subst; cbn; split; split; intros; try lia; try discriminate; intuition lia|].
    destruct (Z.eqb_spec c 403); [subst; cbn; split; split; intros; try lia; try discriminate; intuition lia|].
    destruct (Z.eqb_spec c 404); [subst; cbn; split; split; intros; try lia; try discriminate; intuition lia|].
    destruct (Z.eqb_spec c 422); [subst; cbn; split; split; intros; try lia; try discriminate; intuition lia|].
    destruct (Z.eqb_spec c 429); [subst; cbn; split; split; intros; try lia; try discriminate; intuition lia|].
    cbn [orb].
    destruct (Z.leb_spec 500 c), (Z.leb_spec c 599); cbn [andb];
      split; split; intros; try lia; try discriminate; try reflexivity;
      intuition lia.
  - split; [|split]; [intros err..|intros; repeat split; reflexivity];
      unfold is_retryable; destruct (kind err); cbn;
      split; intros; try reflexivity; try discriminate; intuition discriminate.
Qed.

(** A generic error is not retryable whatever its [error_type] says. *)
Example generic_server_error_not_retryable :
  is_retryable (LeapOCRClientError "Server error" (Some "server_error") None PyNone)
  = false.
Proof. reflexivity. Qed.

(** ** Status coercion *)

Lemma JobStatus_value_inj (m1 m2 : JobStatus) :
  JobStatus_value m1 = JobStatus_value m2 -> m1 = m2.
Proof. destruct m1, m2; cbn; intros H; try reflexivity; discriminate H. Qed.

Lemma JobStatus_of_value_spec (v : string) :
  (exists m, v = JobStatus_value m /\ JobStatus_of_value v = Returned m) \/
  ((forall m, v <> JobStatus_value m) /\
   exists msg, JobStatus_of_value v = Raised (Builtin "ValueError" msg)).
Proof.
  unfold JobStatus_of_value.
  destruct (String.eqb_spec v "pending") as [->|n1]; [left; exists PENDING; auto|].
  destruct (String.eqb_spec v "processing") as [->|n2]; [left; exists PROCESSING; auto|].
  destruct (String.eqb_spec v "completed") as [->|n3]; [left; exists COMPLETED; auto|].
  destruct (String.eqb_spec v "failed") as [->|n4]; [left; exists FAILED; auto|].
  destruct (String.eqb_spec v "cancelled") as [->|n5]; [left; exists CANCELLED; auto|].
  right. split.
  - intros m; destruct m; cbn; assumption.
  - eexists; reflexivity.
Qed.

Lemma lower_JobStatus_value (m : JobStatus) :
  lower (JobStatus_value m) = JobStatus_value m.
Proof. destruct m; reflexivity. Qed.

Lemma post_init_status_spec (st : status_field) :
  exists st', post_init_status st = Returned st' /\
    (forall m, lower (status_str st) = JobStatus_value m -> st' = Enum m) /\
    ((forall m, lower (status_str st) <> JobStatus_value m) -> st' = st).
Proof.
  unfold post_init_status.
  destruct (JobStatus_of_value_spec (lower (status_str st)))
    as [(m & Hm & ->)|(Hno & msg & ->)].
  - exists (Enum m). split; [reflexivity|]. split.
    + intros m' Hm'. f_equal. apply JobStatus_value_inj. congruence.
    + intros Hno. exfalso. exact (Hno m Hm).
  - exists st. split; [reflexivity|]. split.
    + intros m Hm. exfalso. exact (Hno m Hm).
    + reflexivity.
Qed.

(** C8. Constructing a [Job], a [JobStatusInfo] or a [JobResult] with a
    status string [s] always returns (an unrecognised string raises
    nothing), and the stored status is the member of [JobStatus] that [s]
    names, letter case aside (the constructor looks up [s.lower()]), and
    otherwise [s] itself, unchanged. *)
Theorem status_string_coercion (s : string) :
  exists st : status_field,
    (forall i c, Job_new i (Str s) c = Returned (mkJob i st c)) /\
    (forall j p e c u,
        JobStatusInfo_new j (Str s) p e c u =
        Returned (mkJobStatusInfo j st p e c u)) /\
    (forall j d p cr pt e c f,
        JobResult_new j (Str s) d p cr pt e c f =
        Returned (mkJobResult j st d p cr pt e c f)) /\
    (forall m, lower s = JobStatus_value m -> st = Enum m) /\
    (forall m, s = JobStatus_value m -> st = Enum m) /\
    ((forall m, lower s <> JobStatus_value m) -> st = Str s).
Proof.
  destruct (post_init_status_spec (Str s)) as (st & Hst & Hknown & Hother).
  cbn [status_str] in Hknown, Hother.
  exists st.
  split; [intros; unfold Job_new; rewrite Hst; reflexivity|].
  split; [intros; unfold JobStatusInfo_new; rewrite Hst; reflexivity|].
  split; [intros; unfold JobResult_new; rewrite Hst; reflexivity|].
  split; [exact Hknown|].
  split; [|exact Hother].
  intros m ->. apply Hknown. apply lower_JobStatus_value.
Qed.

Example job_status_conversion :
  Job_new "test_job" (Str "PENDING") None = Returned (mkJob "test_job" (Enum PENDING) None) /\
  Job_new "test_job" (Str "invalid_status") None =
    Returned (mkJob "test_job" (Str "invalid_status") None) /\
  Job_new "test_job" (Str "Not-A-Status") None =
    Returned (mkJob "test_job" (Str "Not-A-Status") None).
Proof. repeat split; reflexivity. Qed.

(** ** Result validation *)

Lemma str_truthy_false (s : option string) : str_truthy s = false <-> absent s.
Proof.
  unfold absent. destruct s as [t|]; cbn.
  - destruct (String.eqb_spec t ""); cbn; split; intros H.
    + subst; auto.
    + reflexivity.
    + discriminate.
    + destruct H as [H|H]; congruence.
  - split; auto.
Qed.

Lemma dict_truthy_true (d : option (list (string * pyval))) :
  dict_truthy d = true <-> populated d.
Proof.
  unfold populated. destruct d as [[|x xs]|]; cbn; split; intros H;
    try discriminate; try reflexivity; try (destruct H as (? & ? & H); discriminate).
  eauto.
Qed.

Lemma list_truthy_true (l : option (list pyval)) :
  list_truthy l = true <-> populated l.
Proof.
  unfold populated. destruct l as [[|x xs]|]; cbn; split; intros H;
    try discriminate; try reflexivity; try (destruct H as (? & ? & H); discriminate).
  eauto.
Qed.

(** C7. [validate_job_result r] is true exactly when the status of [r]
    equals completed, its error message is absent (there is none, or it is
    the empty string) and at least one of its data and pages is populated
    (present and not empty); so it accepts a completed result with data
    [{"x": 1}] and rejects a processing result with data, a completed result
    with error message "boom" and a completed result with neither data nor
    pages. *)
Theorem validate_job_result_iff :
  (forall r : JobResult,
     validate_job_result r = true <->
     status_str (result_status r) = "completed" /\
     absent (error_message r) /\
     (populated (data r) \/ populated (pages r))) /\
  (exists r, JobResult_new "j" (Str "completed") (Some [("x", PyInt 1)])
               None None None None None None = Returned r /\
             validate_job_result r = true) /\
  (exists r, JobResult_new "j" (Str "processing") (Some [("x", PyInt 1)])
               None None None None None None = Returned r /\
             validate_job_result r = false) /\
  (exists r, JobResult_new "j" (Str "completed") None
               None None None (Some "boom") None None = Returned r /\
             validate_job_result r = false) /\
  (exists r, JobResult_new "j" (Str "completed") None
               None None None None None None = Returned r /\
             validate_job_result r = false).
Proof.
  split.
  - intros r. unfold validate_job_result, status_eq. cbn [status_str JobStatus_value].
    rewrite <- str_truthy_false, <- dict_truthy_true, <- list_truthy_true.
    destruct (String.eqb_spec (status_str (result_status r)) "completed") as [E|E];
      cbn [negb].
    + destruct (str_truthy (error_message r)); [split; [discriminate|intros (_ & H & _); discriminate]|].
      destruct (dict_truthy (data r)), (list_truthy (pages r)); cbn;
        split; intros H; try discriminate; try reflexivity; try (repeat split; auto; fail).
      destruct H as (_ & _ & [H|H]); discriminate.
    + split; [discriminate|]. intros (H & _). contradiction.
  - repeat split; eexists; split; reflexivity.
Qed.

(** ** The status query *)

Lemma JobStatus_call_job_id (v : pyval) (rest : list (string * pyval)) :
  JobStatus_call (("job_id", v) :: rest) =
  Raised (Builtin "TypeError"
            "EnumType.__call__() got an unexpected keyword argument 'job_id'").
Proof. reflexivity. Qed.

(** C1. Whatever the transport answers, [get_job_status] raises an error of
    the SDK and returns no status: on a well-formed reply the call of the
    [JobStatus] enumeration with keyword arguments fails with a [TypeError]
    that the generic handler wraps into a [LeapOCRClientError]; an
    [ApiException] is classified and any other exception wrapped.  So both
    pollers of an unpatched client raise that same error in their first
    iteration, after a single status query. *)
Theorem get_job_status_never_returns (tr : Transport) (job : string) (w : World) :
  let reply := get_job_status_with_http_info tr w job in
  let w1 := record_event (StatusQuery job) (snd reply) w in
  exists err : LeapOCRError,
    get_job_status tr job w = (Raised (Leap err), w1) /\
    match fst reply with
    | Returned _ =>
        err = LeapOCRClientError
                ("Unexpected error getting job status: " ++
                 "EnumType.__call__() got an unexpected keyword argument 'job_id'")
                None None PyNone
    | Raised (Api a) => err = _handle_api_error a
    | Raised e =>
        err = LeapOCRClientError
                ("Unexpected error getting job status: " ++ exn_str e)
                None None PyNone
    end /\
    forall (rt : Runtime) (fuel : nat) (timeout : option duration)
           (poll_interval : duration),
      wait_for_result rt (LeapOCRClient tr) (S fuel) job timeout poll_interval w =
        Some (Raised (Leap err), w1) /\
      wait_for_result_async rt (LeapOCRClient tr) (S fuel) job timeout poll_interval w =
        Some (Raised (Leap err), w1).
Proof.
  intros reply w1.
  assert (H : exists err, get_job_status tr job w = (Raised (Leap err), w1) /\
    match fst reply with
    | Returned _ =>
        err = LeapOCRClientError
                ("Unexpected error getting job status: " ++
                 "EnumType.__call__() got an unexpected keyword argument 'job_id'")
                None None PyNone
    | Raised (Api a) => err = _handle_api_error a
    | Raised e =>
        err = LeapOCRClientError
                ("Unexpected error getting job status: " ++ exn_str e)
                None None PyNone
    end).
  { unfold get_job_status. subst w1 reply.
    destruct (get_job_status_with_http_info tr w job) as [[d|e] dt]; cbn [fst snd].
    - rewrite JobStatus_call_job_id. eexists; split; reflexivity.
    - destruct e; eexists; split; reflexivity. }
  destruct H as (err & Hcall & Hshape).
  exists err. split; [exact Hcall|]. split; [exact Hshape|].
  intros rt fuel timeout poll_interval.
  unfold wait_for_result, wait_for_result_async.
  cbn [wait_loop wait_loop_async LeapOCRClient self_get_job_status].
  rewrite Hcall. split; reflexivity.
Qed.

(** ** The status poller *)

Lemma in_terminal_list_true (st : status_field) :
  In (status_str st) ["completed"; "failed"; "cancelled"] ->
  in_terminal_list st = true.
Proof.
  unfold in_terminal_list. cbn [In existsb].
  intros [H|[H|[H|[]]]]; rewrite <- H; reflexivity.
Qed.

Lemma wait_loop_round (rt : Runtime) (self : Client) (job : string)
    (timeout : option duration) (poll_interval : duration) (start_time : Z)
    (fuel : nat) (w w2 : World) :
  poll_round (time_time rt) (time_sleep rt) self job timeout poll_interval start_time w
    = Some w2 ->
  wait_loop rt self (S fuel) job timeout poll_interval start_time w =
  wait_loop rt self fuel job timeout poll_interval start_time w2.
Proof.
  unfold poll_round. cbn [wait_loop]. intros H.
  destruct (self_get_job_status self job w) as [[so|e] w1]; [|discriminate H].
  destruct (getattr_status so) as [st|e]; [|discriminate H].
  destruct (in_terminal_list st); [discriminate H|].
  destruct (timed_out timeout (time_time rt w1 - start_time)); [discriminate H|].
  destruct (time_sleep rt poll_interval w1) as [[[u|e] w3]|]; try discriminate H.
  injection H as ->. reflexivity.
Qed.

Lemma wait_loop_async_round (rt : Runtime) (self : Client) (job : string)
    (timeout : option duration) (poll_interval : duration) (start_time : Z)
    (fuel : nat) (w w2 : World) :
  poll_round (loop_time rt) (asyncio_sleep rt) self job timeout poll_interval start_time w
    = Some w2 ->
  wait_loop_async rt self (S fuel) job timeout poll_interval start_time w =
  wait_loop_async rt self fuel job timeout poll_interval start_time w2.
Proof.
  unfold poll_round. cbn [wait_loop_async]. intros H.
  destruct (self_get_job_status self job w) as [[so|e] w1]; [|discriminate H].
  destruct (getattr_status so) as [st|e]; [|discriminate H].
  destruct (in_terminal_list st); [discriminate H|].
  destruct (timed_out timeout (loop_time rt w1 - start_time)); [discriminate H|].
  destruct (asyncio_sleep rt poll_interval w1) as [[[u|e] w3]|]; try discriminate H.
  injection H as ->. reflexivity.
Qed.

Lemma wait_loop_rounds (rt : Runtime) (self : Client) (job : string)
    (timeout : option duration) (poll_interval : duration) (start_time : Z)
    (fuel : nat) :
  forall (k : nat) (w0 w : World),
    rounds (time_time rt) (time_sleep rt) self job timeout poll_interval start_time k w0
      = Some w ->
    wait_loop rt self (k + fuel) job timeout poll_interval start_time w0 =
    wait_loop rt self fuel job timeout poll_interval start_time w.
Proof.
  induction k as [|k IH]; intros w0 w H; cbn [rounds] in H.
  - injection H as ->. reflexivity.
  - destruct (poll_round (time_time rt) (time_sleep rt) self job timeout
                poll_interval start_time w0) as [w2|] eqn:Hround; [|discriminate H].
    change (S k + fuel)%nat with (S (k + fuel)).
    rewrite (wait_loop_round _ _ _ _ _ _ _ _ _ Hround). apply IH. exact H.
Qed.

Lemma wait_loop_async_rounds (rt : Runtime) (self : Client) (job : string)
    (timeout : option duration) (poll_interval : duration) (start_time : Z)
    (fuel : nat) :
  forall (k : nat) (w0 w : World),
    rounds (loop_time rt) (asyncio_sleep rt) self job timeout poll_interval start_time k w0
      = Some w ->
    wait_loop_async rt self (k + fuel) job timeout poll_interval start_time w0 =
    wait_loop_async rt self fuel job timeout poll_interval start_time w.
Proof.
  induction k as [|k IH]; intros w0 w H; cbn [rounds] in H.
  - injection H as ->. reflexivity.
  - destruct (poll_round (loop_time rt) (asyncio_sleep rt) self job timeout
                poll_interval start_time w0) as [w2|] eqn:Hround; [|discriminate H].
    change (S k + fuel)%nat with (S (k + fuel)).
    rewrite (wait_loop_async_round _ _ _ _ _ _ _ _ _ Hround). apply IH. exact H.
Qed.

(** C3. Let a status query of a poller, issued in world [w], answer a status
    in completed, failed, cancelled.  Then the pass of the loop that issued
    it ends the loop with the outcome and the final world of
    [get_job_result] run right after that query, whatever the timeout, the
    start time and the time already spent; and so does the whole call:
    if [w] is reached from the initial world [w0] after any number [k] of
    passes that went round, [wait_for_result] started in [w0] yields exactly
    that outcome and that world, and [wait_for_result_async] that outcome as
    it leaves the coroutine and that world, so that after the query nothing
    else happened: no status query, no sleep. *)
Theorem terminal_status_halts_polling (rt : Runtime) (self : Client)
    (job : string) (timeout : option duration) (poll_interval : duration)
    (w w1 : World) (st_obj : status_object) (st : status_field) :
  self_get_job_status self job w = (Returned st_obj, w1) ->
  getattr_status st_obj = Returned st ->
  In (status_str st) ["completed"; "failed"; "cancelled"] ->
  (forall fuel start_time,
     wait_loop rt self (S fuel) job timeout poll_interval start_time w =
       Some (self_get_job_result self job w1) /\
     wait_loop_async rt self (S fuel) job timeout poll_interval start_time w =
       Some (self_get_job_result self job w1)) /\
  (forall k fuel w0,
     rounds (time_time rt) (time_sleep rt) self job timeout poll_interval
       (time_time rt w0) k w0 = Some w ->
     wait_for_result rt self (k + S fuel) job timeout poll_interval w0 =
       Some (self_get_job_result self job w1)) /\
  (forall k fuel w0,
     rounds (loop_time rt) (asyncio_sleep rt) self job timeout poll_interval
       (loop_time rt w0) k w0 = Some w ->
     wait_for_result_async rt self (k + S fuel) job timeout poll_interval w0 =
       Some (coroutine (fst (self_get_job_result self job w1)),
             snd (self_get_job_result self job w1))).
Proof.
  intros Hq Hattr Hterm.
  apply in_terminal_list_true in Hterm.
  assert (Hpass : forall fuel start_time,
     wait_loop rt self (S fuel) job timeout poll_interval start_time w =
       Some (self_get_job_result self job w1) /\
     wait_loop_async rt self (S fuel) job timeout poll_interval start_time w =
       Some (self_get_job_result self job w1)).
  { intros fuel start_time. cbn [wait_loop wait_loop_async].
    rewrite Hq, Hattr, Hterm. split; reflexivity. }
  split; [exact Hpass|]. split.
  - intros k fuel w0 Hk. unfold wait_for_result.
    rewrite (wait_loop_rounds _ _ _ _ _ _ _ _ _ _ Hk). apply Hpass.
  - intros k fuel w0 Hk. unfold wait_for_result_async.
    rewrite (wait_loop_async_rounds _ _ _ _ _ _ _ _ _ _ Hk).
    rewrite (proj2 (Hpass fuel (loop_time rt w0))).
    destruct (self_get_job_result self job w1) as [r w2]. reflexivity.
Qed.

Lemma terminal_status_halts_polling_witness :
  let self := patched_client [Returned (mock_status "pending");
                              Returned (mock_status "failed")]
                             (Returned sample_result) 3 in
  wait_for_result ideal_runtime self 5 "job" (Some (Seconds 60)) (Seconds 2) fresh_world =
  Some (Returned sample_result,
        {| real_time := 11;
           trace := [StatusQuery "job"; Slept (Seconds 2); StatusQuery "job";
                     ResultQuery "job"] |}).
Proof.
  intros self.
  pose (w := {| real_time := 5; trace := [StatusQuery "job"; Slept (Seconds 2)] |}).
  destruct (terminal_status_halts_polling ideal_runtime self "job" (Some (Seconds 60))
              (Seconds 2) w (record_event (StatusQuery "job") 3 w)
              (mock_status "failed") (Str "failed")) as (_ & Hrun & _).
  - reflexivity.
  - reflexivity.
  - cbn. auto.
  - exact (Hrun 1%nat 3%nat fresh_world eq_refl).
Defined.

(** The scenario of the test-suite: processing, processing, completed. *)
Example wait_for_result_three_queries :
  wait_for_result ideal_runtime
    (patched_client [Returned (mock_status "processing");
                     Returned (mock_status "processing");
                     Returned (mock_status "completed")]
                    (Returned sample_result) 0)
    5 "test_job_id" (Some (Seconds 10)) (Seconds 1) fresh_world =
  Some (Returned sample_result,
        {| real_time := 2;
           trace := [StatusQuery "test_job_id"; Slept (Seconds 1);
                     StatusQuery "test_job_id"; Slept (Seconds 1);
                     StatusQuery "test_job_id"; ResultQuery "test_job_id"] |}).
Proof. reflexivity. Qed.

(** *** The deadline *)













(** The scenario of the test-suite's timeout test, run: the poller raises
    after the deadline has passed, having only queried and slept. *)
Example wait_for_result_timeout_run :
  wait_for_result ideal_runtime
    (constant_client (mock_status "processing") (Returned sample_result) 0)
    10 "test_job_id" (Some (Seconds 3)) (Seconds 2) fresh_world =
  Some (Raised (Leap (LeapOCRTimeoutError
                        "Job test_job_id did not complete within 3 seconds" None)),
        {| real_time := 4;
           trace := [StatusQuery "test_job_id"; Slept (Seconds 2);
                     StatusQuery "test_job_id"; Slept (Seconds 2);
                     StatusQuery "test_job_id"] |}).
Proof. reflexivity. Qed.



(** A poll interval beyond the range of [time.sleep] ends the call in its
    first pass with an [OverflowError], before any deadline. *)
Example huge_poll_interval_overflows :
  wait_for_result ideal_runtime
    (constant_client (mock_status "processing") (Returned sample_result) 0)
    10 "test_job_id" (Some (Seconds 5)) (Seconds 10000000000) fresh_world =
  Some (Raised (Builtin "OverflowError"
                  "timestamp too large to convert to C _PyTime_t"),
        {| real_time := 0; trace := [StatusQuery "test_job_id"] |}).
Proof. reflexivity. Qed.

(** *** A timeout of zero *)








(** The cooperative poller ends as its loop does, up to the boundary of the
    coroutine. *)
Lemma wait_for_result_async_ends (rt : Runtime) (self : Client) (fuel : nat)
    (job : string) (timeout : option duration) (poll_interval : duration)
    (w w' : World) (r : outcome JobResult) :
  wait_for_result_async rt self fuel job timeout poll_interval w = Some (r, w') ->
  exists r0,
    wait_loop_async rt self fuel job timeout poll_interval (loop_time rt w) w =
      Some (r0, w') /\
    r = coroutine r0.
Proof.
  unfold wait_for_result_async. intros H.
  destruct (wait_loop_async rt self fuel job timeout poll_interval (loop_time rt w) w)
    as [[r0 w0]|]; [|discriminate H].
  injection H as <- <-. exists r0. split; reflexivity.
Qed.




(** With no deadline the poller goes on for as long as it is given fuel. *)
Example zero_timeout_keeps_polling :
  wait_for_result ideal_runtime
    (constant_client (mock_status "processing") (Returned sample_result) 7)
    4 "job" (Some (Seconds 0)) (Seconds 1) fresh_world = None /\
  wait_for_result ideal_runtime
    (constant_client (mock_status "processing") (Returned sample_result) 7)
    4 "job" (Some (Seconds 5)) (Seconds 1) fresh_world =
  Some (Raised (Leap (LeapOCRTimeoutError
                        "Job job did not complete within 5 seconds" None)),
        {| real_time := 7; trace := [StatusQuery "job"] |}).
Proof. split; reflexivity. Qed.

(** *** The two disciplines *)










(** With a mock that has run out of answers the disciplines part too: the
    [StopIteration] of the status query leaves the blocking poller as it
    is, and the coroutine as a [RuntimeError]. *)
Example exhausted_mock_disagree :
  let self := patched_client [Returned (mock_status "processing")]
                             (Returned sample_result) 0 in
  let w' := {| real_time := 1;
               trace := [StatusQuery "job"; Slept (Seconds 1); StatusQuery "job"] |} in
  wait_for_result ideal_runtime self 2 "job" None (Seconds 1) fresh_world =
    Some (Raised (Builtin "StopIteration" ""), w') /\
  wait_for_result_async ideal_runtime self 2 "job" None (Seconds 1) fresh_world =
    Some (Raised (Builtin "RuntimeError" "coroutine raised StopIteration"), w').
Proof. cbv zeta. split; reflexivity. Qed.

(** And with a poll interval beyond the range of [time.sleep], which
    [asyncio.sleep] takes. *)
Example huge_poll_interval_disagree :
  let self := patched_client [Returned (mock_status "processing");
                              Returned (mock_status "completed")]
                             (Returned sample_result) 0 in
  wait_for_result ideal_runtime self 2 "job" None (Seconds 10000000000) fresh_world =
    Some (Raised (Builtin "OverflowError"
                    "timestamp too large to convert to C _PyTime_t"),
          {| real_time := 0; trace := [StatusQuery "job"] |}) /\
  wait_for_result_async ideal_runtime self 2 "job" None (Seconds 10000000000)
    fresh_world =
    Some (Returned sample_result,
          {| real_time := 10000000000;
             trace := [StatusQuery "job"; Slept (Seconds 10000000000);
                       StatusQuery "job"; ResultQuery "job"] |}).
Proof. cbv zeta. split; reflexivity. Qed.

(** ** The batch orchestrator, cooperative variant *)

Local Open Scope list_scope.

Lemma gather_slots_length (outcomes : list item) (order : list nat) :
  forall slots, length (gather_slots outcomes order slots) = length slots.
Proof.
  induction order as [|i rest IH]; intros slots; cbn [gather_slots]; [reflexivity|].
  rewrite IH. destruct (outcomes !! i); [apply length_insert|reflexivity].
Qed.

Lemma gather_slots_lookup (outcomes : list item) (order : list nat) :
  forall (slots : list (option item)) (k : nat),
    length slots = length outcomes ->
    gather_slots outcomes order slots !! k =
    match (if in_dec Nat.eq_dec k order then outcomes !! k else None) with
    | Some r => Some (Some r)
    | None => slots !! k
    end.
Proof.
  induction order as [|i rest IH]; intros slots k Hlen; cbn [gather_slots].
  - destruct (in_dec Nat.eq_dec k []) as [[]|_]. reflexivity.
  - rewrite IH by (destruct (outcomes !! i); rewrite ?length_insert; exact Hlen).
    destruct (in_dec Nat.eq_dec k rest) as [Hin|Hout].
    + destruct (in_dec Nat.eq_dec k (i :: rest)) as [_|Hno]; [|exfalso; apply Hno; right; exact Hin].
      destruct (outcomes !! k) as [r|] eqn:Hk; [reflexivity|].
      destruct (Nat.eq_dec k i) as [->|Hne].
      * rewrite Hk. reflexivity.
      * destruct (outcomes !! i); [apply list_lookup_insert_ne; auto|reflexivity].
    + destruct (Nat.eq_dec k i) as [->|Hne].
      * destruct (in_dec Nat.eq_dec i (i :: rest)) as [_|Hno]; [|exfalso; apply Hno; left; reflexivity].
        destruct (outcomes !! i) as [r|] eqn:Hi; [|reflexivity].
        apply list_lookup_insert_eq. rewrite Hlen. eapply lookup_lt_Some; exact Hi.
      * destruct (in_dec Nat.eq_dec k (i :: rest)) as [[Heq|Hin]|_];
          [congruence|contradiction|].
        destruct (outcomes !! i); [apply list_lookup_insert_ne; auto|reflexivity].
Qed.

Lemma all_done_fmap (l : list item) : all_done (map Some l) = Some l.
Proof. induction l as [|r l IH]; cbn; [reflexivity|]. rewrite IH. reflexivity. Qed.

(** Once every task has completed, in whatever order, [gather] hands the
    results back in the order of the tasks. *)
Lemma gather_in_task_order (outcomes : list item) (order : list nat) :
  (forall k, (k < length outcomes)%nat -> In k order) ->
  gather outcomes order = Some outcomes.
Proof.
  intros Hall. unfold gather.
  replace (gather_slots outcomes order (replicate (length outcomes) None))
    with (map Some outcomes); [apply all_done_fmap|].
  apply list_eq. intros k.
  rewrite gather_slots_lookup by apply length_replicate.
  change (map Some outcomes) with (Some <$> outcomes). rewrite list_lookup_fmap.
  destruct (outcomes !! k) as [r|] eqn:Hk; cbn.
  - destruct (in_dec Nat.eq_dec k order) as [_|Hno]; [reflexivity|].
    exfalso. apply Hno, Hall. eapply lookup_lt_Some; exact Hk.
  - assert (replicate (length outcomes) (@None item) !! k = None) as ->.
    { apply lookup_ge_None. rewrite length_replicate. apply lookup_ge_None. exact Hk. }
    destruct (in_dec Nat.eq_dec k order); reflexivity.
Qed.

Lemma failed_result_returns (i : nat) (e : exn) :
  failed_result i e =
  Returned (mkJobResult ("error_" ++ str_of_nat i)%string (Enum FAILED)
              None None None None (Some (exn_str e)) None None).
Proof. reflexivity. Qed.

Lemma handle_exceptions_spec (todo : list item) :
  forall (i : nat) (before after : list item),
    length before = i ->
    handle_exceptions i todo (before ++ todo ++ after) =
    Returned (before ++ imap (fun k => settled (i + k)) todo ++ after).
Proof.
  induction todo as [|r rest IH]; intros i before after Hlen; [reflexivity|].
  assert (Hstep : forall x : item,
            before ++ x :: rest ++ after = (before ++ [x]) ++ rest ++ after).
  { intros x. rewrite <- app_assoc. reflexivity. }
  assert (Hnext : imap (fun k => settled (i + k)) (r :: rest) =
                  settled i r :: imap (fun k => settled (S i + k)) rest).
  { cbn [imap]. rewrite Nat.add_0_r. f_equal. apply imap_ext.
    intros k x _. cbn. f_equal. lia. }
  rewrite Hnext.
  destruct r as [j|jr|e]; cbn [handle_exceptions settled].
  - cbn [app]. rewrite Hstep, IH by (rewrite length_app; cbn; lia).
    rewrite <- app_assoc. reflexivity.
  - cbn [app]. rewrite Hstep, IH by (rewrite length_app; cbn; lia).
    rewrite <- app_assoc. reflexivity.
  - rewrite failed_result_returns.
    replace (<[i := ItemResult (mkJobResult ("error_" ++ str_of_nat i)%string (Enum FAILED)
                        None None None None (Some (exn_str e)) None None)]>
               (before ++ (ItemException e :: rest) ++ after))
      with ((before ++ [ItemResult (mkJobResult ("error_" ++ str_of_nat i)%string (Enum FAILED)
                        None None None None (Some (exn_str e)) None None)])
              ++ rest ++ after).
    + rewrite IH by (rewrite length_app; cbn; lia).
      rewrite <- app_assoc. reflexivity.
    + rewrite insert_app_r_alt by lia.
      rewrite Hlen, Nat.sub_diag. cbn. rewrite <- app_assoc. reflexivity.
Qed.

Lemma batch_process_async_returns (svc : Service) (sources : list source)
    (max_concurrent : Z) (wait_for_all : bool) (order : list nat) :
  1 <= max_concurrent ->
  (forall k, (k < length sources)%nat -> In k order) ->
  batch_process_async svc sources max_concurrent wait_for_all order =
  Some (Returned (imap (fun i src => settled i (process_single svc wait_for_all i src))
                    sources)).
Proof.
  intros Hcap Hall. unfold batch_process_async.
  destruct (Z.ltb_spec max_concurrent 0); [lia|].
  destruct (Z.eqb_spec max_concurrent 0); [lia|].
  rewrite gather_in_task_order by (rewrite length_imap; exact Hall).
  pose proof (handle_exceptions_spec
                (imap (process_single svc wait_for_all) sources) 0 [] [] eq_refl) as Hloop.
  cbn [app] in Hloop. rewrite app_nil_r in Hloop. rewrite Hloop, app_nil_r.
  cbn [coroutine]. do 2 f_equal. apply list_eq. intros k. rewrite !list_lookup_imap.
  destruct (sources !! k); reflexivity.
Qed.

(** C5 as the code has it. In the cooperative batch, with a cap of at least
    one and every task running to its end (in any order): an item [i] whose
    processing raises [e] does not abort the batch; the output has one entry
    per input, the entry at [i] is a [JobResult] with status failed, the job
    id "error_" followed by [i] in decimal (it contains "error", and differs
    from every job id that does not start with "error_") and, as its error
    message, [str] of the exception as it left the task, which is [e] itself
    unless [e] is a [StopIteration]; and every other item that returned
    sits, as returned, at its own position. *)
Theorem failed_item_is_isolated (svc : Service) (sources : list source)
    (max_concurrent : Z) (wait_for_all : bool) (order : list nat)
    (i : nat) (src : source) (e : exn) :
  1 <= max_concurrent ->
  (forall k, (k < length sources)%nat -> In k order) ->
  sources !! i = Some src ->
  self_process_document_async svc i src wait_for_all = Raised e ->
  exists out : list item,
    batch_process_async svc sources max_concurrent wait_for_all order =
      Some (Returned out) /\
    length out = length sources /\
    out !! i = Some (ItemResult
                       (mkJobResult ("error_" ++ str_of_nat i)%string (Enum FAILED)
                          None None None None (Some (exn_str (coroutine_exn e)))
                          None None)) /\
    ((forall msg, e <> Builtin "StopIteration" msg) -> coroutine_exn e = e) /\
    contains "error" ("error_" ++ str_of_nat i)%string = true /\
    (forall real : string,
        String.prefix "error_" real = false ->
        ("error_" ++ str_of_nat i)%string <> real) /\
    (forall k s v,
        k <> i -> sources !! k = Some s ->
        self_process_document_async svc k s wait_for_all = Returned v ->
        out !! k = Some (item_of v)).
Proof.
  intros Hcap Hall Hsrc Hfail.
  eexists. split; [apply batch_process_async_returns; assumption|].
  split; [apply length_imap|].
  split; [|split; [apply coroutine_exn_passes|split; [reflexivity|split]]].
  - rewrite list_lookup_imap, Hsrc. cbn. unfold process_single. rewrite Hfail.
    reflexivity.
  - intros real Hreal Heq. subst real. simpl in Hreal.
    destruct (str_of_nat i); discriminate Hreal.
  - intros k s v Hne Hs Hv. rewrite list_lookup_imap, Hs. cbn.
    unfold process_single. rewrite Hv. destruct v; reflexivity.
Qed.

Lemma failed_item_is_isolated_witness :
  exists out : list item,
    batch_process_async colliding_service
      ["https://example.com/a.pdf"; "https://example.com/b.pdf"]%string 1 true
      [1; 0]%nat = Some (Returned out) /\
    length out = 2%nat /\
    out !! 0%nat =
      Some (ItemResult
              (mkJobResult "error_0" (Enum FAILED) None None None None
                 (Some "LeapOCRClientError: boom"%string) None None)).
Proof.
  destruct (failed_item_is_isolated colliding_service
              ["https://example.com/a.pdf"; "https://example.com/b.pdf"]%string
              1 true [1; 0]%nat 0%nat "https://example.com/a.pdf"%string
              (Leap (LeapOCRClientError "boom" None None PyNone)))
    as (out & Hrun & Hlen & Hat & _).
  - lia.
  - intros k Hk. cbn in Hk. cbn. lia.
  - reflexivity.
  - reflexivity.
  - exists out. split; [exact Hrun|]. split; [exact Hlen|exact Hat].
Defined.

(** The made-up job id is not kept apart from the ids the server hands out,
    and the error message is the rendering [str(e)], not the exception's
    [message]: when the first of two items fails with message "boom" and the
    server calls the second item's job "error_0", the output holds a failed
    result and a real job under the same id, and the failed result's
    error message is "LeapOCRClientError: boom". *)
Lemma synthetic_job_id_collides :
  let e := LeapOCRClientError "boom" None None PyNone in
  let failed := mkJobResult "error_0" (Enum FAILED) None None None None
                  (Some "LeapOCRClientError: boom"%string) None None in
  let real := mkJob "error_0" (Enum PENDING) None in
  self_process_document_async colliding_service 0
    "https://example.com/a.pdf" false = Raised (Leap e) /\
  self_process_document_async colliding_service 1
    "https://example.com/b.pdf" false = Returned (inl real) /\
  batch_process_async colliding_service
    ["https://example.com/a.pdf"; "https://example.com/b.pdf"]%string 1 false
    [0; 1]%nat = Some (Returned [ItemResult failed; ItemJob real]) /\
  job_id failed = id real /\
  error_message failed <> Some (message e).
Proof.
  cbv zeta. repeat split. discriminate.
Qed.

(** ** The batch orchestrator, blocking variant *)

Lemma submit_batch_ok (svc : Service) (J : nat -> Job) :
  forall (batch : list source) (acc : list Job) (w : BatchWorld),
    (forall i src, batch !! i = Some src ->
       self_process_document svc (submissions w + i) src =
       Returned (J (submissions w + i)%nat)) ->
    submit_batch svc batch acc w =
    (Returned (acc ++ map J (seq (submissions w) (length batch))),
     {| submissions := submissions w + length batch;
        waits := waits w;
        batch_log := batch_log w ++
                     imap (fun i src => Submitted (submissions w + i) src) batch |}).
Proof.
  induction batch as [|src rest IH]; intros acc w H.
  - destruct w as [p q l]. cbn. rewrite Nat.add_0_r, !app_nil_r. reflexivity.
  - cbn [submit_batch]. unfold bind at 1. unfold process_document at 1.
    pose proof (H 0%nat src eq_refl) as H0. rewrite Nat.add_0_r in H0. rewrite H0.
    rewrite IH.
    + destruct w as [p q l]. cbn [submissions waits batch_log length seq map imap].
      rewrite <- !app_assoc. cbn [app]. rewrite Nat.add_0_r.
      do 2 f_equal; [lia|]. do 2 f_equal. apply imap_ext. intros i x _. cbn.
      f_equal. lia.
    + intros i s Hi. cbn [submissions].
      replace (S (submissions w) + i)%nat with (submissions w + S i)%nat by lia.
      apply H. exact Hi.
Qed.

Lemma wait_batch_ok (svc : Service) (J : nat -> Job) (R : nat -> JobResult) :
  forall (m q : nat) (acc : list JobResult) (w : BatchWorld),
    waits w = q ->
    (forall i, (i < m)%nat ->
       client_wait_for_result svc (q + i) (id (J (q + i)%nat)) =
       Returned (R (q + i)%nat)) ->
    wait_batch svc (map J (seq q m)) acc w =
    (Returned (acc ++ map R (seq q m)),
     {| submissions := submissions w;
        waits := q + m;
        batch_log := batch_log w ++
                     map (fun i => Awaited i (id (J i))) (seq q m) |}).
Proof.
  induction m as [|m IH]; intros q acc w Hq H.
  - destruct w as [p q' l]. cbn in Hq. subst q'. cbn.
    rewrite Nat.add_0_r, !app_nil_r. reflexivity.
  - cbn [seq map wait_batch]. unfold bind at 1. unfold client_wait at 1.
    rewrite Hq. pose proof (H 0%nat ltac:(lia)) as H0.
    rewrite Nat.add_0_r in H0. rewrite H0.
    rewrite (IH (S q)).
    + cbn [submissions waits batch_log]. rewrite <- !app_assoc. cbn [app].
      do 2 f_equal. lia.
    + reflexivity.
    + intros i Hi. replace (S q + i)%nat with (q + S i)%nat by lia.
      apply H. lia.
Qed.

Lemma chunk_of_indexed (sources : list source) (J : nat -> Job) (k p : nat) :
  take k (drop p (indexed sources J)) =
  imap (fun i src => ((p + i)%nat, src, J (p + i)%nat)) (take k (drop p sources)).
Proof.
  apply list_eq. intros i. unfold indexed. rewrite list_lookup_imap.
  destruct (Nat.lt_ge_cases i k) as [Hlt|Hge].
  - rewrite !lookup_take_lt, !lookup_drop, list_lookup_imap by exact Hlt.
    reflexivity.
  - rewrite !lookup_take_ge by exact Hge. reflexivity.
Qed.

Lemma submitted_of_chunk (J : nat -> Job) (l : list source) :
  forall p : nat,
    map (fun '(n, src, _) => Submitted n src)
        (imap (fun i src => ((p + i)%nat, src, J (p + i)%nat)) l) =
    imap (fun i src => Submitted (p + i) src) l.
Proof.
  intros p. apply list_eq. intros i.
  change (map ?f ?x) with (f <$> x).
  rewrite list_lookup_fmap, !list_lookup_imap.
  destruct (l !! i); reflexivity.
Qed.

Lemma awaited_of_chunk (J : nat -> Job) (l : list source) :
  forall p : nat,
    map (fun '(n, _, job) => Awaited n (id job))
        (imap (fun i src => ((p + i)%nat, src, J (p + i)%nat)) l) =
    map (fun i => Awaited i (id (J i))) (seq p (length l)).
Proof.
  intros p. apply list_eq. intros i.
  change (map ?f ?x) with (f <$> x).
  rewrite !list_lookup_fmap, list_lookup_imap.
  destruct (Nat.lt_ge_cases i (length l)) as [Hlt|Hge].
  - rewrite lookup_seq_lt by exact Hlt.
    destruct (lookup_lt_is_Some_2 l i Hlt) as [x ->]. reflexivity.
  - rewrite lookup_seq_ge by exact Hge.
    rewrite (proj2 (lookup_ge_None l i) Hge). reflexivity.
Qed.

(** The events of one pass of the outer loop are the events of the group
    it handles. *)
Lemma group_events_of_chunk (sources : list source) (J : nat -> Job)
    (wait_for_all : bool) (k c : nat) :
  let p := Nat.min (c * k) (length sources) in
  let batch := take k (drop (c * k) sources) in
  group_events wait_for_all (take k (drop (c * k) (indexed sources J))) =
  imap (fun i src => Submitted (p + i) src) batch ++
  (if wait_for_all
   then map (fun i => Awaited i (id (J i))) (seq p (length batch))
   else []).
Proof.
  intros p batch. subst p batch.
  destruct (Nat.le_gt_cases (c * k) (length sources)) as [Hle|Hgt].
  - rewrite Nat.min_l by exact Hle.
    unfold group_events. rewrite chunk_of_indexed, submitted_of_chunk.
    destruct wait_for_all; [|reflexivity].
    rewrite awaited_of_chunk. reflexivity.
  - unfold group_events. rewrite chunk_of_indexed.
    rewrite drop_ge by lia. rewrite take_nil.
    destruct wait_for_all; reflexivity.
Qed.

Lemma lookup_chunk (sources : list source) (k p i : nat) (src : source) :
  take k (drop p sources) !! i = Some src -> sources !! (p + i)%nat = Some src.
Proof.
  intros H. apply lookup_take_Some in H as [H _].
  rewrite lookup_drop in H. exact H.
Qed.

Lemma batch_loop_ok (svc : Service) (sources : list source) (k : nat)
    (wait_for_all : bool) (J : nat -> Job) (R : nat -> JobResult) :
  (1 <= k)%nat ->
  (forall i src, sources !! i = Some src ->
     self_process_document svc i src = Returned (J i)) ->
  (wait_for_all = true ->
   forall i, (i < length sources)%nat ->
     client_wait_for_result svc i (id (J i)) = Returned (R i)) ->
  forall (m c : nat) (acc : list item) (w : BatchWorld),
    submissions w = Nat.min (c * k) (length sources) ->
    (wait_for_all = true -> waits w = Nat.min (c * k) (length sources)) ->
    batch_loop svc sources k wait_for_all (map (fun q => (q * k)%nat) (seq c m)) acc w =
    (Returned (acc ++ map (entry wait_for_all J R)
                        (seq (Nat.min (c * k) (length sources))
                             (Nat.min ((c + m) * k) (length sources) -
                              Nat.min (c * k) (length sources)))),
     {| submissions := Nat.min ((c + m) * k) (length sources);
        waits := if wait_for_all
                 then Nat.min ((c + m) * k) (length sources)
                 else waits w;
        batch_log :=
          batch_log w ++
          concat (map (fun q => group_events wait_for_all
                                  (take k (drop (q * k) (indexed sources J))))
                      (seq c m)) |}).
Proof.
  intros Hk HJ HR m. induction m as [|m IH]; intros c acc w Hsub Hwaits.
  - cbn [seq map batch_loop concat]. rewrite Nat.add_0_r, Nat.sub_diag.
    cbn [seq map]. rewrite !app_nil_r. unfold ret.
    destruct w as [p q l]. cbn in *. subst p.
    destruct wait_for_all; [rewrite Hwaits by reflexivity|]; reflexivity.
  - set (n := length sources) in *.
    set (p := Nat.min (c * k) n) in *.
    set (batch := take k (drop (c * k) sources)).
    assert (Hlen : length batch = Nat.min k (n - c * k)).
    { subst batch. rewrite length_take, length_drop. reflexivity. }
    assert (Hnext : Nat.min (S c * k) n = (p + length batch)%nat).
    { rewrite Hlen. subst p. cbn [Nat.mul]. lia. }
    cbn [seq map batch_loop]. fold batch. unfold bind at 1.
    rewrite (submit_batch_ok svc J).
    2:{ intros i src Hi. rewrite Hsub.
        pose proof (lookup_chunk _ _ _ _ _ Hi) as Hs.
        pose proof (lookup_lt_Some _ _ _ Hs) as Hb. fold n in Hb.
        replace (p + i)%nat with (c * k + i)%nat by (subst p; lia).
        apply HJ. exact Hs. }
    rewrite Hsub. cbn [app].
    replace ((c + S m) * k)%nat with ((S c + m) * k)%nat by (f_equal; lia).
    pose proof (group_events_of_chunk sources J wait_for_all k c) as Hev.
    cbv zeta in Hev. fold n p batch in Hev.
    destruct wait_for_all.
    + unfold bind at 1.
      rewrite (wait_batch_ok svc J R (length batch) p).
      2:{ cbn [waits]. apply Hwaits. reflexivity. }
      2:{ intros i Hi. apply HR; [reflexivity|]. fold n. subst p. lia. }
      cbn [app submissions waits batch_log].
      rewrite IH.
      2:{ cbn [submissions]. fold n. symmetry. exact Hnext. }
      2:{ intros _. cbn [waits]. fold n. symmetry. exact Hnext. }
      cbn [submissions waits batch_log concat map]. fold n.
      rewrite Hev, Hnext, <- !app_assoc, map_map.
      f_equal.
      * f_equal. f_equal.
        assert (Hgrow : (p + length batch <= Nat.min ((S c + m) * k) n)%nat).
        { rewrite <- Hnext. cbn [Nat.mul Nat.add]. nia. }
        replace (Nat.min ((S c + m) * k) n - p)%nat
          with (length batch + (Nat.min ((S c + m) * k) n - (p + length batch)))%nat
          by lia.
        rewrite seq_app, map_app. reflexivity.
    + rewrite IH.
      2:{ cbn [submissions]. fold n. symmetry. exact Hnext. }
      2:{ intros Habs. discriminate Habs. }
      cbn [submissions waits batch_log concat map]. fold n.
      rewrite Hev, Hnext, <- !app_assoc, map_map. cbn [app].
      f_equal.
      * f_equal. f_equal.
        assert (Hgrow : (p + length batch <= Nat.min ((S c + m) * k) n)%nat).
        { rewrite <- Hnext. cbn [Nat.mul Nat.add]. nia. }
        replace (Nat.min ((S c + m) * k) n - p)%nat
          with (length batch + (Nat.min ((S c + m) * k) n - (p + length batch)))%nat
          by lia.
        rewrite seq_app, map_app. reflexivity.
Qed.

Lemma ceil_div_step (len k : nat) :
  (1 <= k)%nat -> (1 <= len)%nat ->
  ((len + k - 1) / k = S ((len - k + k - 1) / k))%nat.
Proof.
  intros Hk Hlen.
  destruct (Nat.le_gt_cases k len) as [Hge|Hlt].
  - replace (len + k - 1)%nat with ((len - k + k - 1) + 1 * k)%nat by lia.
    rewrite Nat.div_add by lia. lia.
  - replace (len - k)%nat with 0%nat by lia.
    replace (len + k - 1)%nat with ((len - 1) + 1 * k)%nat by lia.
    rewrite Nat.div_add by lia.
    rewrite !Nat.div_small by lia. reflexivity.
Qed.

(** The starts [0, k, 2k, ...] of the loop cut the list into the
    consecutive groups of the specification. *)
Lemma groups_upto_chunks {A : Type} (k : nat) :
  (1 <= k)%nat ->
  forall (fuel : nat) (l : list A),
    (length l <= fuel)%nat ->
    groups_upto fuel k l =
    map (fun c => take k (drop (c * k) l)) (seq 0 ((length l + k - 1) / k)).
Proof.
  intros Hk fuel. induction fuel as [|fuel IH]; intros l Hlen.
  - destruct l; [|cbn in Hlen; lia]. cbn [groups_upto length].
    rewrite Nat.div_small by lia. reflexivity.
  - destruct l as [|x l'] eqn:El.
    + cbn [groups_upto length]. rewrite Nat.div_small by lia. reflexivity.
    + rewrite <- El in *. assert (Hpos : (1 <= length l)%nat) by (rewrite El; cbn; lia).
      replace (groups_upto (S fuel) k l)
        with (take k l :: groups_upto fuel k (drop k l)) by (rewrite El; reflexivity).
      rewrite ceil_div_step by assumption. cbn [seq map]. f_equal.
      rewrite IH by (rewrite length_drop; lia).
      rewrite length_drop, <- seq_shift, map_map.
      apply map_ext. intros c. rewrite drop_drop. reflexivity.
Qed.

Lemma groups_upto_partition {A : Type} (k : nat) :
  (1 <= k)%nat ->
  forall (fuel : nat) (l : list A),
    (length l <= fuel)%nat ->
    concat (groups_upto fuel k l) = l /\
    Forall (fun g => (1 <= length g <= k)%nat) (groups_upto fuel k l).
Proof.
  intros Hk fuel. induction fuel as [|fuel IH]; intros l Hlen.
  - destruct l; [|cbn in Hlen; lia]. split; [reflexivity|constructor].
  - destruct l as [|x l'] eqn:El; [split; [reflexivity|constructor]|].
    rewrite <- El in *.
    replace (groups_upto (S fuel) k l)
      with (take k l :: groups_upto fuel k (drop k l)) by (rewrite El; reflexivity).
    destruct (IH (drop k l)) as [Hcat Hall]; [rewrite length_drop; rewrite El in *; cbn in *; lia|].
    split.
    + cbn [concat]. rewrite Hcat. apply take_drop.
    + constructor; [|exact Hall]. rewrite length_take, El. cbn. lia.
Qed.

Lemma ceil_div_covers (n k : nat) :
  (1 <= k)%nat -> (n <= (n + k - 1) / k * k)%nat.
Proof.
  intros Hk.
  pose proof (Nat.div_mod_eq (n + k - 1) k) as Hdm.
  pose proof (Nat.mod_upper_bound (n + k - 1) k ltac:(lia)) as Hub.
  nia.
Qed.

Lemma batch_process_ok (svc : Service) (sources : list source)
    (max_concurrent : Z) (wait_for_all : bool) (J : nat -> Job)
    (R : nat -> JobResult) :
  1 <= max_concurrent ->
  (forall i src, sources !! i = Some src ->
     self_process_document svc i src = Returned (J i)) ->
  (wait_for_all = true ->
   forall i, (i < length sources)%nat ->
     client_wait_for_result svc i (id (J i)) = Returned (R i)) ->
  batch_process svc sources max_concurrent wait_for_all fresh_batch =
  (Returned (map (entry wait_for_all J R) (seq 0 (length sources))),
   {| submissions := length sources;
      waits := if wait_for_all then length sources else 0%nat;
      batch_log := grouped_log (Z.to_nat max_concurrent) wait_for_all sources J |}).
Proof.
  intros Hcap HJ HR. unfold batch_process, py_range.
  destruct (Z.eqb_spec max_concurrent 0); [lia|].
  destruct (Z.ltb_spec max_concurrent 0); [lia|].
  set (k := Z.to_nat max_concurrent). assert (Hk : (1 <= k)%nat) by lia.
  rewrite (batch_loop_ok svc sources k wait_for_all J R Hk HJ HR); try reflexivity.
  cbn [Nat.add Nat.mul fresh_batch submissions waits batch_log app].
  rewrite Nat.min_0_l, Nat.sub_0_r.
  rewrite (Nat.min_r _ (length sources)) by (apply ceil_div_covers; exact Hk).
  f_equal. f_equal.
  unfold grouped_log, consecutive_groups.
  rewrite (groups_upto_chunks k Hk) by reflexivity.
  rewrite map_map. unfold indexed at 3. rewrite length_imap. reflexivity.
Qed.

(** C6 as the code has it. With a cap of at least one: the cooperative
    batch returns, whatever the order in which the tasks complete and
    whichever items fail, a list as long as the input whose entry [i] is
    the outcome of item [i]; the blocking batch returns such a list when
    every submission (and, with [wait_for_all], every wait) succeeds, its
    entry [i] being the job, or the result of the job, of source [i], and it
    has then worked group by group: the input cut into consecutive groups
    of at most [cap] items, each group submitted in full and then, with
    [wait_for_all], awaited in full, before the next group is touched. *)
Theorem batch_outputs_follow_inputs (svc : Service) (sources : list source)
    (max_concurrent : Z) (wait_for_all : bool) :
  1 <= max_concurrent ->
  (forall order : list nat,
     (forall k, (k < length sources)%nat -> In k order) ->
     exists out : list item,
       batch_process_async svc sources max_concurrent wait_for_all order =
         Some (Returned out) /\
       length out = length sources /\
       forall i src, sources !! i = Some src ->
         out !! i = Some (settled i (process_single svc wait_for_all i src))) /\
  (forall (J : nat -> Job) (R : nat -> JobResult),
     (forall i src, sources !! i = Some src ->
        self_process_document svc i src = Returned (J i)) ->
     (wait_for_all = true ->
      forall i, (i < length sources)%nat ->
        client_wait_for_result svc i (id (J i)) = Returned (R i)) ->
     exists (out : list item) (w' : BatchWorld),
       batch_process svc sources max_concurrent wait_for_all fresh_batch =
         (Returned out, w') /\
       length out = length sources /\
       (forall i src, sources !! i = Some src ->
          out !! i = Some (if wait_for_all then ItemResult (R i) else ItemJob (J i))) /\
       batch_log w' =
         concat (map (group_events wait_for_all)
                   (consecutive_groups (Z.to_nat max_concurrent) (indexed sources J))) /\
       concat (consecutive_groups (Z.to_nat max_concurrent) (indexed sources J)) =
         indexed sources J /\
       Forall (fun g => (1 <= length g <= Z.to_nat max_concurrent)%nat)
         (consecutive_groups (Z.to_nat max_concurrent) (indexed sources J))).
Proof.
  intros Hcap. split.
  - intros order Hall. eexists.
    split; [apply batch_process_async_returns; assumption|].
    split; [apply length_imap|].
    intros i src Hsrc. rewrite list_lookup_imap, Hsrc. reflexivity.
  - intros J R HJ HR. eexists _, _.
    split; [apply (batch_process_ok svc sources max_concurrent wait_for_all J R); assumption|].
    split; [rewrite length_map, length_seq; reflexivity|].
    split; [|split; [reflexivity|]].
    + intros i src Hsrc. change (map ?f ?x) with (f <$> x).
      rewrite list_lookup_fmap, lookup_seq_lt by (eapply lookup_lt_Some; exact Hsrc).
      reflexivity.
    + apply groups_upto_partition; [lia|reflexivity].
Qed.

Lemma batch_outputs_follow_inputs_witness :
  1 <= 2 /\
  exists (out : list item) (w' : BatchWorld),
    batch_process steady_service three_urls 2 true fresh_batch = (Returned out, w') /\
    length out = 3%nat /\
    out !! 2%nat = Some (ItemResult (steady_result 2)) /\
    batch_log w' =
      [Submitted 0 "https://example.com/a.pdf"; Submitted 1 "https://example.com/b.pdf";
       Awaited 0 "job_0"; Awaited 1 "job_1";
       Submitted 2 "https://example.com/c.pdf"; Awaited 2 "job_2"].
Proof.
  split; [lia|].
  destruct (proj2 (batch_outputs_follow_inputs steady_service three_urls 2 true
                     ltac:(lia)) steady_job steady_result)
    as (out & w' & Hrun & Hlen & Hat & Hlog & _).
  - intros i src _. reflexivity.
  - intros _ i _. reflexivity.
  - exists out, w'. split; [exact Hrun|]. split; [exact Hlen|].
    split; [exact (Hat 2%nat "https://example.com/c.pdf"%string eq_refl)|].
    rewrite Hlog. reflexivity.
Defined.

(** In the blocking batch a failing item aborts the whole call: with three
    sources, a cap of one and a second submission that fails, the error
    comes out, no list is returned and the third source is never submitted;
    the cooperative batch on the same input returns three entries. *)
Lemma blocking_batch_aborts_on_failure :
  batch_process flaky_service three_urls 1 false fresh_batch =
    (Raised (Leap (LeapOCRServerError "Server error: None" None PyNone)),
     {| submissions := 2; waits := 0;
        batch_log := [Submitted 0 "https://example.com/a.pdf";
                      Submitted 1 "https://example.com/b.pdf"] |}) /\
  (forall out : list item,
     fst (batch_process flaky_service three_urls 1 false fresh_batch) <> Returned out) /\
  batch_process_async flaky_service three_urls 1 false [0; 1; 2]%nat =
    Some (Returned
            [ItemJob (steady_job 0);
             ItemResult (mkJobResult "error_1" (Enum FAILED) None None None None
                           (Some "LeapOCRClientError: Server error: None"%string)
                           None None);
             ItemJob (steady_job 2)]).
Proof.
  split; [reflexivity|]. split; [|reflexivity].
  intros out H. discriminate H.
Qed.

(** The eighth scenario of the specification: three sources, a cap of one,
    waiting for all, the second item failing, the tasks completing out of
    order. *)
Example cooperative_batch_scenario :
  batch_process_async flaky_service three_urls 1 true [2; 0; 1]%nat =
  Some (Returned
          [ItemResult (steady_result 0);
           ItemResult (mkJobResult "error_1" (Enum FAILED) None None None None
                         (Some "LeapOCRClientError: Server error: None"%string)
                         None None);
           ItemResult (steady_result 2)]).
Proof. reflexivity. Qed.

(** ** The unpatched client and the deadline *)

Lemma spec_kind_not_timeout (code : option Z) : spec_kind code <> TimeoutError.
Proof.
  unfold spec_kind. destruct code as [c|]; [|discriminate].
  destruct ((c =? 401) || (c =? 403)); [discriminate|].
  destruct (c =? 404); [discriminate|].
  destruct (c =? 422); [discriminate|].
  destruct (c =? 429); [discriminate|].
  destruct ((500 <=? c) && (c <=? 599)); discriminate.
Qed.

Lemma guarded_no_timeout {A : Type} (context : string) (r : outcome A) :
  ~ raises_timeout (guarded context r).
Proof.
  intros (e & H & K). destruct r as [a|[l|a|cls msg]]; cbn in H.
  - discriminate H.
  - injection H as <-. cbn in K. discriminate K.
  - injection H as <-. rewrite handle_api_error_kind in K.
    exact (spec_kind_not_timeout _ K).
  - injection H as <-. cbn in K. discriminate K.
Qed.

(** The methods of an unpatched client never raise a timeout error of their
    own: the only [LeapOCRTimeoutError] a poller can raise is the
    deadline's. *)
Lemma unpatched_client_no_timeout (tr : Transport) :
  (forall j w, ~ raises_timeout (fst (self_get_job_status (LeapOCRClient tr) j w))) /\
  (forall j w, ~ raises_timeout (fst (self_get_job_result (LeapOCRClient tr) j w))).
Proof.
  split; intros j w; cbn [LeapOCRClient self_get_job_status self_get_job_result].
  - unfold get_job_status.
    destruct (get_job_status_with_http_info tr w j) as [r dt]. cbn [fst].
    apply guarded_no_timeout.
  - unfold get_job_result.
    destruct (get_job_result_with_http_info tr w j) as [r dt]. cbn [fst].
    apply guarded_no_timeout.
Qed.

(** ** The cap at its edges *)

(** A cap below one is outside what the batch properties cover: a negative
    cap is refused by the semaphore and makes the blocking loop's range
    empty; a cap of zero admits no cooperative task and is refused by
    [range]. *)
Example cap_below_one :
  batch_process_async steady_service three_urls (-1) false [0; 1; 2]%nat =
    Some (Raised (Builtin "ValueError" "Semaphore initial value must be >= 0")) /\
  batch_process_async steady_service three_urls 0 false [0; 1; 2]%nat = None /\
  batch_process steady_service three_urls 0 false fresh_batch =
    (Raised (Builtin "ValueError" "range() arg 3 must not be zero"), fresh_batch) /\
  batch_process steady_service three_urls (-1) false fresh_batch =
    (Returned [], fresh_batch).
Proof. repeat split; reflexivity. Qed.

(* ===================================================================== *)
(** * Further properties of the SDK *)
(* ===================================================================== *)

Local Open Scope string_scope.
Local Open Scope Z_scope.

(** ** Enumerations and coercion *)

Lemma ProcessFormat_of_value_iff (v : string) (m : ProcessFormat) :
  ProcessFormat_of_value v = Returned m <-> v = ProcessFormat_value m.
Proof.
  unfold ProcessFormat_of_value. split.
  - destruct (String.eqb_spec v "structured") as [->|_]; [intros [= <-]; reflexivity|].
    destruct (String.eqb_spec v "text") as [->|_]; [intros [= <-]; reflexivity|].
    destruct (String.eqb_spec v "tables") as [->|_]; [intros [= <-]; reflexivity|].
    destruct (String.eqb_spec v "forms") as [->|_]; [intros [= <-]; reflexivity|].
    discriminate.
  - intros ->. destruct m; reflexivity.
Qed.

Lemma ProcessTier_of_value_iff (v : string) (m : ProcessTier) :
  ProcessTier_of_value v = Returned m <-> v = ProcessTier_value m.
Proof.
  unfold ProcessTier_of_value. split.
  - destruct (String.eqb_spec v "core") as [->|_]; [intros [= <-]; reflexivity|].
    destruct (String.eqb_spec v "premium") as [->|_]; [intros [= <-]; reflexivity|].
    destruct (String.eqb_spec v "enterprise") as [->|_]; [intros [= <-]; reflexivity|].
    discriminate.
  - intros ->. destruct m; reflexivity.
Qed.

Lemma JobStatus_of_value_iff (v : string) (m : JobStatus) :
  JobStatus_of_value v = Returned m <-> v = JobStatus_value m.
Proof.
  split.
  - intros H. destruct (JobStatus_of_value_spec v) as [(m' & Hv & Hm')|(_ & msg & Hno)].
    + congruence.
    + congruence.
  - intros ->. destruct m; reflexivity.
Qed.

(** X1. Looking a member up by value inverts [.value] for the three
    enumerations of the SDK: [JobStatus(v)], [ProcessFormat(v)] and
    [ProcessTier(v)] return the member [m] exactly when [v] is [m.value]
    (exact, lower-case spelling), and raise [ValueError] for every other
    string. *)
Theorem enum_lookup_inverts_value :
  (forall v m, JobStatus_of_value v = Returned m <-> v = JobStatus_value m) /\
  (forall v m, ProcessFormat_of_value v = Returned m <-> v = ProcessFormat_value m) /\
  (forall v m, ProcessTier_of_value v = Returned m <-> v = ProcessTier_value m) /\
  (forall v, (forall m, v <> JobStatus_value m) <->
             exists msg, JobStatus_of_value v = Raised (Builtin "ValueError" msg)).
Proof.
  split; [exact JobStatus_of_value_iff|].
  split; [exact ProcessFormat_of_value_iff|].
  split; [exact ProcessTier_of_value_iff|].
  intros v. split.
  - intros Hno. destruct (JobStatus_of_value_spec v) as [(m & Hv & _)|(_ & H)].
    + exfalso. exact (Hno m Hv).
    + exact H.
  - intros (msg & H) m Hv. apply JobStatus_of_value_iff in Hv. congruence.
Qed.

Lemma post_init_status_idempotent (st st' : status_field) :
  post_init_status st = Returned st' ->
  post_init_status st' = Returned st' /\
  ((exists m, st' = Enum m) \/
   (st' = st /\ forall m, lower (status_str st) <> JobStatus_value m)).
Proof.
  unfold post_init_status at 1.
  destruct (JobStatus_of_value_spec (lower (status_str st)))
    as [(m & Hm & ->)|(Hno & msg & ->)].
  - intros [= <-]. split; [|left; eexists; reflexivity].
    destruct m; reflexivity.
  - cbn. intros [= <-]. split; [|right; split; [reflexivity|exact Hno]].
    unfold post_init_status.
    destruct (JobStatus_of_value_spec (lower (status_str st)))
      as [(m & Hm & _)|(_ & msg' & ->)]; [exfalso; exact (Hno m Hm)|reflexivity].
Qed.

(** X2. The status coercion of the dataclasses is idempotent and leaves a
    canonical value: building a [Job], a [JobStatusInfo] or a [JobResult]
    again from the fields of one already built gives the same object, and a
    built object's status is either a member of [JobStatus] or a string
    that names no status in any letter case. *)
Theorem constructed_status_is_canonical (st st' : status_field) :
  post_init_status st = Returned st' ->
  (forall i c, Job_new i st c = Returned (mkJob i st' c) /\
               Job_new i st' c = Returned (mkJob i st' c)) /\
  (forall j p e c u,
      JobStatusInfo_new j st p e c u = Returned (mkJobStatusInfo j st' p e c u) /\
      JobStatusInfo_new j st' p e c u = Returned (mkJobStatusInfo j st' p e c u)) /\
  (forall j d p cr pt e c f,
      JobResult_new j st d p cr pt e c f = Returned (mkJobResult j st' d p cr pt e c f) /\
      JobResult_new j st' d p cr pt e c f = Returned (mkJobResult j st' d p cr pt e c f)) /\
  ((exists m, st' = Enum m) \/
   (exists s, st' = Str s /\ forall m, lower s <> JobStatus_value m)).
Proof.
  intros H. destruct (post_init_status_idempotent st st' H) as [Hidem Hcanon].
  split; [intros; unfold Job_new; rewrite H, Hidem; split; reflexivity|].
  split; [intros; unfold JobStatusInfo_new; rewrite H, Hidem; split; reflexivity|].
  split; [intros; unfold JobResult_new; rewrite H, Hidem; split; reflexivity|].
  destruct Hcanon as [Hm|[-> Hno]]; [left; exact Hm|].
  destruct st as [m|s].
  - exfalso. apply (Hno m). apply lower_JobStatus_value.
  - right. exists s. split; [reflexivity|exact Hno].
Qed.

Lemma constructed_status_is_canonical_witness :
  post_init_status (Str "Completed") = Returned (Enum COMPLETED) /\
  Job_new "job" (Enum COMPLETED) None = Returned (mkJob "job" (Enum COMPLETED) None).
Proof.
  split; [reflexivity|].
  exact (proj2 (proj1 (constructed_status_is_canonical (Str "Completed")
                         (Enum COMPLETED) eq_refl) "job" None)).
Defined.

(** ** The error taxonomy, further *)

Lemma spec_kind_retryable (code : option Z) (err : LeapOCRError) :
  kind err = spec_kind code ->
  (is_retryable err = true <->
   exists c, code = Some c /\ (c = 429 \/ 500 <= c <= 599)).
Proof.
  intros Hk. unfold is_retryable. rewrite Hk. unfold spec_kind.
  destruct code as [c|].
  2:{ split; [discriminate|intros (c & H & _); discriminate]. }
  destruct (Z.eqb_spec c 401); [subst; cbn; split; [discriminate|intros (c & [= <-] & H); lia]|].
  destruct (Z.eqb_spec c 403); [subst; cbn; split; [discriminate|intros (c & [= <-] & H); lia]|].
  destruct (Z.eqb_spec c 404); [subst; cbn; split; [discriminate|intros (c & [= <-] & H); lia]|].
  destruct (Z.eqb_spec c 422); [subst; cbn; split; [discriminate|intros (c & [= <-] & H); lia]|].
  cbn [orb].
  destruct (Z.eqb_spec c 429); [subst; split; [intros _; exists 429; split; [reflexivity|lia]|reflexivity]|].
  destruct (Z.leb_spec 500 c), (Z.leb_spec c 599); cbn [andb];
    (split; [first [discriminate | intros _; exists c; split; [reflexivity|lia]]
            |first [intros _; reflexivity | intros (c' & [= <-] & ?); lia]]).
Qed.

(** X3. Which status codes give a retryable error: the error that
    [_handle_api_error] raises, and the one [map_exception] returns, is
    retryable exactly when the transport's status code is 429 or lies in
    500..599; so every code of [RetryConfig.retryable_status_codes] (429,
    500, 502, 503, 504) gives a retryable error, and an exception without an
    integer status never does. *)
Theorem retryable_status_code :
  (forall e : ApiException,
     is_retryable (_handle_api_error e) = true <->
     exists c, status e = Some c /\ (c = 429 \/ 500 <= c <= 599)) /\
  (forall e : exn,
     is_retryable (map_exception e) = true <->
     exists c, getattr_status_code e = Some c /\ (c = 429 \/ 500 <= c <= 599)) /\
  (forall (e : ApiException) (c : Z),
     In c retryable_status_codes -> status e = Some c ->
     is_retryable (_handle_api_error e) = true /\
     is_retryable (map_exception (Api e)) = true).
Proof.
  split; [intros e; apply spec_kind_retryable, handle_api_error_kind|].
  split; [intros e; apply spec_kind_retryable, map_exception_kind|].
  intros e c Hin Hc.
  assert (Hr : c = 429 \/ 500 <= c <= 599).
  { cbn in Hin. lia. }
  split.
  - apply (spec_kind_retryable (status e)); [apply handle_api_error_kind|eauto].
  - apply (spec_kind_retryable (getattr_status_code (Api e)));
      [apply map_exception_kind|cbn; eauto].
Qed.

Lemma handle_api_error_fields (e : ApiException) :
  status_code (_handle_api_error e) = None /\
  response_body (_handle_api_error e) = PyDict [] /\
  error_type (_handle_api_error e) = kind_tag (kind (_handle_api_error e)).
Proof.
  unfold _handle_api_error.
  destruct (status e) as [c|]; [|repeat split; reflexivity].
  repeat match goal with
         | |- context [if ?b then _ else _] => destruct b
         end; repeat split; reflexivity.
Qed.

(** X4. The errors raised by [_handle_api_error] never carry the status
    code or the response body of the transport's exception: whatever the
    exception, [status_code] is [None] and [response_body] is the empty
    dict; their [error_type] is the tag of their class. *)
Theorem handle_api_error_drops_status (e : ApiException) :
  status_code (_handle_api_error e) = None /\
  response_body (_handle_api_error e) = PyDict [] /\
  error_type (_handle_api_error e) = kind_tag (kind (_handle_api_error e)) /\
  kind (_handle_api_error e) = spec_kind (status e).
Proof.
  destruct (handle_api_error_fields e) as (H1 & H2 & H3).
  repeat split; try assumption. apply handle_api_error_kind.
Qed.

(** X5. [map_exception], for its part, keeps them: when the code is one it
    classifies (401, 403, 404, 422, 429, 500..599) the mapped error carries
    that code and the body ([{}] for a body that is empty or absent);
    otherwise (any other code, zero, none, or an exception that is not the
    transport's) it is a generic error with no code, an empty body and
    [str(error)] as message.  The [error_type] is always the tag of the
    class. *)
Theorem map_exception_keeps_status (e : exn) :
  error_type (map_exception e) = kind_tag (kind (map_exception e)) /\
  (spec_kind (getattr_status_code e) <> ClientError ->
   exists a, e = Api a /\
     status_code (map_exception e) = status a /\
     response_body (map_exception e) = body_or_empty (body a)) /\
  (spec_kind (getattr_status_code e) = ClientError ->
   map_exception e = LeapOCRClientError (exn_str e) None None PyNone).
Proof.
  unfold map_exception, spec_kind.
  destruct (getattr_status_code e) as [c|] eqn:Hcode.
  2:{ cbn. split; [reflexivity|]. split; [intros H; exfalso; apply H; reflexivity|reflexivity]. }
  assert (Ha : exists a, e = Api a /\ status a = Some c).
  { destruct e as [l|a|cls msg]; try discriminate Hcode. exists a. split; [reflexivity|exact Hcode]. }
  destruct Ha as (a & -> & Hst). cbn [int_truthy].
  destruct (Z.eqb_spec c 0) as [->|Hnz].
  { cbn. split; [reflexivity|]. split; [intros H; exfalso; apply H; reflexivity|reflexivity]. }
  cbn [negb].
  destruct (Z.eqb_spec c 401).
  { cbn. split; [reflexivity|]. split; [intros _; exists a; rewrite Hst; repeat split|discriminate]. }
  destruct (Z.eqb_spec c 403).
  { cbn. split; [reflexivity|]. split; [intros _; exists a; rewrite Hst; repeat split|discriminate]. }
  destruct (Z.eqb_spec c 404).
  { cbn. split; [reflexivity|]. split; [intros _; exists a; rewrite Hst; repeat split|discriminate]. }
  destruct (Z.eqb_spec c 422).
  { cbn. split; [reflexivity|]. split; [intros _; exists a; rewrite Hst; repeat split|discriminate]. }
  destruct (Z.eqb_spec c 429).
  { cbn. split; [reflexivity|]. split; [intros _; exists a; rewrite Hst; repeat split|discriminate]. }
  cbn [orb]. replace (c <=? 599) with (c <? 600) by lia.
  destruct ((500 <=? c) && (c <? 600)).
  - cbn. split; [reflexivity|]. split; [intros _; exists a; rewrite Hst; repeat split|discriminate].
  - cbn. split; [reflexivity|]. split; [intros H; exfalso; apply H; reflexivity|reflexivity].
Qed.

(** ** Fetching a result *)

Lemma validate_job_result_spec (r : JobResult) :
  validate_job_result r = true <->
  status_str (result_status r) = "completed" /\
  absent (error_message r) /\
  (populated (data r) \/ populated (pages r)).
Proof.
  unfold validate_job_result, status_eq. cbn [status_str JobStatus_value].
  rewrite <- str_truthy_false, <- dict_truthy_true, <- list_truthy_true.
  destruct (String.eqb_spec (status_str (result_status r)) "completed") as [E|E];
    cbn [negb].
  - destruct (str_truthy (error_message r));
      [split; [discriminate|intros (_ & H & _); discriminate]|].
    destruct (dict_truthy (data r)), (list_truthy (pages r)); cbn;
      split; intros H; try discriminate; try reflexivity;
      try (repeat split; auto; fail).
    destruct H as (_ & _ & [H|H]); discriminate.
  - split; [discriminate|]. intros (H & _). contradiction.
Qed.

Lemma coerced_status_str (s : string) (st : status_field) :
  post_init_status (Str s) = Returned st ->
  forall m, status_str st = JobStatus_value m <-> lower s = JobStatus_value m.
Proof.
  intros H m. destruct (post_init_status_spec (Str s)) as (st0 & H0 & Hknown & Hother).
  rewrite H in H0. injection H0 as <-. cbn [status_str] in Hknown, Hother.
  destruct (JobStatus_of_value_spec (lower s)) as [(m' & Hm' & _)|(Hno & _)].
  - rewrite (Hknown m' Hm'). cbn [status_str]. rewrite Hm'. reflexivity.
  - rewrite (Hother Hno). cbn [status_str]. split.
    + intros Hs. exfalso. apply (Hno m). rewrite Hs. apply lower_JobStatus_value.
    + intros Hs. exfalso. exact (Hno m Hs).
Qed.

(** X6. [get_job_result] passes the reply on faithfully and lets nothing
    escape unclassified: on a reply it returns a [JobResult] with the
    reply's job id, data, pages, credits, times and error message and with
    the reply's status coerced (member of [JobStatus] when it names one in
    any letter case, the string itself otherwise); an [ApiException] comes
    out as the error [_handle_api_error] gives for it, any other exception
    as a generic [LeapOCRClientError] whose message is "Unexpected error
    getting job result: " followed by its text; in each case exactly one
    result query is recorded. *)
Theorem get_job_result_mirrors_reply (tr : Transport) (job : string) (w : World) :
  let reply := get_job_result_with_http_info tr w job in
  snd (get_job_result tr job w) = record_event (ResultQuery job) (snd reply) w /\
  match fst reply with
  | Returned d =>
      exists st : status_field,
        fst (get_job_result tr job w) =
          Returned (mkJobResult (rd_job_id d) st (rd_data d) (rd_pages d)
                      (rd_credits_used d) (rd_processing_time d)
                      (rd_error_message d) (rd_created_at d) (rd_completed_at d)) /\
        (forall m, lower (rd_status d) = JobStatus_value m -> st = Enum m) /\
        ((forall m, lower (rd_status d) <> JobStatus_value m) -> st = Str (rd_status d))
  | Raised (Api a) =>
      fst (get_job_result tr job w) = Raised (Leap (_handle_api_error a))
  | Raised e =>
      fst (get_job_result tr job w) =
        Raised (Leap (LeapOCRClientError
                        ("Unexpected error getting job result: " ++ exn_str e)
                        None None PyNone))
  end.
Proof.
  intros reply. subst reply. unfold get_job_result.
  destruct (get_job_result_with_http_info tr w job) as [[d|e] dt]; cbn [fst snd].
  - split; [reflexivity|].
    destruct (post_init_status_spec (Str (rd_status d))) as (st & Hst & Hknown & Hother).
    exists st. unfold JobResult_new. rewrite Hst. cbn [guarded].
    split; [reflexivity|]. split; assumption.
  - split; [reflexivity|]. destruct e; reflexivity.
Qed.

(** X7. Fetching and validating compose: for a reply [d] of the transport,
    the result that [get_job_result] returns passes [validate_job_result]
    exactly when the reply's status spells completed in any letter case, its
    error message is absent (none, or empty) and its data or its pages are
    populated. *)
Theorem fetched_result_validates (tr : Transport) (job : string) (w : World)
    (d : ResultData) (dt : Z) :
  get_job_result_with_http_info tr w job = (Returned d, dt) ->
  exists r : JobResult,
    fst (get_job_result tr job w) = Returned r /\
    job_id r = rd_job_id d /\
    (validate_job_result r = true <->
     lower (rd_status d) = "completed" /\
     absent (rd_error_message d) /\
     (populated (rd_data d) \/ populated (rd_pages d))).
Proof.
  intros Hreply. unfold get_job_result. rewrite Hreply. cbn [fst].
  destruct (post_init_status_spec (Str (rd_status d))) as (st & Hst & _).
  unfold JobResult_new. rewrite Hst. cbn [guarded].
  eexists. split; [reflexivity|]. split; [reflexivity|].
  rewrite validate_job_result_spec. cbn [result_status error_message data pages].
  rewrite (coerced_status_str _ _ Hst COMPLETED). reflexivity.
Qed.

Lemma fetched_result_validates_witness :
  exists r : JobResult,
    fst (get_job_result sample_transport "job" fresh_world) = Returned r /\
    job_id r = "job" /\
    validate_job_result r = true.
Proof.
  destruct (fetched_result_validates sample_transport "job" fresh_world
              (mkResultData "job" "COMPLETED" (Some [("text", PyStr "hello")])
                 None (Some 2) None None None None) 1 eq_refl)
    as (r & Hr & Hid & Hv).
  exists r. split; [exact Hr|]. split; [exact Hid|].
  apply Hv. split; [reflexivity|]. split; [left; reflexivity|].
  left. eexists _, _. reflexivity.
Defined.

(** ** Submitting *)

Lemma guarded_returned {A : Type} (context : string) (a : A) :
  guarded context (Returned a) = Returned a.
Proof. reflexivity. Qed.

Lemma guarded_is_sdk_error {A : Type} (context : string) (e : exn) :
  exists err : LeapOCRError,
    @guarded A context (Raised e) = Raised (Leap err) /\
    kind err <> UploadError /\ kind err <> TimeoutError /\
    ((forall a, e <> Api a) ->
     err = LeapOCRClientError (context ++ exn_str e) None None PyNone).
Proof.
  destruct e as [l|a|cls msg]; cbn [guarded]; eexists; (split; [reflexivity|]).
  - split; [discriminate|]. split; [discriminate|reflexivity].
  - rewrite handle_api_error_kind. unfold spec_kind.
    split; [|split; [|intros H; exfalso; exact (H a eq_refl)]];
      destruct (status a) as [c|]; try discriminate;
      repeat match goal with
             | |- context [if ?b then _ else _] => destruct b
             end; discriminate.
  - split; [discriminate|]. split; [discriminate|reflexivity].
Qed.

(** X8. [process_url] sends exactly one request to the transport, carrying
    the URL, the format and tier as strings (a member's value, a string as
    given) and the five optional identifiers untouched.  On a reply it
    returns a [Job] with the reply's job id and creation time, whose status
    is pending when the reply has none (or an empty one) and the reply's
    coerced status otherwise; an [ApiException] is classified, any other
    exception wrapped with the text "Unexpected error processing URL: ". *)
Theorem process_url_submits_once (be : Backend) (url : string)
    (format : format_field) (tier : tier_field)
    (project schema instruction category webhook : option string)
    (sent : list submit_event) :
  let request :=
    mkUploadURLUploadRequest url (format_text format) (tier_text tier)
      project schema instruction category webhook in
  let run := process_url be url format tier project schema instruction category
               webhook sent in
  snd run = (sent ++ [UrlSubmitted request])%list /\
  match upload_from_url_with_http_info be request with
  | Returned d =>
      exists st : status_field,
        fst run = Returned (mkJob (uu_job_id d) st (uu_created_at d)) /\
        (str_truthy (uu_status d) = false -> st = Enum PENDING) /\
        (forall s, uu_status d = Some s -> s <> "" ->
                   post_init_status (Str s) = Returned st)
  | Raised (Api a) => fst run = Raised (Leap (_handle_api_error a))
  | Raised e =>
      fst run =
        Raised (Leap (LeapOCRClientError
                        ("Unexpected error processing URL: " ++ exn_str e)
                        None None PyNone))
  end.
Proof.
  intros request run. subst run. unfold process_url.
  fold request. cbn [fst snd]. split; [reflexivity|].
  destruct (upload_from_url_with_http_info be request) as [d|e].
  - destruct (post_init_status_spec (Str (str_or (uu_status d) "pending")))
      as (st & Hst & _).
    exists st. unfold Job_new. rewrite Hst. cbn [guarded].
    split; [reflexivity|]. split.
    + intros Hfalsy.
      assert (Hs : str_or (uu_status d) "pending" = "pending").
      { unfold str_or. destruct (uu_status d) as [s|]; [|reflexivity].
        cbn in Hfalsy. destruct (String.eqb s ""); [reflexivity|discriminate]. }
      rewrite Hs in Hst.
      assert (Hp : post_init_status (Str "pending") = Returned (Enum PENDING))
        by reflexivity.
      congruence.
    + intros s Hs Hne. rewrite Hs in Hst. cbn [str_or] in Hst.
      destruct (String.eqb_spec s ""); [contradiction|exact Hst].
  - destruct e; reflexivity.
Qed.

(** X9. [process_url_async], written out on its own and a coroutine,
    agrees with [process_url]: for the same backend and arguments it sends
    the same request and gives the same [Job] or the same classified error
    (what its handlers raise passes the boundary of the coroutine
    unchanged); the two differ only in the text that wraps an exception
    which is not the transport's ("... processing URL async: " against
    "... processing URL: "). *)
Theorem process_url_async_agrees (be : Backend) (url : string)
    (format : format_field) (tier : tier_field)
    (project schema instruction category webhook : option string)
    (sent : list submit_event) :
  let request :=
    mkUploadURLUploadRequest url (format_text format) (tier_text tier)
      project schema instruction category webhook in
  let sync := process_url be url format tier project schema instruction category
                webhook sent in
  let async := process_url_async be url format tier project schema instruction
                 category webhook sent in
  snd sync = snd async /\
  match upload_from_url_with_http_info be request with
  | Returned _ => fst sync = fst async
  | Raised (Api _) => fst sync = fst async
  | Raised e =>
      fst sync = Raised (Leap (LeapOCRClientError
                   ("Unexpected error processing URL: " ++ exn_str e)
                   None None PyNone)) /\
      fst async = Raised (Leap (LeapOCRClientError
                   ("Unexpected error processing URL async: " ++ exn_str e)
                   None None PyNone))
  end.
Proof.
  intros request sync async. subst sync async.
  unfold process_url, process_url_async. fold request.
  cbn [fst snd]. split; [reflexivity|].
  destruct (upload_from_url_with_http_info be request) as [d|e].
  - destruct (post_init_status_spec (Str (str_or (uu_status d) "pending")))
      as (st & Hst & _).
    unfold Job_new. rewrite Hst. reflexivity.
  - destruct e; [split; reflexivity|reflexivity|split; reflexivity].
Qed.

(** X10. When [upload_file] returns, both phases have succeeded and
    happened in this order: the presigned target was requested (with the
    format and tier as strings), the file was read (a path through the file
    system, a file-like object through its own [read]), and the content was
    put to the target's URL with the target's headers, with a status that
    [raise_for_status] accepts.  The result carries the target's job id and
    URL, its headers ([{}] when it has none) and the status "uploaded". *)
Theorem upload_file_returns (be : Backend) (file : file_arg)
    (format : format_field) (tier : tier_field)
    (project schema instruction category webhook : option string)
    (sent sent' : list submit_event) (r : FileUploadResult) :
  upload_file be file format tier project schema instruction category webhook sent
    = (Returned r, sent') ->
  let request :=
    mkUploadInitiateUploadRequest (format_text format) (tier_text tier) project
      schema instruction category webhook in
  exists (d : PresignedData) (content : string) (code : Z),
    presigned_upload_with_http_info be request = Returned d /\
    match file with
    | FilePath path => open_read be path = Returned content
    | FileObject c => content = c
    end /\
    http_put be (pd_upload_url d) content (pd_headers d) = Returned code /\
    raise_for_status be code = Returned tt /\
    r = mkFileUploadResult (pd_job_id d) (pd_upload_url d)
          (headers_or_empty (pd_headers d)) "uploaded" None None None /\
    sent' = (sent ++ [UploadInitiated request] ++
             match file with FilePath path => [FileRead path] | FileObject _ => [] end ++
             [ContentPut (pd_upload_url d) content (pd_headers d)])%list.
Proof.
  intros H request. unfold upload_file in H. fold request in H.
  destruct (presigned_upload_with_http_info be request) as [d|e] eqn:Hd.
  2:{ destruct (guarded_is_sdk_error (A := FileUploadResult)
                  "Unexpected error uploading file: " e) as (err & He & _).
      rewrite He in H. discriminate H. }
  assert (Hraise : forall (e : exn) (l : list submit_event),
            (guarded "Unexpected error uploading file: " (Raised e), l)
            <> (Returned r, sent')).
  { intros e l Habs.
    destruct (guarded_is_sdk_error (A := FileUploadResult)
                "Unexpected error uploading file: " e) as (err & He & _).
    rewrite He in Habs. discriminate Habs. }
  destruct file as [path|c].
  - destruct (open_read be path) as [content|e] eqn:Hread;
      [|exfalso; exact (Hraise _ _ H)].
    destruct (http_put be (pd_upload_url d) content (pd_headers d)) as [code|e] eqn:Hput;
      [|exfalso; exact (Hraise _ _ H)].
    destruct (raise_for_status be code) as [[]|e] eqn:Hcheck;
      [|exfalso; exact (Hraise _ _ H)].
    injection H as <- <-. exists d, content, code.
    repeat split; try assumption. rewrite <- !app_assoc. reflexivity.
  - destruct (http_put be (pd_upload_url d) c (pd_headers d)) as [code|e] eqn:Hput;
      [|exfalso; exact (Hraise _ _ H)].
    destruct (raise_for_status be code) as [[]|e] eqn:Hcheck;
      [|exfalso; exact (Hraise _ _ H)].
    injection H as <- <-. exists d, c, code.
    repeat split; try assumption. rewrite <- !app_assoc. reflexivity.
Qed.

Lemma upload_file_returns_witness :
  exists (d : PresignedData) (content : string) (code : Z),
    presigned_upload_with_http_info sample_backend
      (mkUploadInitiateUploadRequest "text" "core" None None None None None)
      = Returned d /\
    open_read sample_backend "/tmp/scan.pdf" = Returned content /\
    http_put sample_backend (pd_upload_url d) content (pd_headers d) = Returned code /\
    raise_for_status sample_backend code = Returned tt.
Proof.
  destruct (upload_file_returns sample_backend (FilePath "/tmp/scan.pdf")
              (FormatMember TEXT) (TierStr "core") None None None None None []
              _ _ eq_refl)
    as (d & content & code & Hd & Hread & Hput & Hcheck & _).
  exists d, content, code. repeat split; assumption.
Defined.

(** X11. When [upload_file] raises, what it raises is an error of the SDK
    (never a raw exception of the transport, of the file system or of the
    HTTP client), it is never a [LeapOCRUploadError], and the request for a
    presigned target has gone out before anything else: a file that cannot
    be read, or content that cannot be put, fails only after the remote job
    was created. *)
Theorem upload_file_raises (be : Backend) (file : file_arg)
    (format : format_field) (tier : tier_field)
    (project schema instruction category webhook : option string)
    (sent sent' : list submit_event) (e : exn) :
  upload_file be file format tier project schema instruction category webhook sent
    = (Raised e, sent') ->
  exists (err : LeapOCRError) (rest : list submit_event),
    e = Leap err /\ kind err <> UploadError /\
    sent' = (sent ++ UploadInitiated
               (mkUploadInitiateUploadRequest (format_text format) (tier_text tier)
                  project schema instruction category webhook) :: rest)%list.
Proof.
  intros H. unfold upload_file in H.
  set (request := mkUploadInitiateUploadRequest (format_text format) (tier_text tier)
                    project schema instruction category webhook) in *.
  assert (Hraise : forall (x : exn) (l rest : list submit_event),
            (guarded "Unexpected error uploading file: " (Raised x), l)
            = (@Raised FileUploadResult e, sent') ->
            l = (sent ++ UploadInitiated request :: rest)%list ->
            exists err rest, e = Leap err /\ kind err <> UploadError /\
              sent' = (sent ++ UploadInitiated request :: rest)%list).
  { intros x l rest Heq Hl.
    destruct (guarded_is_sdk_error (A := FileUploadResult)
                "Unexpected error uploading file: " x) as (err & He & Hk & _).
    rewrite He in Heq. injection Heq as <- <-.
    exists err, rest. repeat split; assumption. }
  destruct (presigned_upload_with_http_info be request) as [d|x].
  2:{ eapply (Hraise x _ []); [exact H|reflexivity]. }
  destruct file as [path|c].
  - destruct (open_read be path) as [content|x].
    2:{ eapply (Hraise x _ [FileRead path]); [exact H|].
        rewrite <- app_assoc. reflexivity. }
    destruct (http_put be (pd_upload_url d) content (pd_headers d)) as [code|x].
    2:{ eapply Hraise; [exact H|]. rewrite <- !app_assoc. reflexivity. }
    destruct (raise_for_status be code) as [[]|x]; [discriminate H|].
    eapply Hraise; [exact H|]. rewrite <- !app_assoc. reflexivity.
  - destruct (http_put be (pd_upload_url d) c (pd_headers d)) as [code|x].
    2:{ eapply Hraise; [exact H|]. rewrite <- !app_assoc. reflexivity. }
    destruct (raise_for_status be code) as [[]|x]; [discriminate H|].
    eapply Hraise; [exact H|]. rewrite <- !app_assoc. reflexivity.
Qed.

Lemma upload_file_raises_witness :
  exists (err : LeapOCRError) (rest : list submit_event),
    Leap (LeapOCRClientError
            "Unexpected error uploading file: No such file or directory"
            None None PyNone) = Leap err /\
    kind err <> UploadError /\
    [UploadInitiated (mkUploadInitiateUploadRequest "structured" "core" None None
                        None None None);
     FileRead "/missing.pdf"] =
    ([] ++ UploadInitiated
             (mkUploadInitiateUploadRequest "structured" "core" None None None
                None None) :: rest)%list.
Proof.
  exact (upload_file_raises sample_backend (FilePath "/missing.pdf")
           (FormatMember STRUCTURED) (TierMember CORE) None None None None None []
           _ _ eq_refl).
Defined.

(** X12. A target that answers the upload with a status that
    [raise_for_status] rejects, be it a server error, makes [upload_file]
    raise a generic [LeapOCRClientError] with the rejection's text, for a
    file given by its path as for a file-like object: the status is not
    classified, and the error is not retryable.  By then the presigned
    target was requested, the file read and its content put. *)
Theorem rejected_upload_is_generic (be : Backend) (file : file_arg)
    (content : string) (format : format_field) (tier : tier_field)
    (project schema instruction category webhook : option string)
    (sent : list submit_event) (d : PresignedData) (code : Z) (cls msg : string) :
  let request :=
    mkUploadInitiateUploadRequest (format_text format) (tier_text tier) project
      schema instruction category webhook in
  presigned_upload_with_http_info be request = Returned d ->
  match file with
  | FilePath path => open_read be path = Returned content
  | FileObject c => c = content
  end ->
  http_put be (pd_upload_url d) content (pd_headers d) = Returned code ->
  raise_for_status be code = Raised (Builtin cls msg) ->
  exists err : LeapOCRError,
    upload_file be file format tier project schema instruction category webhook sent =
      (Raised (Leap err),
       (sent ++ [UploadInitiated request] ++
        match file with FilePath path => [FileRead path] | FileObject _ => [] end ++
        [ContentPut (pd_upload_url d) content (pd_headers d)])%list) /\
    kind err = ClientError /\
    message err = "Unexpected error uploading file: " ++ msg /\
    status_code err = None /\
    is_retryable err = false.
Proof.
  intros request Hd Hread Hput Hcheck. unfold upload_file. fold request.
  rewrite Hd. destruct file as [path|c].
  - rewrite Hread, Hput, Hcheck. cbn [guarded]. rewrite <- !app_assoc.
    eexists. split; [reflexivity|]. repeat split.
  - subst c. rewrite Hput, Hcheck. cbn [guarded]. rewrite <- !app_assoc.
    eexists. split; [reflexivity|]. repeat split.
Qed.

Lemma rejected_upload_is_generic_witness :
  let be := mkBackend (upload_from_url_with_http_info sample_backend)
              (presigned_upload_with_http_info sample_backend)
              (open_read sample_backend)
              (fun _ _ _ => Returned 503)
              (raise_for_status sample_backend) in
  exists err : LeapOCRError,
    upload_file be (FilePath "/tmp/scan.pdf") (FormatMember TEXT) (TierMember CORE)
      None None None None None [] =
      (Raised (Leap err),
       [UploadInitiated (mkUploadInitiateUploadRequest "text" "core" None None None
                           None None);
        FileRead "/tmp/scan.pdf";
        ContentPut "https://bucket.example.com/put" "%PDF"
          (Some [("Content-Type", "application/pdf")])]) /\
    kind err = ClientError /\
    message err = "Unexpected error uploading file: " ++ "Server error" /\
    status_code err = None /\
    is_retryable err = false.
Proof.
  intros be.
  exact (rejected_upload_is_generic be (FilePath "/tmp/scan.pdf") "%PDF"
           (FormatMember TEXT) (TierMember CORE)
           None None None None None [] _ 503 "HTTPStatusError" "Server error"
           eq_refl eq_refl eq_refl eq_refl).
Defined.

(** ** Constructing the client *)

Lemma rstrip_slash_decompose (s : string) :
  exists n : nat, s = rstrip_slash s ++ slashes n.
Proof.
  induction s as [|c r (n & IH)]; [exists 0%nat; reflexivity|].
  cbn [rstrip_slash]. destruct (rstrip_slash r) as [|a b] eqn:Hr.
  - cbn in IH. destruct (Ascii.eqb_spec c "/") as [->|Hc].
    + exists (S n). cbn. rewrite IH at 1. reflexivity.
    + exists n. cbn. rewrite IH at 1. reflexivity.
  - exists n. cbn. rewrite IH at 1. reflexivity.
Qed.

Lemma rstrip_slash_last (s : string) : last_char (rstrip_slash s) <> Some "/"%char.
Proof.
  induction s as [|c r IH]; [discriminate|].
  cbn [rstrip_slash]. destruct (rstrip_slash r) as [|a b] eqn:Hr.
  - destruct (Ascii.eqb_spec c "/") as [->|Hc]; cbn; congruence.
  - exact IH.
Qed.

Lemma rstrip_slash_fixed (s : string) :
  last_char s <> Some "/"%char -> rstrip_slash s = s.
Proof.
  induction s as [|c r IH]; [reflexivity|].
  intros Hlast. cbn [rstrip_slash]. destruct r as [|a b].
  - cbn in *. destruct (Ascii.eqb_spec c "/") as [->|Hc]; congruence.
  - rewrite IH by exact Hlast. reflexivity.
Qed.

(** X13. [LeapOCRClient.__init__] and the key check of the package: an
    empty API key raises "API key is required" and any other key is
    accepted (the format test of [validate_api_key] is not applied, but
    every key it accepts is accepted here); the stored base URL is the
    given one without its trailing slashes (all of them and nothing else),
    so stripping is idempotent; a missing or empty user agent becomes
    "leapocr-python/0.1.0"; and the Authorization header is "Bearer "
    followed by the key. *)
Theorem client_construction :
  (forall base_url timeout retries agent,
     LeapOCRClient_init "" base_url timeout retries agent =
     Raised (Leap (LeapOCRClientError "API key is required" None None PyNone))) /\
  (forall key base_url timeout retries agent,
     key <> "" ->
     exists cs : ClientSettings,
       LeapOCRClient_init key base_url timeout retries agent = Returned cs /\
       cs_api_key cs = key /\
       cs_host cs = cs_base_url cs /\
       last_char (cs_base_url cs) <> Some "/"%char /\
       (exists n, base_url = cs_base_url cs ++ slashes n) /\
       LeapOCRClient_init key (cs_base_url cs) timeout retries agent = Returned cs /\
       (str_truthy agent = false -> cs_user_agent cs = "leapocr-python/0.1.0") /\
       (forall a, agent = Some a -> a <> "" -> cs_user_agent cs = a) /\
       cs_headers cs = [("User-Agent", cs_user_agent cs);
                        ("Authorization", "Bearer " ++ key)]) /\
  (forall key,
     validate_api_key key = true ->
     key <> "" /\ (40 <= String.length key)%nat /\
     (String.prefix "pk_live_" key = true \/ String.prefix "pk_test_" key = true)).
Proof.
  split; [reflexivity|]. split.
  - intros key base_url timeout retries agent Hkey.
    unfold LeapOCRClient_init.
    destruct (String.eqb_spec key "") as [E|_]; [contradiction|].
    eexists. split; [reflexivity|]. cbn [cs_api_key cs_host cs_base_url cs_user_agent cs_headers].
    split; [reflexivity|]. split; [reflexivity|].
    split; [apply rstrip_slash_last|].
    split; [apply rstrip_slash_decompose|].
    split; [rewrite (rstrip_slash_fixed _ (rstrip_slash_last base_url)); reflexivity|].
    split; [|split; [|reflexivity]].
    + intros Hfalsy. unfold str_or. destruct agent as [a|]; [|reflexivity].
      cbn in Hfalsy. destruct (String.eqb a ""); [reflexivity|discriminate].
    + intros a -> Ha. cbn. destruct (String.eqb_spec a ""); [contradiction|reflexivity].
  - intros key H. unfold validate_api_key in H.
    destruct (String.eqb_spec key "") as [E|Hne]; [discriminate H|].
    apply andb_true_iff in H as [Hp Hl]. apply orb_true_iff in Hp.
    split; [exact Hne|]. split; [|exact Hp].
    apply Nat.leb_le. exact Hl.
Qed.

Example client_construction_run :
  LeapOCRClient_init "pk_test_0123456789" "https://api.leapocr.com//" 30 3 None =
  Returned (mkClientSettings "pk_test_0123456789" "https://api.leapocr.com" 30 3
              "leapocr-python/0.1.0" "https://api.leapocr.com"
              [("User-Agent", "leapocr-python/0.1.0");
               ("Authorization", "Bearer pk_test_0123456789")]) /\
  validate_api_key "pk_test_0123456789" = false.
Proof. split; reflexivity. Qed.

(** ** The status poller, further *)

(** X14. An error of a status query ends the polling at once: if the query
    issued in world [w] raises [e], the whole call started in any world
    [w0] from which [w] is reached after [k] passes that went round ends in
    the world the query left, with no retry, no sleep and no result query.
    The blocking poller raises [e] itself.  The cooperative poller raises
    [e] as it leaves the coroutine: [e] itself, unless [e] is a
    [StopIteration], which comes out as a [RuntimeError]. *)
Theorem status_error_ends_polling (rt : Runtime) (self : Client) (job : string)
    (timeout : option duration) (poll_interval : duration) (w w1 : World) (e : exn) :
  self_get_job_status self job w = (Raised e, w1) ->
  (forall k fuel w0,
     rounds (time_time rt) (time_sleep rt) self job timeout poll_interval
       (time_time rt w0) k w0 = Some w ->
     wait_for_result rt self (k + S fuel) job timeout poll_interval w0 =
       Some (Raised e, w1)) /\
  (forall k fuel w0,
     rounds (loop_time rt) (asyncio_sleep rt) self job timeout poll_interval
       (loop_time rt w0) k w0 = Some w ->
     wait_for_result_async rt self (k + S fuel) job timeout poll_interval w0 =
       Some (Raised (coroutine_exn e), w1)) /\
  ((forall msg, e <> Builtin "StopIteration" msg) -> coroutine_exn e = e) /\
  (forall msg, e = Builtin "StopIteration" msg ->
     coroutine_exn e = Builtin "RuntimeError" "coroutine raised StopIteration").
Proof.
  intros Hq. split; [|split; [|split]].
  - intros k fuel w0 Hk.
    unfold wait_for_result. rewrite (wait_loop_rounds _ _ _ _ _ _ _ _ _ _ Hk).
    cbn [wait_loop]. rewrite Hq. reflexivity.
  - intros k fuel w0 Hk.
    unfold wait_for_result_async.
    rewrite (wait_loop_async_rounds _ _ _ _ _ _ _ _ _ _ Hk).
    cbn [wait_loop_async]. rewrite Hq. reflexivity.
  - apply coroutine_exn_passes.
  - intros msg ->. reflexivity.
Qed.

Lemma status_error_ends_polling_witness :
  let self := patched_client [Returned (mock_status "processing")]
                             (Returned sample_result) 1 in
  wait_for_result_async ideal_runtime self 9 "job" None (Seconds 2) fresh_world =
  Some (Raised (Builtin "RuntimeError" "coroutine raised StopIteration"),
        {| real_time := 4;
           trace := [StatusQuery "job"; Slept (Seconds 2); StatusQuery "job"] |}).
Proof.
  intros self.
  pose (w := {| real_time := 3; trace := [StatusQuery "job"; Slept (Seconds 2)] |}).
  destruct (status_error_ends_polling ideal_runtime self "job" None (Seconds 2) w
              (record_event (StatusQuery "job") 1 w)
              (Builtin "StopIteration" "")
              eq_refl) as (_ & Hrun & _).
  exact (Hrun 1%nat 7%nat fresh_world eq_refl).
Defined.

(** The scenario with an error of the SDK, which both pollers pass on. *)
Example rate_limit_ends_polling :
  let self := patched_client
                [Returned (mock_status "processing");
                 Raised (Leap (LeapOCRRateLimitError "Rate limit exceeded" None PyNone))]
                (Returned sample_result) 1 in
  let end_ := Some (Raised (Leap (LeapOCRRateLimitError "Rate limit exceeded"
                                    None PyNone)),
                    {| real_time := 4;
                       trace := [StatusQuery "job"; Slept (Seconds 2);
                                 StatusQuery "job"] |}) in
  wait_for_result ideal_runtime self 9 "job" None (Seconds 2) fresh_world = end_ /\
  wait_for_result_async ideal_runtime self 9 "job" None (Seconds 2) fresh_world = end_.
Proof. cbv zeta. split; reflexivity. Qed.

(** A sleep that returns has added its own event to the trace, and a sleep
    that raises has left the world as it was. *)
Lemma time_sleep_world (rt : Runtime) (d : duration) (w w' : World)
    (r : outcome unit) :
  time_sleep rt d w = Some (r, w') ->
  match r with
  | Returned _ => trace w' = (trace w ++ [Slept d])%list
  | Raised _ => w' = w
  end.
Proof.
  unfold time_sleep. intros H. destruct d as [n| | |].
  - destruct ((n <? - sleep_max) || (sleep_max <? n)).
    + injection H as <- <-. reflexivity.
    + destruct (n <? 0); injection H as <- <-; reflexivity.
  - injection H as <- <-. reflexivity.
  - injection H as <- <-. reflexivity.
  - injection H as <- <-. reflexivity.
Qed.

Lemma asyncio_sleep_world (rt : Runtime) (d : duration) (w w' : World)
    (r : outcome unit) :
  asyncio_sleep rt d w = Some (r, w') ->
  match r with
  | Returned _ => trace w' = (trace w ++ [Slept d])%list
  | Raised _ => w' = w
  end.
Proof.
  unfold asyncio_sleep. intros H. destruct d as [n| | |].
  - destruct (n <=? 0).
    + injection H as <- <-. reflexivity.
    + destruct (float_overflow <=? n); injection H as <- <-; reflexivity.
  - discriminate H.
  - injection H as <- <-. reflexivity.
  - destruct (nan_sleep rt w); [|discriminate H].
    injection H as <- <-. reflexivity.
Qed.

Lemma wait_loop_trace (rt : Runtime) (self : Client) (job : string)
    (timeout : option duration) (poll_interval : duration) (start_time : Z) :
  logs_queries self ->
  forall (fuel : nat) (w w' : World) (r : outcome JobResult),
    wait_loop rt self fuel job timeout poll_interval start_time w = Some (r, w') ->
    exists k : nat,
      trace w' = (trace w ++ poll_trace job poll_interval k ++ [StatusQuery job])%list \/
      trace w' = (trace w ++ poll_trace job poll_interval k ++
                  [StatusQuery job; ResultQuery job])%list.
Proof.
  intros [Hs Hr] fuel. induction fuel as [|fuel IH]; intros w w' r H; [discriminate H|].
  cbn [wait_loop] in H. specialize (Hs job w).
  destruct (self_get_job_status self job w) as [[so|e] w1]; cbn [snd] in Hs.
  2:{ injection H as <- <-. exists 0%nat. left. exact Hs. }
  destruct (getattr_status so) as [st|e].
  2:{ injection H as <- <-. exists 0%nat. left. exact Hs. }
  destruct (in_terminal_list st).
  { specialize (Hr job w1). destruct (self_get_job_result self job w1) as [r1 w2].
    injection H as <- <-. exists 0%nat. right. cbn [snd] in Hr.
    rewrite Hr, Hs, <- app_assoc. reflexivity. }
  destruct (timed_out timeout (time_time rt w1 - start_time)).
  { injection H as <- <-. exists 0%nat. left. exact Hs. }
  destruct (time_sleep rt poll_interval w1) as [[[u|e] w2]|] eqn:Hsleep;
    [| |discriminate H]; apply time_sleep_world in Hsleep.
  2:{ injection H as <- <-. subst w2. exists 0%nat. left. exact Hs. }
  destruct (IH _ _ _ H) as (k & Hk). exists (S k).
  rewrite Hsleep, Hs in Hk. cbn [poll_trace].
  destruct Hk as [Hk|Hk]; [left|right]; rewrite Hk, <- !app_assoc; reflexivity.
Qed.

Lemma wait_loop_async_trace (rt : Runtime) (self : Client) (job : string)
    (timeout : option duration) (poll_interval : duration) (start_time : Z) :
  logs_queries self ->
  forall (fuel : nat) (w w' : World) (r : outcome JobResult),
    wait_loop_async rt self fuel job timeout poll_interval start_time w = Some (r, w') ->
    exists k : nat,
      trace w' = (trace w ++ poll_trace job poll_interval k ++ [StatusQuery job])%list \/
      trace w' = (trace w ++ poll_trace job poll_interval k ++
                  [StatusQuery job; ResultQuery job])%list.
Proof.
  intros [Hs Hr] fuel. induction fuel as [|fuel IH]; intros w w' r H; [discriminate H|].
  cbn [wait_loop_async] in H. specialize (Hs job w).
  destruct (self_get_job_status self job w) as [[so|e] w1]; cbn [snd] in Hs.
  2:{ injection H as <- <-. exists 0%nat. left. exact Hs. }
  destruct (getattr_status so) as [st|e].
  2:{ injection H as <- <-. exists 0%nat. left. exact Hs. }
  destruct (in_terminal_list st).
  { specialize (Hr job w1). destruct (self_get_job_result self job w1) as [r1 w2].
    injection H as <- <-. exists 0%nat. right. cbn [snd] in Hr.
    rewrite Hr, Hs, <- app_assoc. reflexivity. }
  destruct (timed_out timeout (loop_time rt w1 - start_time)).
  { injection H as <- <-. exists 0%nat. left. exact Hs. }
  destruct (asyncio_sleep rt poll_interval w1) as [[[u|e] w2]|] eqn:Hsleep;
    [| |discriminate H]; apply asyncio_sleep_world in Hsleep.
  2:{ injection H as <- <-. subst w2. exists 0%nat. left. exact Hs. }
  destruct (IH _ _ _ H) as (k & Hk). exists (S k).
  rewrite Hsleep, Hs in Hk. cbn [poll_trace].
  destruct Hk as [Hk|Hk]; [left|right]; rewrite Hk, <- !app_assoc; reflexivity.
Qed.

(** X15. What a poller does to the outside, whenever it ends (by a result,
    an error or the deadline) with a client that logs its queries: some
    number of passes, each one status query on the given job followed by a
    sleep of exactly the poll interval (the cadence never changes), then one
    last status query, and after it either nothing or the single result
    query of the call.  No other job is queried, no result is fetched
    before the last status query, and nothing follows the result query. *)
Theorem poller_trace_shape (rt : Runtime) (self : Client) (fuel : nat)
    (job : string) (timeout : option duration) (poll_interval : duration)
    (w w' : World) (r : outcome JobResult) :
  logs_queries self ->
  wait_for_result rt self fuel job timeout poll_interval w = Some (r, w') \/
  wait_for_result_async rt self fuel job timeout poll_interval w = Some (r, w') ->
  exists k : nat,
    trace w' = (trace w ++ poll_trace job poll_interval k ++ [StatusQuery job])%list \/
    trace w' = (trace w ++ poll_trace job poll_interval k ++
                [StatusQuery job; ResultQuery job])%list.
Proof.
  intros Hlog [H|H].
  - exact (wait_loop_trace rt self job timeout poll_interval _ Hlog _ _ _ _ H).
  - apply wait_for_result_async_ends in H. destruct H as (r0 & H & _).
    exact (wait_loop_async_trace rt self job timeout poll_interval _ Hlog _ _ _ _ H).
Qed.

Lemma unpatched_client_logs_queries (tr : Transport) : logs_queries (LeapOCRClient tr).
Proof.
  split; intros job w; cbn [LeapOCRClient self_get_job_status self_get_job_result].
  - unfold get_job_status. destruct (get_job_status_with_http_info tr w job).
    reflexivity.
  - unfold get_job_result. destruct (get_job_result_with_http_info tr w job).
    reflexivity.
Qed.

Lemma patched_client_logs_queries (statuses : list (outcome status_object))
    (result : outcome JobResult) (latency : Z) :
  logs_queries (patched_client statuses result latency).
Proof. split; intros job w; reflexivity. Qed.

Lemma poller_trace_shape_witness :
  exists k : nat,
    [StatusQuery "test_job_id"; Slept (Seconds 1); StatusQuery "test_job_id";
     Slept (Seconds 1); StatusQuery "test_job_id"; ResultQuery "test_job_id"] =
      ([] ++ poll_trace "test_job_id" (Seconds 1) k ++ [StatusQuery "test_job_id"])%list \/
    [StatusQuery "test_job_id"; Slept (Seconds 1); StatusQuery "test_job_id";
     Slept (Seconds 1); StatusQuery "test_job_id"; ResultQuery "test_job_id"] =
      ([] ++ poll_trace "test_job_id" (Seconds 1) k ++
       [StatusQuery "test_job_id"; ResultQuery "test_job_id"])%list.
Proof.
  exact (poller_trace_shape ideal_runtime
           (patched_client [Returned (mock_status "processing");
                            Returned (mock_status "processing");
                            Returned (mock_status "completed")]
                           (Returned sample_result) 0)
           5 "test_job_id" (Some (Seconds 10)) (Seconds 1) fresh_world
           {| real_time := 2;
              trace := [StatusQuery "test_job_id"; Slept (Seconds 1);
                        StatusQuery "test_job_id"; Slept (Seconds 1);
                        StatusQuery "test_job_id"; ResultQuery "test_job_id"] |}
           (Returned sample_result)
           (patched_client_logs_queries _ _ _) (or_introl eq_refl)).
Defined.



(** ** Single documents *)

Lemma process_url_outcome (be : Backend) (url : string) (f : format_field)
    (t : tier_field) (p s i c h : option string) (sent : list submit_event) :
  (exists job, fst (process_url be url f t p s i c h sent) = Returned job) \/
  (exists err, fst (process_url be url f t p s i c h sent) = Raised (Leap err)).
Proof.
  unfold process_url. cbn [fst].
  destruct (upload_from_url_with_http_info be _) as [d|e].
  - destruct (post_init_status_spec (Str (str_or (uu_status d) "pending")))
      as (st & Hst & _).
    unfold Job_new. rewrite Hst. left. eexists. reflexivity.
  - right. destruct (guarded_is_sdk_error (A := Job)
                       "Unexpected error processing URL: " e) as (err & He & _).
    exists err. exact He.
Qed.

Lemma upload_file_outcome (be : Backend) (file : file_arg) (f : format_field)
    (t : tier_field) (p s i c h : option string) (sent : list submit_event) :
  exists rest : list submit_event,
    snd (upload_file be file f t p s i c h sent) =
    (sent ++ UploadInitiated
       (mkUploadInitiateUploadRequest (format_text f) (tier_text t) p s i c h)
       :: rest)%list /\
    Forall (fun ev => is_url_submission ev = false) rest /\
    (match file with
     | FileObject _ => Forall (fun ev => is_file_read ev = false) rest
     | FilePath _ => True
     end) /\
    ((exists r, fst (upload_file be file f t p s i c h sent) = Returned r) \/
     (exists err, fst (upload_file be file f t p s i c h sent) = Raised (Leap err))).
Proof.
  unfold upload_file.
  set (request := mkUploadInitiateUploadRequest (format_text f) (tier_text t) p s i c h).
  assert (Hg : forall x, exists err,
             @guarded FileUploadResult "Unexpected error uploading file: " (Raised x)
             = Raised (Leap err)).
  { intros x. destruct (guarded_is_sdk_error (A := FileUploadResult)
                          "Unexpected error uploading file: " x) as (err & He & _).
    exists err. exact He. }
  destruct (presigned_upload_with_http_info be request) as [d|x].
  2:{ exists []. cbn [fst snd].
      split; [reflexivity|]. split; [constructor|].
      split; [destruct file; [exact I|constructor]|]. right. apply Hg. }
  destruct file as [path|content].
  - destruct (open_read be path) as [content|x].
    2:{ exists [FileRead path]. cbn [fst snd]. rewrite <- app_assoc.
        split; [reflexivity|]. split; [repeat constructor|].
        split; [exact I|]. right. apply Hg. }
    destruct (http_put be (pd_upload_url d) content (pd_headers d)) as [code|x].
    2:{ eexists [_; _]. cbn [fst snd]. rewrite <- !app_assoc.
        split; [reflexivity|]. split; [repeat constructor|].
        split; [exact I|]. right. apply Hg. }
    destruct (raise_for_status be code) as [[]|x].
    + eexists [_; _]. cbn [fst snd]. rewrite <- !app_assoc.
      split; [reflexivity|]. split; [repeat constructor|].
      split; [exact I|]. left. eexists. reflexivity.
    + eexists [_; _]. cbn [fst snd]. rewrite <- !app_assoc.
      split; [reflexivity|]. split; [repeat constructor|].
      split; [exact I|]. right. apply Hg.
  - destruct (http_put be (pd_upload_url d) content (pd_headers d)) as [code|x].
    2:{ eexists [_]. cbn [fst snd]. rewrite <- !app_assoc.
        split; [reflexivity|]. split; [repeat constructor|].
        split; [repeat constructor|]. right. apply Hg. }
    destruct (raise_for_status be code) as [[]|x].
    + eexists [_]. cbn [fst snd]. rewrite <- !app_assoc.
      split; [reflexivity|]. split; [repeat constructor|].
      split; [repeat constructor|]. left. eexists. reflexivity.
    + eexists [_]. cbn [fst snd]. rewrite <- !app_assoc.
      split; [reflexivity|]. split; [repeat constructor|].
      split; [repeat constructor|]. right. apply Hg.
Qed.

(** X17. How [process_document] routes a source when it does not wait: a
    string that starts with "http://" or "https://" (in this exact, lower
    case spelling) is submitted by URL, in one request carrying that string
    and the options' format and tier; any other string is uploaded as a file
    path, and a file-like object as content that the file system is never
    asked for, the request for a presigned target coming first and no URL
    submission being made.  In no case is the job polled. *)
Theorem document_routing (be : Backend) (tr : Transport) (rt : Runtime)
    (fuel : nat) (options : ProcessOptions) (timeout : option duration)
    (w : list submit_event * World) :
  let client := sdk_client be tr rt fuel in
  (forall s, is_url s = true ->
     exists r,
       process_document_sync client (Named s) (Some options) false timeout w =
       Some (r, ((fst w ++ [UrlSubmitted
                   (mkUploadURLUploadRequest s (format_text (po_format options))
                      (tier_text (po_tier options)) (po_project_id options)
                      (po_schema_id options) (po_instruction_id options)
                      (po_category_id options) (po_webhook_url options))])%list,
                 snd w))) /\
  (forall s, is_url s = false ->
     exists r rest,
       process_document_sync client (Named s) (Some options) false timeout w =
       Some (r, ((fst w ++ UploadInitiated
                   (mkUploadInitiateUploadRequest (format_text (po_format options))
                      (tier_text (po_tier options)) (po_project_id options)
                      (po_schema_id options) (po_instruction_id options)
                      (po_category_id options) (po_webhook_url options))
                   :: rest)%list, snd w)) /\
       Forall (fun ev => is_url_submission ev = false) rest) /\
  (forall content,
     exists r rest,
       process_document_sync client (Stream content) (Some options) false timeout w =
       Some (r, ((fst w ++ UploadInitiated
                   (mkUploadInitiateUploadRequest (format_text (po_format options))
                      (tier_text (po_tier options)) (po_project_id options)
                      (po_schema_id options) (po_instruction_id options)
                      (po_category_id options) (po_webhook_url options))
                   :: rest)%list, snd w)) /\
       Forall (fun ev => is_url_submission ev = false) rest /\
       Forall (fun ev => is_file_read ev = false) rest) /\
  is_url "HTTPS://EXAMPLE.COM/A.PDF" = false /\
  is_url "ftp://example.com/a.pdf" = false.
Proof.
  intros client. split; [|split; [|split; [|split; reflexivity]]].
  - intros s Hs. unfold process_document_sync. rewrite Hs.
    unfold _process_url. cbn [client sdk_client cm_process_url].
    unfold process_url. cbn [fst snd].
    destruct (guarded _ _); eexists; reflexivity.
  - intros s Hs. unfold process_document_sync. rewrite Hs.
    unfold _process_file. cbn [client sdk_client cm_upload_file].
    destruct (upload_file_outcome be (FilePath s) (po_format options)
                (po_tier options) (po_project_id options) (po_schema_id options)
                (po_instruction_id options) (po_category_id options)
                (po_webhook_url options) (fst w)) as (rest & Hlog & Hnourl & _ & _).
    destruct (upload_file be (FilePath s) _ _ _ _ _ _ _ (fst w)) as [[u|e] sent'];
      cbn [snd] in Hlog; subst sent'.
    + destruct (Job_new (fu_job_id u) (Enum PENDING) None);
        eexists _, rest; (split; [reflexivity|exact Hnourl]).
    + eexists _, rest. split; [reflexivity|exact Hnourl].
  - intros content. unfold process_document_sync.
    unfold _process_file. cbn [client sdk_client cm_upload_file].
    destruct (upload_file_outcome be (FileObject content) (po_format options)
                (po_tier options) (po_project_id options) (po_schema_id options)
                (po_instruction_id options) (po_category_id options)
                (po_webhook_url options) (fst w)) as (rest & Hlog & Hnourl & Hnoread & _).
    destruct (upload_file be (FileObject content) _ _ _ _ _ _ _ (fst w))
      as [[u|e] sent']; cbn [snd] in Hlog; subst sent'.
    + destruct (Job_new (fu_job_id u) (Enum PENDING) None);
        eexists _, rest; (split; [reflexivity|split; assumption]).
    + eexists _, rest. split; [reflexivity|split; assumption].
Qed.

(** X18. An explicit timeout of zero (or none) is not passed on: both
    [_process_url] and [_process_file] wait with [timeout or
    options.timeout], so [process_document] with a timeout of zero behaves
    exactly as with no timeout and falls back on the timeout of the options,
    while any other timeout (nan and the infinities among them) overrides
    the options. *)
Theorem zero_timeout_falls_back {W : Type} (client : ClientMethods W)
    (source : document) (options : ProcessOptions) (wait_for_result : bool) (w : W) :
  process_document_sync client source (Some options) wait_for_result
    (Some (Seconds 0)) w =
  process_document_sync client source (Some options) wait_for_result None w /\
  (forall t : duration, t <> Seconds 0 ->
     process_document_sync client source (Some options) wait_for_result (Some t) w =
     process_document_sync client source
       (Some (mkProcessOptions (po_format options) (po_tier options)
                (po_project_id options) (po_schema_id options)
                (po_instruction_id options) (po_category_id options)
                (po_webhook_url options) (Some t) (po_poll_interval options)))
       wait_for_result None w).
Proof.
  split.
  - reflexivity.
  - intros t Ht. unfold process_document_sync, _process_url, _process_file.
    cbn [po_format po_tier po_project_id po_schema_id po_instruction_id
         po_category_id po_webhook_url po_timeout po_poll_interval].
    assert (Hor : timeout_or (Some t) (po_timeout options) = timeout_or None (Some t)).
    { unfold timeout_or. destruct t as [n| | |]; try reflexivity.
      cbn [duration_truthy]. destruct (Z.eqb_spec n 0) as [->|_];
        [contradiction|reflexivity]. }
    rewrite Hor. reflexivity.
Qed.

Lemma unpatched_wait_raises (rt : Runtime) (tr : Transport) (fuel : nat)
    (job : string) (timeout : option duration) (poll_interval : duration)
    (w : World) :
  exists (err : LeapOCRError) (w1 : World),
    wait_for_result rt (LeapOCRClient tr) (S fuel) job timeout poll_interval w =
    Some (Raised (Leap err), w1).
Proof.
  unfold wait_for_result.
  cbn [wait_loop LeapOCRClient self_get_job_status]. unfold get_job_status.
  destruct (get_job_status_with_http_info tr w job) as [[d|e] dt].
  - rewrite JobStatus_call_job_id. cbn [guarded]. eexists _, _. reflexivity.
  - destruct (guarded_is_sdk_error (A := status_object)
                "Unexpected error getting job status: " e) as (err & He & _).
    rewrite He. eexists _, _. reflexivity.
Qed.

Lemma unpatched_process_document_raises (be : Backend) (tr : Transport)
    (rt : Runtime) (fuel : nat) (source : document) (options : ProcessOptions)
    (timeout : option duration) (w : list submit_event * World) :
  exists (err : LeapOCRError) (w' : list submit_event * World),
    process_document_sync (sdk_client be tr rt (S fuel)) source (Some options) true
      timeout w = Some (Raised (Leap err), w').
Proof.
  unfold process_document_sync.
  assert (Hfile : forall file,
            exists err w',
              _process_file (sdk_client be tr rt (S fuel)) file options true timeout w
              = Some (Raised (Leap err), w')).
  { intros file. unfold _process_file. cbn [sdk_client cm_upload_file cm_wait_for_result].
    destruct (upload_file_outcome be file (po_format options) (po_tier options)
                (po_project_id options) (po_schema_id options)
                (po_instruction_id options) (po_category_id options)
                (po_webhook_url options) (fst w)) as (_ & _ & _ & _ & Hout).
    destruct (upload_file be file _ _ _ _ _ _ _ (fst w)) as [[u|e] sent'].
    - cbn [snd fst].
      destruct (unpatched_wait_raises rt tr fuel (fu_job_id u)
                  (timeout_or timeout (po_timeout options))
                  (po_poll_interval options) (snd w)) as (err & w1 & ->).
      eexists _, _. reflexivity.
    - destruct Hout as [(r & Hr)|(err & Herr)]; cbn [fst] in *; [discriminate Hr|].
      injection Herr as ->. eexists _, _. reflexivity. }
  destruct source as [s|content]; [|apply Hfile].
  destruct (is_url s); [|apply Hfile].
  unfold _process_url. cbn [sdk_client cm_process_url cm_wait_for_result].
  destruct (process_url_outcome be s (po_format options) (po_tier options)
              (po_project_id options) (po_schema_id options)
              (po_instruction_id options) (po_category_id options)
              (po_webhook_url options) (fst w)) as [(job & Hjob)|(err & Herr)].
  - destruct (process_url be s _ _ _ _ _ _ _ (fst w)) as [r sent'].
    cbn [fst] in Hjob. subst r. cbn [snd fst].
    destruct (unpatched_wait_raises rt tr fuel (id job)
                (timeout_or timeout (po_timeout options))
                (po_poll_interval options) (snd w)) as (err & w1 & ->).
    eexists _, _. reflexivity.
  - destruct (process_url be s _ _ _ _ _ _ _ (fst w)) as [r sent'].
    cbn [fst] in Herr. subst r. eexists _, _. reflexivity.
Qed.

(** X19. With an unpatched client, waiting never yields a result: whatever
    the backend, the transport and the clocks answer, [process_document]
    with [wait_for_result=True], [extract_text] and
    [extract_structured_data] all end by raising an error of the SDK (the
    submission's own, or the one the status query raises on its first
    call); none of them ever returns. *)
Theorem unpatched_extraction_always_raises (be : Backend) (tr : Transport)
    (rt : Runtime) (fuel : nat) (source : document) (timeout : option duration)
    (w : list submit_event * World) :
  let client := sdk_client be tr rt (S fuel) in
  (forall options,
     exists err w',
       process_document_sync client source options true timeout w =
       Some (Raised (Leap err), w')) /\
  (exists err w', extract_text client source timeout w = Some (Raised (Leap err), w')) /\
  (forall schema_id,
     exists err w',
       extract_structured_data client source schema_id timeout w =
       Some (Raised (Leap err), w')).
Proof.
  intros client. subst client. split; [|split].
  - intros [options|].
    + apply unpatched_process_document_raises.
    + destruct (unpatched_process_document_raises be tr rt fuel source
                  (mkProcessOptions (FormatMember STRUCTURED) (TierMember CORE)
                     None None None None None None (Seconds 2)) timeout w) as (err & w' & H).
      exists err, w'. exact H.
  - unfold extract_text.
    destruct (unpatched_process_document_raises be tr rt fuel source text_options
                timeout w) as (err & w' & H).
    change (ProcessOptions_with_format (FormatMember TEXT)) with (Returned text_options).
    cbv iota. rewrite H. eexists _, _. reflexivity.
  - intros schema_id. unfold extract_structured_data.
    destruct (unpatched_process_document_raises be tr rt fuel source
                (structured_options schema_id) timeout w) as (err & w' & H).
    change (ProcessOptions_new (FormatMember STRUCTURED) (TierMember CORE) None
              schema_id None None None None (Seconds 2))
      with (Returned (structured_options schema_id)).
    cbv iota. rewrite H. eexists _, _. reflexivity.
Qed.

(** X20. What [extract_text] and [extract_structured_data] make of a result
    [r] that [process_document] returned, whatever the status of [r]: when
    its data is populated, the text is [data.get("text", "")] (the empty
    string when the key is missing) and the structured data is the whole
    dict; when its data is absent or empty, both raise a generic
    [LeapOCRClientError] ("Failed to extract ..."), although the job may have
    completed.  The document is processed with the format text, or
    structured with the given schema, and the default tier. *)
Theorem extraction_reads_data {W : Type} (client : ClientMethods W)
    (source : document) (schema_id : option string) (timeout : option duration)
    (w w' : W) (r : JobResult) :
  (process_document_sync client source (Some text_options) true timeout w =
     Some (Returned (inr r), w') ->
   (forall d, data r = Some d -> d <> [] ->
      extract_text client source timeout w =
      Some (Returned (dict_get d "text" (PyStr "")), w') /\
      (kw_lookup "text" d = None -> dict_get d "text" (PyStr "") = PyStr "")) /\
   (data r = None \/ data r = Some [] ->
      extract_text client source timeout w =
      Some (Raised (Leap (LeapOCRClientError "Failed to extract text from document"
                            None None PyNone)), w'))) /\
  (process_document_sync client source (Some (structured_options schema_id)) true
     timeout w = Some (Returned (inr r), w') ->
   (forall d, data r = Some d -> d <> [] ->
      extract_structured_data client source schema_id timeout w =
      Some (Returned d, w')) /\
   (data r = None \/ data r = Some [] ->
      extract_structured_data client source schema_id timeout w =
      Some (Raised (Leap (LeapOCRClientError
                            "Failed to extract structured data from document"
                            None None PyNone)), w'))).
Proof.
  split; intros H.
  - unfold extract_text.
    change (ProcessOptions_with_format (FormatMember TEXT)) with (Returned text_options).
    cbv iota. rewrite H. cbn [result_data_of]. split.
    + intros d Hd Hne. rewrite Hd. destruct d as [|x d]; [contradiction|].
      cbn [dict_truthy]. split; [reflexivity|].
      intros Hmiss. unfold dict_get. rewrite Hmiss. reflexivity.
    + intros [Hd|Hd]; rewrite Hd; reflexivity.
  - unfold extract_structured_data.
    change (ProcessOptions_new (FormatMember STRUCTURED) (TierMember CORE) None
              schema_id None None None None (Seconds 2))
      with (Returned (structured_options schema_id)).
    cbv iota. rewrite H. cbn [result_data_of]. split.
    + intros d Hd Hne. rewrite Hd. destruct d as [|x d]; [contradiction|].
      reflexivity.
    + intros [Hd|Hd]; rewrite Hd; reflexivity.
Qed.

Lemma extraction_reads_data_witness :
  let failed := mkJobResult "job_1" (Enum FAILED) (Some [("partial", PyBool true)])
                  None None None (Some "boom") None None in
  extract_text (canned_client (Returned failed)) (Named "https://example.com/a.pdf")
    None 0%nat = Some (Returned (PyStr ""), 2%nat) /\
  extract_structured_data (canned_client (Returned failed))
    (Named "https://example.com/a.pdf") None None 0%nat =
    Some (Returned [("partial", PyBool true)], 2%nat).
Proof.
  intros failed.
  destruct (extraction_reads_data (canned_client (Returned failed))
              (Named "https://example.com/a.pdf") None None 0%nat 2%nat failed)
    as [Htext Hdata].
  split.
  - exact (proj1 (proj1 (Htext eq_refl) [("partial", PyBool true)] eq_refl
                    ltac:(discriminate))).
  - exact (proj1 (Hdata eq_refl) [("partial", PyBool true)] eq_refl
             ltac:(discriminate)).
Defined.

Lemma page_results_loop_dicts (ds : list (list (string * pyval))) :
  forall acc : list PageResult,
    page_results_loop (map PyDict ds) acc = Returned (acc ++ map page_of_dict ds)%list.
Proof.
  induction ds as [|d ds IH]; intros acc; cbn [map page_results_loop page_result_of].
  - rewrite app_nil_r. reflexivity.
  - fold (page_of_dict d). rewrite IH, <- app_assoc. reflexivity.
Qed.

Lemma page_results_loop_bad (before : list (list (string * pyval))) (bad : pyval)
    (after : list pyval) :
  is_dict bad = false ->
  forall acc : list PageResult,
    page_results_loop (map PyDict before ++ bad :: after)%list acc =
    Raised (Builtin "AttributeError"
              ("'" ++ type_name bad ++ "' object has no attribute 'get'")).
Proof.
  intros Hbad. induction before as [|d ds IH]; intros acc.
  - cbn [map app page_results_loop]. destruct bad; try reflexivity. discriminate Hbad.
  - cbn [map app page_results_loop page_result_of]. apply IH.
Qed.

(** X21. [get_page_results] keeps the pages in number and order: for a
    result whose pages are all dicts it returns one [PageResult] per page,
    the i-th built from the i-th page, a missing "page_number" becoming 0, a
    missing "tables" the empty list and the other missing keys [None]; a
    result without pages, or with an empty list of pages, gives the empty
    list; and a page that is not a dict makes the call raise
    [AttributeError] (nothing catches it), at the first such page. *)
Theorem page_results_follow_pages (r : JobResult) :
  (pages r = None \/ pages r = Some [] -> get_page_results r = Returned []) /\
  (forall ds : list (list (string * pyval)),
     pages r = Some (map PyDict ds) ->
     exists out : list PageResult,
       get_page_results r = Returned out /\
       length out = length ds /\
       forall i d, ds !! i = Some d ->
         out !! i = Some (page_of_dict d) /\
         (kw_lookup "page_number" d = None -> page_number (page_of_dict d) = PyInt 0) /\
         (kw_lookup "tables" d = None -> page_tables (page_of_dict d) = PyList [])) /\
  (forall before bad after,
     pages r = Some (map PyDict before ++ bad :: after)%list ->
     is_dict bad = false ->
     get_page_results r =
     Raised (Builtin "AttributeError"
               ("'" ++ type_name bad ++ "' object has no attribute 'get'"))).
Proof.
  unfold get_page_results. split; [|split].
  - intros [H|H]; rewrite H; reflexivity.
  - intros ds H. rewrite H. exists (map page_of_dict ds).
    split; [|split; [apply length_map|]].
    + destruct ds as [|d ds]; [reflexivity|].
      cbn [map list_truthy negb]. exact (page_results_loop_dicts (d :: ds) []).
    + intros i d Hi. change (map page_of_dict ds) with (page_of_dict <$> ds).
      rewrite list_lookup_fmap, Hi. split; [reflexivity|].
      split; intros Hmiss; cbn; unfold dict_get; rewrite Hmiss; reflexivity.
  - intros before bad after H Hbad. rewrite H.
    destruct (map PyDict before ++ bad :: after)%list as [|x l] eqn:E.
    + destruct before; discriminate E.
    + cbn [list_truthy negb]. rewrite <- E.
      exact (page_results_loop_bad before bad after Hbad []).
Qed.

(** ** Options and what is sent *)

Lemma post_init_format_spec (f : format_field) :
  exists f', post_init_format f = Returned f' /\
    (forall m, lower (format_text f) = ProcessFormat_value m -> f' = FormatMember m) /\
    ((forall m, lower (format_text f) <> ProcessFormat_value m) -> f' = f).
Proof.
  unfold post_init_format.
  destruct (ProcessFormat_of_value (lower (format_text f))) as [m|e] eqn:H.
  - apply ProcessFormat_of_value_iff in H. exists (FormatMember m).
    split; [reflexivity|]. split.
    + intros m' Hm'. f_equal. rewrite H in Hm'. destruct m, m'; try reflexivity; discriminate Hm'.
    + intros Hno. exfalso. exact (Hno m H).
  - assert (He : exists msg, e = Builtin "ValueError" msg).
    { unfold ProcessFormat_of_value in H.
      repeat match type of H with
             | (if ?b then _ else _) = _ => destruct b; [discriminate H|]
             end.
      injection H as <-. eexists. reflexivity. }
    destruct He as (msg & ->). exists f. split; [reflexivity|]. split; [|reflexivity].
    intros m Hm. apply ProcessFormat_of_value_iff in Hm. congruence.
Qed.

Lemma post_init_tier_spec (t : tier_field) :
  exists t', post_init_tier t = Returned t' /\
    (forall m, lower (tier_text t) = ProcessTier_value m -> t' = TierMember m) /\
    ((forall m, lower (tier_text t) <> ProcessTier_value m) -> t' = t).
Proof.
  unfold post_init_tier.
  destruct (ProcessTier_of_value (lower (tier_text t))) as [m|e] eqn:H.
  - apply ProcessTier_of_value_iff in H. exists (TierMember m).
    split; [reflexivity|]. split.
    + intros m' Hm'. f_equal. rewrite H in Hm'. destruct m, m'; try reflexivity; discriminate Hm'.
    + intros Hno. exfalso. exact (Hno m H).
  - assert (He : exists msg, e = Builtin "ValueError" msg).
    { unfold ProcessTier_of_value in H.
      repeat match type of H with
             | (if ?b then _ else _) = _ => destruct b; [discriminate H|]
             end.
      injection H as <-. eexists. reflexivity. }
    destruct He as (msg & ->). exists t. split; [reflexivity|]. split; [|reflexivity].
    intros m Hm. apply ProcessTier_of_value_iff in Hm. congruence.
Qed.

(** X22. From options to the wire: a [ProcessOptions] built with a format
    string [f] and a tier string [t] is always built (an unknown value is
    kept, not rejected), and [process_url] called with its format and tier
    sends, as the request's format and tier, the canonical lower-case value
    when the string names a format (a tier) in any letter case, and the
    string exactly as given otherwise: an unrecognised format reaches the
    server unchanged. *)
Theorem format_and_tier_are_forwarded (be : Backend) (url f t : string)
    (project schema instruction category webhook : option string)
    (timeout : option duration) (poll_interval : duration) (sent : list submit_event) :
  exists (o : ProcessOptions) (fs ts : string),
    ProcessOptions_new (FormatStr f) (TierStr t) project schema instruction category
      webhook timeout poll_interval = Returned o /\
    snd (process_url be url (po_format o) (po_tier o) (po_project_id o)
           (po_schema_id o) (po_instruction_id o) (po_category_id o)
           (po_webhook_url o) sent) =
      (sent ++ [UrlSubmitted (mkUploadURLUploadRequest url fs ts project schema
                                instruction category webhook)])%list /\
    (forall m, lower f = ProcessFormat_value m -> fs = ProcessFormat_value m) /\
    ((forall m, lower f <> ProcessFormat_value m) -> fs = f) /\
    (forall m, lower t = ProcessTier_value m -> ts = ProcessTier_value m) /\
    ((forall m, lower t <> ProcessTier_value m) -> ts = t).
Proof.
  destruct (post_init_format_spec (FormatStr f)) as (f' & Hf & Hfk & Hfo).
  destruct (post_init_tier_spec (TierStr t)) as (t' & Ht & Htk & Hto).
  cbn [format_text tier_text] in *.
  eexists _, (format_text f'), (tier_text t').
  split; [unfold ProcessOptions_new; rewrite Hf, Ht; reflexivity|].
  split; [reflexivity|].
  split; [intros m Hm; rewrite (Hfk m Hm); reflexivity|].
  split; [intros Hno; rewrite (Hfo Hno); reflexivity|].
  split; [intros m Hm; rewrite (Htk m Hm); reflexivity|].
  intros Hno; rewrite (Hto Hno); reflexivity.
Qed.

Example format_forwarding_run :
  match ProcessOptions_new (FormatStr "Tables") (TierStr "gold") None None None None
          None None (Seconds 2) with
  | Returned o =>
      snd (process_url sample_backend "https://example.com/a.pdf" (po_format o)
             (po_tier o) None None None None None []) =
      [UrlSubmitted (mkUploadURLUploadRequest "https://example.com/a.pdf" "tables"
                       "gold" None None None None None)]
  | Raised _ => False
  end.
Proof. reflexivity. Qed.

(** ** The batch orchestrator, further *)

Local Open Scope list_scope.

(** X23. A cap below one: a negative cap makes the cooperative batch raise
    [ValueError] (the semaphore refuses it) and makes the blocking batch
    return the empty list without submitting anything, whatever the
    sources; a cap of zero makes the blocking batch raise [ValueError] (the
    step of [range]) even for an empty input, and leaves the cooperative
    batch waiting for ever unless there is nothing to process. *)
Theorem cap_below_one_behaviour (svc : Service) (sources : list source)
    (wait_for_all : bool) (order : list nat) (w : BatchWorld) :
  (forall cap, cap < 0 ->
     batch_process_async svc sources cap wait_for_all order =
       Some (Raised (Builtin "ValueError" "Semaphore initial value must be >= 0")) /\
     batch_process svc sources cap wait_for_all w = (Returned [], w)) /\
  batch_process svc sources 0 wait_for_all w =
    (Raised (Builtin "ValueError" "range() arg 3 must not be zero"), w) /\
  (sources <> [] -> batch_process_async svc sources 0 wait_for_all order = None) /\
  batch_process_async svc [] 0 wait_for_all order = Some (Returned []).
Proof.
  split; [|split; [reflexivity|split; [|reflexivity]]].
  - intros cap Hcap. unfold batch_process_async, batch_process, py_range.
    destruct (Z.ltb_spec cap 0); [|lia]. destruct (Z.eqb_spec cap 0); [lia|].
    split; reflexivity.
  - intros Hne. unfold batch_process_async. cbn [Z.ltb Z.eqb Z.compare].
    unfold gather. cbn [gather_slots]. rewrite length_imap.
    destruct sources as [|s l]; [contradiction|]. reflexivity.
Qed.

Lemma settled_is_not_exception (i : nat) (r : item) : is_exception (settled i r) = false.
Proof. destruct r; reflexivity. Qed.

(** X24. The list the cooperative batch returns holds no exception: with a
    cap of at least one and every task run to its end, each entry is a
    [Job] or a [JobResult], a failed item being a [JobResult] whose status
    is failed. *)
Theorem cooperative_output_has_no_exception (svc : Service)
    (sources : list source) (max_concurrent : Z) (wait_for_all : bool)
    (order : list nat) :
  1 <= max_concurrent ->
  (forall k, (k < length sources)%nat -> In k order) ->
  exists out : list item,
    batch_process_async svc sources max_concurrent wait_for_all order =
      Some (Returned out) /\
    Forall (fun r => is_exception r = false) out /\
    (forall i src e,
       sources !! i = Some src ->
       self_process_document_async svc i src wait_for_all = Raised e ->
       exists r, out !! i = Some (ItemResult r) /\ result_status r = Enum FAILED).
Proof.
  intros Hcap Hall. eexists.
  split; [apply batch_process_async_returns; assumption|]. split.
  - apply Forall_lookup. intros i r Hi.
    rewrite list_lookup_imap in Hi.
    destruct (sources !! i) as [src|]; [|discriminate Hi].
    cbn in Hi. injection Hi as <-. apply settled_is_not_exception.
  - intros i src e Hsrc Hfail. rewrite list_lookup_imap, Hsrc. cbn.
    unfold process_single. rewrite Hfail. cbn [settled].
    eexists. split; reflexivity.
Qed.

Lemma cooperative_output_has_no_exception_witness :
  exists out : list item,
    batch_process_async flaky_service three_urls 2 true [2; 1; 0]%nat =
      Some (Returned out) /\
    Forall (fun r => is_exception r = false) out.
Proof.
  destruct (cooperative_output_has_no_exception flaky_service three_urls 2 true
              [2; 1; 0]%nat) as (out & Hrun & Hall & _).
  - lia.
  - intros k Hk. cbn in Hk. cbn. lia.
  - exists out. split; assumption.
Defined.

Lemma concat_group_events_false (G : list (list (nat * source * Job))) :
  concat (map (group_events false) G) =
  map (fun '(n, src, _) => Submitted n src) (concat G).
Proof.
  induction G as [|g G IH]; [reflexivity|].
  cbn [map concat]. rewrite IH, map_app. unfold group_events.
  rewrite app_nil_r. reflexivity.
Qed.

(** X25. Without [wait_for_all] the cap has no effect on the blocking
    batch: when every submission succeeds, the sources are submitted one
    after the other in the order of the input, each exactly once, and the
    jobs come back in that order, for every cap of at least one. *)
Theorem blocking_batch_without_wait_is_sequential (svc : Service)
    (sources : list source) (max_concurrent : Z) (J : nat -> Job) :
  1 <= max_concurrent ->
  (forall i src, sources !! i = Some src ->
     self_process_document svc i src = Returned (J i)) ->
  batch_process svc sources max_concurrent false fresh_batch =
  (Returned (imap (fun i _ => ItemJob (J i)) sources),
   {| submissions := length sources; waits := 0;
      batch_log := imap (fun i src => Submitted i src) sources |}).
Proof.
  intros Hcap HJ.
  rewrite (batch_process_ok svc sources max_concurrent false J (fun _ => sample_result)
             Hcap HJ) by discriminate.
  f_equal.
  - f_equal. apply list_eq. intros i.
    change (map ?f ?x) with (f <$> x).
    rewrite list_lookup_fmap, list_lookup_imap.
    destruct (Nat.lt_ge_cases i (length sources)) as [Hlt|Hge].
    + rewrite lookup_seq_lt by exact Hlt.
      destruct (lookup_lt_is_Some_2 sources i Hlt) as [x ->]. reflexivity.
    + rewrite lookup_seq_ge by exact Hge.
      rewrite (proj2 (lookup_ge_None sources i) Hge). reflexivity.
  - f_equal. unfold grouped_log. rewrite concat_group_events_false.
    unfold consecutive_groups.
    rewrite (proj1 (groups_upto_partition (Z.to_nat max_concurrent) ltac:(lia)
                      _ (indexed sources J) (le_n _))).
    unfold indexed. apply list_eq. intros i.
    change (map ?f ?x) with (f <$> x).
    rewrite list_lookup_fmap, !list_lookup_imap.
    destruct (sources !! i); reflexivity.
Qed.

Lemma blocking_batch_without_wait_is_sequential_witness :
  batch_process steady_service three_urls 2 false fresh_batch =
  batch_process steady_service three_urls 5 false fresh_batch.
Proof.
  rewrite (blocking_batch_without_wait_is_sequential steady_service three_urls 2
             steady_job ltac:(lia) ltac:(intros i src _; reflexivity)).
  rewrite (blocking_batch_without_wait_is_sequential steady_service three_urls 5
             steady_job ltac:(lia) ltac:(intros i src _; reflexivity)).
  reflexivity.
Defined.

Lemma batch_loop_app (svc : Service) (sources : list source) (k : nat)
    (wait_for_all : bool) (s1 s2 : list nat) :
  forall (acc : list item) (w : BatchWorld),
    batch_loop svc sources k wait_for_all (s1 ++ s2) acc w =
    match batch_loop svc sources k wait_for_all s1 acc w with
    | (Returned acc', w') => batch_loop svc sources k wait_for_all s2 acc' w'
    | (Raised e, w') => (Raised e, w')
    end.
Proof.
  induction s1 as [|i s1 IH]; intros acc w; [reflexivity|].
  cbn [app batch_loop]. unfold bind.
  destruct (submit_batch svc (take k (drop i sources)) [] w) as [[jobs|e] w1];
    [|reflexivity].
  destruct wait_for_all.
  - destruct (wait_batch svc jobs [] w1) as [[rs|e] w2]; [apply IH|reflexivity].
  - apply IH.
Qed.

Lemma batch_loop_same_batches (svc : Service) (sources sources' : list source)
    (k : nat) (wait_for_all : bool) (starts : list nat) :
  (forall i, In i starts -> take k (drop i sources) = take k (drop i sources')) ->
  forall (acc : list item) (w : BatchWorld),
    batch_loop svc sources k wait_for_all starts acc w =
    batch_loop svc sources' k wait_for_all starts acc w.
Proof.
  induction starts as [|i starts IH]; intros Hsame acc w; [reflexivity|].
  cbn [batch_loop]. rewrite (Hsame i (or_introl eq_refl)).
  unfold bind.
  destruct (submit_batch svc (take k (drop i sources')) [] w) as [[jobs|e] w1];
    [|reflexivity].
  assert (Hrest : forall j, In j starts ->
            take k (drop j sources) = take k (drop j sources')).
  { intros j Hj. apply Hsame. right. exact Hj. }
  destruct wait_for_all.
  - destruct (wait_batch svc jobs [] w1) as [[rs|e] w2];
      [apply IH; exact Hrest|reflexivity].
  - apply IH. exact Hrest.
Qed.

Lemma submit_batch_fails (svc : Service) (J : nat -> Job) (e : exn) :
  forall (batch : list source) (j : nat) (bad : source) (acc : list Job)
         (w : BatchWorld),
    batch !! j = Some bad ->
    self_process_document svc (submissions w + j) bad = Raised e ->
    (forall i src, (i < j)%nat -> batch !! i = Some src ->
       self_process_document svc (submissions w + i) src =
       Returned (J (submissions w + i)%nat)) ->
    submit_batch svc batch acc w =
    (Raised e,
     {| submissions := submissions w + S j;
        waits := waits w;
        batch_log := batch_log w ++
                     imap (fun i src => Submitted (submissions w + i) src)
                          (take (S j) batch) |}).
Proof.
  induction batch as [|src rest IH]; intros j bad acc w Hbad Hfail Hok;
    [discriminate Hbad|].
  cbn [submit_batch]. unfold bind at 1. unfold process_document at 1.
  destruct j as [|j].
  - cbn in Hbad. injection Hbad as ->. rewrite Nat.add_0_r in Hfail. rewrite Hfail.
    destruct w as [p q l]. cbn. rewrite Nat.add_0_r, take_0. cbn.
    do 2 f_equal. lia.
  - pose proof (Hok 0%nat src ltac:(lia) eq_refl) as H0.
    rewrite Nat.add_0_r in H0. rewrite H0.
    rewrite (IH j bad).
    + destruct w as [p q l]. cbn [submissions waits batch_log firstn take imap].
      rewrite <- !app_assoc. cbn [app]. rewrite Nat.add_0_r.
      do 2 f_equal; [lia|]. do 2 f_equal. apply imap_ext. intros i x _. cbn.
      f_equal. lia.
    + exact Hbad.
    + cbn [submissions].
      replace (S (submissions w) + j)%nat with (submissions w + S j)%nat by lia.
      exact Hfail.
    + intros i s Hi Hs. cbn [submissions].
      replace (S (submissions w) + i)%nat with (submissions w + S i)%nat by lia.
      apply Hok; [lia|exact Hs].
Qed.

(** X26. A submission that fails aborts the blocking batch, for every cap
    of at least one, waiting or not: when the source at position [f] is the
    first whose submission raises [e], the call raises [e] and returns
    nothing, although the groups before the one of [f] were processed in
    full (submitted and, with [wait_for_all], awaited) and the sources of
    [f]'s own group up to [f] were submitted: [f + 1] submissions in all,
    none after [f], and no wait for any job of [f]'s group. *)
Theorem failing_submission_aborts_batch (svc : Service) (sources : list source)
    (max_concurrent : Z) (wait_for_all : bool) (J : nat -> Job)
    (R : nat -> JobResult) (f : nat) (bad : source) (e : exn) :
  1 <= max_concurrent ->
  sources !! f = Some bad ->
  self_process_document svc f bad = Raised e ->
  (forall i src, (i < f)%nat -> sources !! i = Some src ->
     self_process_document svc i src = Returned (J i)) ->
  (wait_for_all = true ->
   forall i, (i < f)%nat -> client_wait_for_result svc i (id (J i)) = Returned (R i)) ->
  let k := Z.to_nat max_concurrent in
  let done := (f / k * k)%nat in
  batch_process svc sources max_concurrent wait_for_all fresh_batch =
  (Raised e,
   {| submissions := S f;
      waits := if wait_for_all then done else 0%nat;
      batch_log :=
        grouped_log k wait_for_all (take done sources) J ++
        imap (fun i src => Submitted (done + i) src)
             (take (S (f - done)) (drop done sources)) |}).
Proof.
  intros Hcap Hbad Hfail HJ HR k done.
  assert (Hk : (1 <= k)%nat) by (subst k; lia).
  assert (Hf : (f < length sources)%nat) by (eapply lookup_lt_Some; exact Hbad).
  assert (Hdone : (done <= f < done + k)%nat).
  { subst done. pose proof (Nat.div_mod_eq f k) as Hdm.
    pose proof (Nat.mod_upper_bound f k ltac:(lia)) as Hub. nia. }
  set (c := (f / k)%nat) in *.
  set (m := ((length sources + k - 1) / k)%nat).
  assert (Hm : (c < m)%nat).
  { destruct (Nat.lt_ge_cases c m) as [Hlt|Hge]; [exact Hlt|exfalso].
    pose proof (ceil_div_covers (length sources) k Hk) as Hcov. fold m in Hcov.
    pose proof (Nat.mul_le_mono_r _ _ k Hge) as Hmul.
    subst done. lia. }
  (* the groups before the failing one, run on the sources they cover *)
  pose proof (batch_process_ok svc (take done sources) max_concurrent wait_for_all J R
                Hcap) as Hprefix.
  assert (Hlen : length (take done sources) = done) by (rewrite length_take; lia).
  rewrite Hlen in Hprefix.
  specialize (Hprefix
    ltac:(intros i src Hi; apply lookup_take_Some in Hi as [Hi Hlt];
          apply HJ; [lia|exact Hi])
    ltac:(intros Hw i Hi; apply HR; [exact Hw|lia])).
  unfold batch_process, py_range in Hprefix |- *.
  destruct (Z.eqb_spec max_concurrent 0); [lia|].
  destruct (Z.ltb_spec max_concurrent 0); [lia|].
  fold k in Hprefix |- *. fold m.
  assert (Hceil : ((done + k - 1) / k = c)%nat).
  { subst done. replace (c * k + k - 1)%nat with ((k - 1) + c * k)%nat by lia.
    rewrite Nat.div_add by lia. rewrite Nat.div_small by lia. reflexivity. }
  rewrite Hlen, Hceil in Hprefix.
  replace m with (c + S (m - S c))%nat by lia.
  rewrite seq_app, map_app, batch_loop_app.
  rewrite (batch_loop_same_batches svc sources (take done sources)).
  2:{ intros i Hi. apply in_map_iff in Hi as (q & <- & Hq).
      apply in_seq in Hq.
      rewrite (take_drop_commute (take done sources)), take_take.
      rewrite (take_drop_commute sources).
      f_equal. f_equal. subst done. nia. }
  rewrite Hprefix.
  cbn [seq map batch_loop Nat.add]. unfold bind at 1.
  rewrite (submit_batch_fails svc J e _ (f - done) bad).
  - cbn [submissions waits batch_log]. fold done.
    replace (done + S (f - done))%nat with (S f) by lia.
    rewrite take_take.
    replace (Nat.min (S (f - done)) k) with (S (f - done)) by lia.
    reflexivity.
  - rewrite lookup_take_lt by lia. rewrite lookup_drop.
    match goal with
    | |- sources !! ?x = _ => replace x with f by (subst done; lia)
    end.
    exact Hbad.
  - cbn [submissions]. replace (done + (f - done))%nat with f by lia. exact Hfail.
  - intros i src Hi Hsrc. cbn [submissions].
    apply HJ; [lia|]. apply lookup_take_Some in Hsrc as [Hsrc _].
    rewrite lookup_drop in Hsrc.
    match type of Hsrc with
    | sources !! ?x = _ => replace x with (done + i)%nat in Hsrc by (subst done; lia)
    end.
    exact Hsrc.
Qed.

Lemma failing_submission_aborts_batch_witness :
  batch_process flaky_service three_urls 1 true fresh_batch =
  (Raised (Leap (LeapOCRServerError "Server error: None" None PyNone)),
   {| submissions := 2; waits := 1;
      batch_log := [Submitted 0 "https://example.com/a.pdf"; Awaited 0 "job_0";
                    Submitted 1 "https://example.com/b.pdf"] |}).
Proof.
  exact (failing_submission_aborts_batch flaky_service three_urls 1 true steady_job
           steady_result 1 "https://example.com/b.pdf"%string
           (Leap (LeapOCRServerError "Server error: None" None PyNone))
           ltac:(lia) eq_refl eq_refl
           ltac:(intros i src Hi _; destruct i; [reflexivity|lia])
           ltac:(intros _ i _; reflexivity)).
Defined.
